(** * Blood Donor integration: booking helper, API client and update scheduler

    A shallow embedding of the Python sources

      - [blood_donor/booking_helper.py]  (the slot matching engine),
      - [blood_donor/blood_donor.py]     (API client and coordinator),
      - [custom_components/blood_donor/blood_donor.py] and
        [custom_components/blood_donor/utils.py] (the update scheduler),
      - [blood_donor/config_flow.py]     (the configuration flow),
      - [custom_components/blood_donor/sensor.py] (two of the sensors),
      - [custom_components/blood_donor/calendar.py] (the calendar),
      - [blood_donor/services.py]        (the [book_appointment] service),

    followed by the properties of the specification, stated over it, and
    by further properties of the sources.

    Conventions of the embedding.
      - A Python call either returns, raises, or is still running when the
        fuel of the model is used up ([outcome]); fuel only bounds the
        recursive re-invocations after a 401 answer.
      - JSON payloads are values of type [json]; every dynamic operation
        the source performs on them ([d.get(k)], [d[k]], iteration,
        [.split], [int(...)]) is a function that can raise the exception
        Python raises.  Numbers are integers and texts are ASCII.
      - Dates are proleptic Gregorian ordinals ([date.toordinal()]), times
        of day and durations are microseconds, as in [datetime].  Where
        the source turns a duration into a floating-point number of hours
        and compares it, the durations themselves are compared.
      - The remote service is a function from the index of the network
        call and the request to the reply; real-time limits (the
        [async_timeout] blocks) show only as the reply [TimedOut].
      - A reply carries its status, its text and, when it is declared
        as JSON, its body if the text parses; a reply declared with
        another content type is [OtherContent].
      - Values are compared as Python compares them: numbers with
        numbers, texts with texts, anything else is a [TypeError]; lists
        are not ordered by the model.
      - The wall clock does not advance during one operation.

    Layout: [Py] (runtime primitives), [Net] (requests, replies, the
    account context and the monad of calls), [Api], [BookingHelper] and
    [Scheduler] (the sources), [Spec] (vocabulary of the properties),
    [Scenario] (concrete runs), [ConfigFlow], [Sensor], [Calendar] and
    [Services] (more of the sources), [Notions] and [Cases] (vocabulary
    and data of the further properties), then the properties. *)

From Stdlib Require Import ZArith List String Ascii Bool Lia.
Import ListNotations.

#[local] Set Warnings "-register-all".
Local Open Scope string_scope.
Local Open Scope list_scope.
Local Open Scope Z_scope.

(* ===================================================================== *)
(** * Python runtime primitives used by the sources *)
(* ===================================================================== *)

Module Py.

(** ** Exceptions *)

Inductive exn : Type :=
| KeyError
| IndexError
| ValueError
| JSONDecodeError            (* json.JSONDecodeError, a ValueError *)
| TypeError
| AttributeError
| OverflowError
| UnboundLocalError
| TimeoutError               (* asyncio.TimeoutError *)
| ClientError                (* aiohttp.ClientError *)
| Invalid                    (* voluptuous.Invalid *)
| UpdateFailed (cause : string).

(** [isinstance(e, ValueError)]: [JSONDecodeError] is a subclass. *)
Definition is_ValueError (e : exn) : bool :=
  match e with ValueError | JSONDecodeError => true | _ => false end.

(** [str(e)], as far as the sources show it to a caller. *)
Definition exn_str (e : exn) : string :=
  match e with
  | KeyError => "KeyError"
  | IndexError => "IndexError"
  | ValueError => "ValueError"
  | JSONDecodeError => "JSONDecodeError"
  | TypeError => "TypeError"
  | AttributeError => "AttributeError"
  | OverflowError => "OverflowError"
  | UnboundLocalError => "UnboundLocalError"
  | TimeoutError => "TimeoutError"
  | ClientError => "ClientError"
  | Invalid => "Invalid"
  | UpdateFailed c => c
  end.

(** ** Pure computations that can raise *)

Inductive res (A : Type) : Type :=
| Ok (a : A)
| Raise (e : exn).
Arguments Ok {A} a.
Arguments Raise {A} e.

Definition rbind {A B} (c : res A) (k : A -> res B) : res B :=
  match c with
  | Ok a => k a
  | Raise e => Raise e
  end.

(** [try: c except (classes): h] for a pure block. *)
Definition rcatch {A} (c : res A) (handles : exn -> bool) (h : exn -> res A)
  : res A :=
  match c with
  | Ok a => Ok a
  | Raise e => if handles e then h e else Raise e
  end.

Declare Scope res_scope.
Delimit Scope res_scope with res.
Notation "'let?' x ':=' c 'in' k" := (rbind c (fun x => k))
  (at level 10, x name, c at level 100, k at level 200) : res_scope.

(** ** Strings *)

Definition colon : ascii := ":"%char.
Definition zero_char : ascii := "0"%char.

Fixpoint str_count (c : ascii) (s : string) : nat :=
  match s with
  | EmptyString => 0%nat
  | String a s' => ((if Ascii.eqb a c then 1 else 0) + str_count c s')%nat
  end.

(** [s.split(c)] for a one-character separator: never empty. *)
Fixpoint str_split (c : ascii) (s : string) : list string :=
  match s with
  | EmptyString => [EmptyString]
  | String a s' =>
      if Ascii.eqb a c then EmptyString :: str_split c s'
      else match str_split c s' with
           | [] => [String a EmptyString]
           | p :: ps => String a p :: ps
           end
  end.

(** [sep.join(parts)]. *)
Fixpoint str_join (sep : string) (parts : list string) : string :=
  match parts with
  | [] => EmptyString
  | [p] => p
  | p :: ps => (p ++ sep ++ str_join sep ps)%string
  end.

(** [s.replace(c, "")]. *)
Fixpoint str_remove (c : ascii) (s : string) : string :=
  match s with
  | EmptyString => EmptyString
  | String a s' =>
      if Ascii.eqb a c then str_remove c s' else String a (str_remove c s')
  end.

(** [s[:n]] and [s[n:]]. *)
Fixpoint str_take (n : nat) (s : string) : string :=
  match n, s with
  | O, _ => EmptyString
  | S _, EmptyString => EmptyString
  | S n', String a s' => String a (str_take n' s')
  end.

Fixpoint str_drop (n : nat) (s : string) : string :=
  match n, s with
  | O, _ => s
  | S _, EmptyString => EmptyString
  | S n', String _ s' => str_drop n' s'
  end.

Fixpoint str_repeat (c : ascii) (n : nat) : string :=
  match n with
  | O => EmptyString
  | S n' => String c (str_repeat c n')
  end.

Definition is_sign (c : ascii) : bool :=
  Ascii.eqb c "+"%char || Ascii.eqb c "-"%char.

(** [s.zfill(width)]: zeros are inserted after a leading sign. *)
Definition zfill (width : nat) (s : string) : string :=
  if (width <=? String.length s)%nat then s
  else
    let pad := str_repeat zero_char (width - String.length s) in
    match s with
    | String a s' =>
        if is_sign a then String a (pad ++ s')%string else (pad ++ s)%string
    | EmptyString => pad
    end.

Definition lower_char (c : ascii) : ascii :=
  let n := nat_of_ascii c in
  if ((65 <=? n) && (n <=? 90))%nat then ascii_of_nat (n + 32) else c.

Fixpoint str_lower (s : string) : string :=
  match s with
  | EmptyString => EmptyString
  | String a s' => String (lower_char a) (str_lower s')
  end.

(** ** Integers read from text: [int(s)] in base 10

    Leading and trailing white space is dropped, one sign is allowed, and
    single underscores may separate digits (ASCII subset of what CPython
    accepts). *)

Definition is_space (c : ascii) : bool :=
  let n := nat_of_ascii c in
  (((9 <=? n) && (n <=? 13)) || ((28 <=? n) && (n <=? 32)))%nat.

Definition digit_val (c : ascii) : option Z :=
  let n := nat_of_ascii c in
  if ((48 <=? n) && (n <=? 57))%nat then Some (Z.of_nat n - 48) else None.

Definition is_digit (c : ascii) : bool :=
  match digit_val c with Some _ => true | None => false end.

Fixpoint lstrip (s : string) : string :=
  match s with
  | String a s' => if is_space a then lstrip s' else s
  | EmptyString => EmptyString
  end.

Fixpoint rstrip (s : string) : string :=
  match s with
  | EmptyString => EmptyString
  | String a s' =>
      match rstrip s' with
      | EmptyString => if is_space a then EmptyString else String a EmptyString
      | r => String a r
      end
  end.

(** Digits with single underscores between them; [acc] is the value read
    so far and [prev_digit] tells whether the previous character was a
    digit. *)
Fixpoint digits_value (s : string) (acc : Z) (prev_digit : bool) : option Z :=
  match s with
  | EmptyString => if prev_digit then Some acc else None
  | String a s' =>
      match digit_val a with
      | Some d => digits_value s' (10 * acc + d) true
      | None =>
          if Ascii.eqb a "_"%char && prev_digit
          then digits_value s' acc false
          else None
      end
  end.

(** The number of digits of a text, and the longest decimal text [int]
    converts: the interpreter's default limit
    ([sys.get_int_max_str_digits()], CPython 3.11 and later).  A longer
    text is a [ValueError], like a text that is no number. *)
Fixpoint count_digits (s : string) : Z :=
  match s with
  | EmptyString => 0
  | String a s' => (if is_digit a then 1 else 0) + count_digits s'
  end.

Definition MAX_STR_DIGITS : Z := 4300.

Definition int_of_str (s : string) : res Z :=
  let t := rstrip (lstrip s) in
  let '(neg, body) :=
    match t with
    | String a t' =>
        if Ascii.eqb a "-"%char then (true, t')
        else if Ascii.eqb a "+"%char then (false, t')
        else (false, t)
    | EmptyString => (false, t)
    end in
  match digits_value body 0 false with
  | Some v =>
      if count_digits body >? MAX_STR_DIGITS then Raise ValueError
      else Ok (if neg then - v else v)
  | None => Raise ValueError
  end.

(** ** JSON values, as [response.json()] hands them to the sources.
    Numbers are integers; an object keeps its members in order. *)

Inductive json : Type :=
| JNull
| JBool (b : bool)
| JNum (n : Z)
| JStr (s : string)
| JArr (items : list json)
| JObj (members : list (string * json)).

(** Python truthiness. *)
Definition truthy (v : json) : bool :=
  match v with
  | JNull => false
  | JBool b => b
  | JNum n => negb (n =? 0)
  | JStr s => negb (String.eqb s EmptyString)
  | JArr l => match l with [] => false | _ => true end
  | JObj m => match m with [] => false | _ => true end
  end.

Fixpoint assoc (k : string) (m : list (string * json)) : option json :=
  match m with
  | [] => None
  | (k', v) :: m' => if String.eqb k k' then Some v else assoc k m'
  end.

(** [d[k] = v] on a dict: replaces in place or appends. *)
Fixpoint assoc_set (k : string) (v : json) (m : list (string * json))
  : list (string * json) :=
  match m with
  | [] => [(k, v)]
  | (k', v') :: m' =>
      if String.eqb k k' then (k, v) :: m' else (k', v') :: assoc_set k v m'
  end.

(** [d.get(k, default)]: only a dict has the method. *)
Definition get (d : json) (k : string) (default : json) : res json :=
  match d with
  | JObj m => Ok (match assoc k m with Some v => v | None => default end)
  | _ => Raise AttributeError
  end.

(** [d[k]] with a string key. *)
Definition getitem (d : json) (k : string) : res json :=
  match d with
  | JObj m => match assoc k m with Some v => Ok v | None => Raise KeyError end
  | _ => Raise TypeError
  end.

(** [k in d] with a string key. *)
Definition contains (d : json) (k : string) : res bool :=
  match d with
  | JObj m => Ok (match assoc k m with Some _ => true | None => false end)
  | JArr l => Ok (existsb (fun x => match x with
                                    | JStr s => String.eqb s k
                                    | _ => false end) l)
  | JStr s => Ok (match index 0 k s with Some _ => true | None => false end)
  | _ => Raise TypeError
  end.

Fixpoint chars (s : string) : list json :=
  match s with
  | EmptyString => []
  | String a s' => JStr (String a EmptyString) :: chars s'
  end.

(** [for x in v]: a list yields its items, a dict its keys, a string its
    characters. *)
Definition iter (v : json) : res (list json) :=
  match v with
  | JArr l => Ok l
  | JObj m => Ok (map (fun kv => JStr (fst kv)) m)
  | JStr s => Ok (chars s)
  | _ => Raise TypeError
  end.

(** A method of [str] called on a value: anything else has no such
    attribute. *)
Definition as_str (v : json) : res string :=
  match v with
  | JStr s => Ok s
  | _ => Raise AttributeError
  end.

(** [int(v)]. *)
Definition int_of (v : json) : res Z :=
  match v with
  | JNum n => Ok n
  | JBool b => Ok (if b then 1 else 0)
  | JStr s => int_of_str s
  | _ => Raise TypeError
  end.

(** [list(d.keys())]. *)
Definition keys (d : json) : res (list json) :=
  match d with
  | JObj m => Ok (map (fun kv => JStr (fst kv)) m)
  | _ => Raise AttributeError
  end.

(** [len(v)]. *)
Definition len (v : json) : res Z :=
  match v with
  | JArr l => Ok (Z.of_nat (List.length l))
  | JObj m => Ok (Z.of_nat (List.length m))
  | JStr s => Ok (Z.of_nat (String.length s))
  | _ => Raise TypeError
  end.

(** [d[k] = v] with a string key: only a dict accepts it. *)
Definition setitem (d : json) (k : string) (v : json) : res json :=
  match d with
  | JObj m => Ok (JObj (assoc_set k v m))
  | _ => Raise TypeError
  end.

(** [v[:10]] evaluated for a log line: defined on sequences only. *)
Definition sliceable (v : json) : res unit :=
  match v with
  | JStr _ | JArr _ => Ok tt
  | _ => Raise TypeError
  end.

(** [sorted(l, key=...)] and [l.sort(key=...)] are stable: entries with
    equal keys keep their order.  The result of a stable sort is fixed by
    that, so it is written here as an insertion sort. *)
Section Sorting.
Context {A : Type} (key : A -> Z).

Fixpoint insert_by (x : A) (l : list A) : list A :=
  match l with
  | [] => [x]
  | y :: l' => if key x <=? key y then x :: l else y :: insert_by x l'
  end.

Fixpoint sort_by (l : list A) : list A :=
  match l with
  | [] => []
  | x :: l' => insert_by x (sort_by l')
  end.
End Sorting.

(** ** Ordering JSON values: [a < b] and [a > b]

    Python orders numbers among themselves (a boolean counts as 0 or 1)
    and texts among themselves, character by character, a proper prefix
    first; [None], an object, and a number with a text are refused with
    [TypeError].  Python orders two lists as well, element by element;
    the model does not order lists: a list in a comparison is refused
    like an object. *)

Definition char_ltb (a b : ascii) : bool :=
  (nat_of_ascii a <? nat_of_ascii b)%nat.

Fixpoint str_ltb (a b : string) : bool :=
  match a, b with
  | _, EmptyString => false
  | EmptyString, String _ _ => true
  | String x a', String y b' =>
      if char_ltb x y then true
      else if char_ltb y x then false
      else str_ltb a' b'
  end.

Definition as_number (v : json) : option Z :=
  match v with
  | JNum n => Some n
  | JBool b => Some (if b then 1 else 0)
  | _ => None
  end.

Definition lt (a b : json) : res bool :=
  match a, b with
  | JStr s, JStr t => Ok (str_ltb s t)
  | _, _ =>
      match as_number a, as_number b with
      | Some x, Some y => Ok (x <? y)
      | _, _ => Raise TypeError
      end
  end.

Definition gt (a b : json) : res bool := lt b a.

(** The two kinds of values that are ordered. *)
Inductive kind : Type := Number | Text.

Definition kind_of (v : json) : option kind :=
  match v with
  | JNum _ | JBool _ => Some Number
  | JStr _ => Some Text
  | _ => None
  end.

(** [sorted(l, key=...)] where comparing two keys can raise.  The sort
    compares keys with [<] only and is stable; with the order above, a
    comparison raises exactly when two keys are not of one ordered kind,
    which every sort of two keys or more finds out, and a single key is
    compared with nothing.  What is returned otherwise is fixed by
    stability; it is written as the insertion sort. *)
Section SortingValues.
Context {A : Type} (key : A -> json).

Fixpoint insert_lt (x : A) (l : list A) : res (list A) :=
  match l with
  | [] => Ok [x]
  | y :: l' =>
      (let? y_first := lt (key y) (key x) in
       if y_first : bool
       then let? rest := insert_lt x l' in Ok (y :: rest)
       else Ok (x :: l))%res
  end.

Fixpoint sort_lt (l : list A) : res (list A) :=
  match l with
  | [] => Ok []
  | x :: l' => (let? sorted := sort_lt l' in insert_lt x sorted)%res
  end.
End SortingValues.

(** [v.split("T")[0]]. *)
Definition before_T (s : string) : string :=
  match str_split "T"%char s with
  | p :: _ => p
  | [] => EmptyString
  end.

(** ** Calendar: [date], [time], [datetime] and [timedelta] of [datetime]

    A [date] is its ordinal ([date.toordinal()], day 1 is 0001-01-01); a
    [timedelta] and a time of day are microseconds; a [datetime] is the
    number of microseconds since midnight of ordinal 0. *)

Definition date := Z.
Definition timedelta := Z.
Definition datetime := Z.

Definition MAXORDINAL : Z := 3652059.            (* 9999-12-31 *)
Definition second_us : Z := 1000000.
Definition hour_us : Z := 3600 * second_us.
Definition day_us : Z := 24 * hour_us.

Definition is_leap (y : Z) : bool :=
  (y mod 4 =? 0) && (negb (y mod 100 =? 0) || (y mod 400 =? 0)).

Definition days_before_year (y : Z) : Z :=
  let p := y - 1 in p * 365 + p / 4 - p / 100 + p / 400.

Definition days_in_month (y m : Z) : Z :=
  if m =? 2 then (if is_leap y then 29 else 28)
  else if (m =? 4) || (m =? 6) || (m =? 9) || (m =? 11) then 30
  else 31.

Fixpoint days_before_month_nat (y : Z) (m : nat) : Z :=
  match m with
  | O => 0
  | S m' => days_before_month_nat y m' + days_in_month y (Z.of_nat m)
  end.

(** Days of the year before the first day of month [m]. *)
Definition days_before_month (y m : Z) : Z :=
  days_before_month_nat y (Z.to_nat (m - 1)).

Definition ymd2ord (y m d : Z) : Z :=
  days_before_year y + days_before_month y m + d.

(** [date(y, m, d)]. *)
Definition make_date (y m d : Z) : res date :=
  if (1 <=? y) && (y <=? 9999) && (1 <=? m) && (m <=? 12)
     && (1 <=? d) && (d <=? days_in_month y m)
  then Ok (ymd2ord y m d)
  else Raise ValueError.

(** [d.weekday()]: Monday is 0. *)
Definition weekday (d : date) : Z := (d + 6) mod 7.

(** [timedelta(days=n)]. *)
Definition timedelta_days (n : Z) : res timedelta :=
  if (-999999999 <=? n) && (n <=? 999999999) then Ok (n * day_us)
  else Raise OverflowError.

(** [d + td] on a date: only the whole days of [td] count. *)
Definition date_add (d : date) (td : timedelta) : res date :=
  let o := d + td / day_us in
  if (0 <? o) && (o <=? MAXORDINAL) then Ok o else Raise OverflowError.

Definition date_sub (d : date) (td : timedelta) : res date :=
  date_add d (- td).

(** A C [int]: the type [datetime.time] converts its arguments to
    before it looks at their range. *)
Definition fits_int (v : Z) : bool :=
  (-2147483648 <=? v) && (v <=? 2147483647).

(** [time(hour, minute)]: an argument that does not fit a C [int] is an
    [OverflowError], one that is out of range a [ValueError]. *)
Definition make_time (h m : Z) : res timedelta :=
  if negb (fits_int h && fits_int m) then Raise OverflowError
  else if (0 <=? h) && (h <=? 23) && (0 <=? m) && (m <=? 59)
  then Ok ((h * 60 + m) * 60 * second_us)
  else Raise ValueError.

(** [datetime.combine(d, t)] and [dt.date()]. *)
Definition combine (d : date) (t : timedelta) : datetime := d * day_us + t.
Definition date_of (dt : datetime) : date := dt / day_us.

(** [dt + td] and [dt - td] on a datetime. *)
Definition datetime_add (dt : datetime) (td : timedelta) : res datetime :=
  let r := dt + td in
  if (0 <? date_of r) && (date_of r <=? MAXORDINAL) then Ok r
  else Raise OverflowError.

Definition datetime_sub (dt : datetime) (td : timedelta) : res datetime :=
  datetime_add dt (- td).

(** [datetime.strptime(s, "%Y-%m-%d").date()]: four digits, a month of
    one or two digits in 1..12, a day of one or two digits in 1..31 (or a
    blank and one digit), and the date must exist. *)
Fixpoint all_digits (s : string) : bool :=
  match s with
  | EmptyString => true
  | String a s' => is_digit a && all_digits s'
  end.

Definition digits_token (min_len max_len : nat) (s : string) : option Z :=
  if all_digits s && (min_len <=? String.length s)%nat
     && (String.length s <=? max_len)%nat
  then digits_value s 0 false
  else None.

Definition day_token (s : string) : option Z :=
  match s with
  | String a (String b EmptyString) =>
      if Ascii.eqb a " "%char then digits_token 1 1 (String b EmptyString)
      else digits_token 2 2 s
  | _ => digits_token 1 1 s
  end.

Definition strptime_ymd (s : string) : res date :=
  match str_split "-"%char s with
  | [ys; ms; ds] =>
      match digits_token 4 4 ys, digits_token 1 2 ms, day_token ds with
      | Some y, Some m, Some d =>
          if (1 <=? m) && (m <=? 12) && (1 <=? d) && (d <=? 31)
          then make_date y m d
          else Raise ValueError
      | _, _, _ => Raise ValueError
      end
  | _ => Raise ValueError
  end.

End Py.

(* ===================================================================== *)
(** * The remote service and the state of the integration *)
(* ===================================================================== *)

Module Net.
Import Py.

(** The authenticated and unauthenticated calls the sources issue.  The
    date of a session query stands for its ISO text followed by
    [T00:00:00]; an empty procedure code means the parameter is absent. *)
Inductive request : Type :=
| ReqLogin
| ReqAccountDetails (token : json)
| ReqAwards (token : json)
| ReqSessions (token : json) (venue_id : string) (day : date)
              (procedure_code : string)
| ReqSlots (token : json) (session_id session_date : json)
           (procedure_code : string)
| ReqBook (token : json) (session_id session_date session_time : json)
          (venue_id procedure_code : string).

(** What awaiting a request gives: a response with its status, its text
    and its body when that is JSON, or one of the two transport
    failures.  A [Response] declares a JSON content type; an
    [OtherContent] response declares another one (or none), whatever its
    text is. *)
Inductive reply : Type :=
| Response (status : Z) (text : string) (body : option json)
| TimedOut
| ConnectionFailed
| OtherContent (status : Z) (text : string).

Inductive event : Type :=
| Sent (r : request)
| Notified (notification_id : string)
| Refreshed (ok : bool).

(** One account context: the API client's token fields, the
    coordinator's cached snapshot, the wall clock (which does not advance
    during one operation) and the remote service, which answers the
    [n]-th network call of the run. *)
Record world : Type := {
  remote : nat -> request -> reply;
  clock : nat;
  now : datetime;
  access_token : json;
  refresh_token : json;
  donor_id : json;
  coordinators : bool;            (* hass.data[DOMAIN] is not empty *)
  data : json;                    (* coordinator.data, JNull for None *)
  last_update_success : bool;
  events : list event             (* latest first *)
}.

Definition today (w : world) : date := date_of (now w).

Inductive outcome (A : Type) : Type :=
| Ret (a : A) (w : world)          (* the call returned [a] *)
| Exc (e : exn) (w : world)        (* the call raised [e] *)
| Running (w : world).             (* out of fuel: the call is still running *)
Arguments Ret {A} a w.
Arguments Exc {A} e w.
Arguments Running {A} w.

Definition M (A : Type) : Type := world -> outcome A.

Definition ret {A} (a : A) : M A := fun w => Ret a w.
Definition raise {A} (e : exn) : M A := fun w => Exc e w.
Definition running {A} : M A := fun w => Running w.

Definition bind {A B} (c : M A) (k : A -> M B) : M B :=
  fun w =>
    match c w with
    | Ret a w' => k a w'
    | Exc e w' => Exc e w'
    | Running w' => Running w'
    end.

(** [try: c except (classes) as e: h e]. *)
Definition try_catch {A} (c : M A) (handles : exn -> bool) (h : exn -> M A)
  : M A :=
  fun w =>
    match c w with
    | Exc e w' => if handles e then h e w' else Exc e w'
    | o => o
    end.

Definition lift {A} (r : res A) : M A :=
  match r with
  | Ok a => ret a
  | Raise e => raise e
  end.

Definition read {A} (f : world -> A) : M A := fun w => Ret (f w) w.
Definition update (f : world -> world) : M unit := fun w => Ret tt (f w).

Declare Scope m_scope.
Delimit Scope m_scope with m.
Notation "x <- c ;; k" := (bind c (fun x => k))
  (at level 61, c at next level, right associativity) : m_scope.
Notation "c ;; k" := (bind c (fun _ => k))
  (at level 61, right associativity) : m_scope.
Local Open Scope m_scope.

Definition set_access_token (v : json) (w : world) : world :=
  {| remote := remote w; clock := clock w; now := now w;
     access_token := v; refresh_token := refresh_token w;
     donor_id := donor_id w; coordinators := coordinators w;
     data := data w; last_update_success := last_update_success w;
     events := events w |}.

Definition set_refresh_token (v : json) (w : world) : world :=
  {| remote := remote w; clock := clock w; now := now w;
     access_token := access_token w; refresh_token := v;
     donor_id := donor_id w; coordinators := coordinators w;
     data := data w; last_update_success := last_update_success w;
     events := events w |}.

Definition set_donor_id (v : json) (w : world) : world :=
  {| remote := remote w; clock := clock w; now := now w;
     access_token := access_token w; refresh_token := refresh_token w;
     donor_id := v; coordinators := coordinators w;
     data := data w; last_update_success := last_update_success w;
     events := events w |}.

Definition set_data (v : json) (ok : bool) (w : world) : world :=
  {| remote := remote w; clock := clock w; now := now w;
     access_token := access_token w; refresh_token := refresh_token w;
     donor_id := donor_id w; coordinators := coordinators w;
     data := v; last_update_success := ok;
     events := events w |}.

Definition record_event (e : event) (w : world) : world :=
  {| remote := remote w; clock := clock w; now := now w;
     access_token := access_token w; refresh_token := refresh_token w;
     donor_id := donor_id w; coordinators := coordinators w;
     data := data w; last_update_success := last_update_success w;
     events := e :: events w |}.

Definition tick (w : world) : world :=
  {| remote := remote w; clock := S (clock w); now := now w;
     access_token := access_token w; refresh_token := refresh_token w;
     donor_id := donor_id w; coordinators := coordinators w;
     data := data w; last_update_success := last_update_success w;
     events := events w |}.

(** Awaiting one request: the service answers, the call is recorded. *)
Definition send (r : request) : M reply :=
  fun w => Ret (remote w (clock w) r) (tick (record_event (Sent r) w)).

Definition notify (notification_id : string) : M unit :=
  update (record_event (Notified notification_id)).

(** [await response.json()] of a response with a JSON content type: a
    text that is no JSON is a [JSONDecodeError]. *)
Definition json_of (body : option json) : M json :=
  match body with
  | Some v => ret v
  | None => raise JSONDecodeError
  end.

(** [await response.json()] of a response with another content type:
    [aiohttp] raises [ContentTypeError], a [ClientError] and no
    [ValueError], before it looks at the text. *)
Definition wrong_content_type : M json := raise ClientError.

(** Number of requests of a kind in the record of a run. *)
Definition is_login (e : event) : bool :=
  match e with Sent ReqLogin => true | _ => false end.

Definition is_data_request (e : event) : bool :=
  match e with
  | Sent ReqLogin => false
  | Sent _ => true
  | _ => false
  end.

Definition count_events (p : event -> bool) (w : world) : nat :=
  List.length (filter p (events w)).

End Net.

(* ===================================================================== *)
(** * [blood_donor/blood_donor.py]: API client and coordinator *)
(* ===================================================================== *)

Module Api.
Import Py Net.
Local Open Scope m_scope.

(** Awaiting the response: the two transport failures are raised here;
    a response is handed on as its status, its text and its
    [response.json()]. *)
Definition transport_failure {A} (r : reply) (k : Z -> string -> M json -> M A)
  : M A :=
  match r with
  | Response status text body => k status text (json_of body)
  | OtherContent status text => k status text wrong_content_type
  | TimedOut => raise TimeoutError
  | ConnectionFailed => raise ClientError
  end.

Definition is_TimeoutError (e : exn) : bool :=
  match e with TimeoutError => true | _ => false end.

Definition is_ClientError_or_ValueError (e : exn) : bool :=
  match e with ClientError => true | _ => is_ValueError e end.

Definition is_network_error (e : exn) : bool :=
  is_TimeoutError e || is_ClientError_or_ValueError e.

Definition any_Exception (e : exn) : bool := true.

(** [BloodDonorApi.login]: the inner handler guards [response.json()]
    only. *)
Definition login : M bool :=
  try_catch
    (r <- send ReqLogin ;;
     transport_failure r (fun status text response_json =>
       parsed <- try_catch (d <- response_json ;; ret (Some d))
                   is_ValueError (fun _ => ret None) ;;
       match parsed with
       | None => ret false
       | Some data =>
           if negb (status =? 200) then ret false
           else
             tok <- lift (get data "accessToken" JNull) ;;
             update (set_access_token tok) ;;
             rtk <- lift (get data "refreshToken" JNull) ;;
             update (set_refresh_token rtk) ;;
             has <- lift (contains data "accountDetails") ;;
             (if has : bool then
                details <- lift (get data "accountDetails" (JObj [])) ;;
                did <- lift (get details "donorID" JNull) ;;
                update (set_donor_id did)
              else
                lift (keys data) ;; ret tt) ;;
             ret true
       end))
    is_network_error (fun _ => ret false).

(** The token preview of the debug line of [_get_account_details]. *)
Definition token_preview (tok : json) : res unit :=
  if truthy tok then sliceable tok else Ok tt.

(** [BloodDonorApi._get_account_details]: a 401 answer logs in again and,
    when that succeeds, calls the method itself again. *)
Fixpoint _get_account_details (fuel : nat) : M json :=
  match fuel with
  | O => running
  | S fuel' =>
      try_catch
        (tok <- read access_token ;;
         lift (token_preview tok) ;;
         r <- send (ReqAccountDetails tok) ;;
         transport_failure r (fun status text response_json =>
           if status =? 401 then
             ok <- login ;;
             if ok : bool then _get_account_details fuel' else ret JNull
           else if negb (status =? 200) then ret JNull
           else
             try_catch
               (data <- response_json ;;
                has <- lift (contains data "appointments") ;;
                (if has : bool then
                   apts <- lift (get data "appointments" (JArr [])) ;;
                   lift (len apts) ;; ret tt
                 else
                   lift (keys data) ;; ret tt) ;;
                ret data)
               is_ValueError (fun _ => ret JNull)))
        is_network_error (fun _ => ret JNull)
  end.

(** [BloodDonorApi._get_awards]. *)
Fixpoint _get_awards (fuel : nat) : M json :=
  match fuel with
  | O => running
  | S fuel' =>
      try_catch
        (tok <- read access_token ;;
         r <- send (ReqAwards tok) ;;
         transport_failure r (fun status text response_json =>
           if status =? 401 then
             ok <- login ;;
             if ok : bool then _get_awards fuel' else ret JNull
           else if negb (status =? 200) then ret JNull
           else
             try_catch response_json is_ValueError (fun _ => ret JNull)))
        is_network_error (fun _ => ret JNull)
  end.

Definition update_failed (e : exn) : exn :=
  UpdateFailed ("Error communicating with API: " ++ exn_str e)%string.

(** [BloodDonorApi.get_data]. *)
Definition get_data (fuel : nat) : M json :=
  tok <- read access_token ;;
  logged_in <- (if truthy tok then ret true else login) ;;
  if negb logged_in then ret JNull
  else
    try_catch
      (account_data <- _get_account_details fuel ;;
       if negb (truthy account_data) then ret JNull
       else
         awards_data <- _get_awards fuel ;;
         if truthy awards_data
         then lift (setitem account_data "awards" awards_data)
         else ret account_data)
      any_Exception (fun e => raise (update_failed e)).

(** [BloodDonorDataUpdateCoordinator._async_update_data]. *)
Definition _async_update_data (fuel : nat) : M json :=
  try_catch
    (d <- get_data fuel ;;
     if negb (truthy d)
     then raise (UpdateFailed "Failed to fetch data from Blood Donor service")
     else
       lift (keys d) ;;
       lift (contains d "awards") ;;
       ret d)
    any_Exception (fun e => raise (update_failed e)).

(** Modelled from the framework: [DataUpdateCoordinator.async_refresh] of
    Home Assistant, which is not part of this repository.  It awaits
    [_async_update_data]; a result replaces [coordinator.data] and sets
    [last_update_success]; any exception is logged, leaves the data as it
    was and clears [last_update_success].  It never raises. *)
Definition async_refresh (fuel : nat) : M unit :=
  fun w =>
    match _async_update_data fuel w with
    | Ret d w' => Ret tt (record_event (Refreshed true) (set_data d true w'))
    | Exc _ w' =>
        Ret tt (record_event (Refreshed false) (set_data (data w') false w'))
    | Running w' => Running w'
    end.

End Api.

(* ===================================================================== *)
(** * [blood_donor/booking_helper.py]: the slot matching engine *)
(* ===================================================================== *)

Module BookingHelper.
Import Py Net Api.
Local Open Scope m_scope.
Local Open Scope res_scope.

(** Days of the week mapping (0=Monday, 6=Sunday). *)
Definition DAYS_OF_WEEK : list (string * Z) :=
  [("monday", 0); ("tuesday", 1); ("wednesday", 2); ("thursday", 3);
   ("friday", 4); ("saturday", 5); ("sunday", 6)].

Fixpoint day_index (k : string) (m : list (string * Z)) : option Z :=
  match m with
  | [] => None
  | (k', v) :: m' => if String.eqb k k' then Some v else day_index k m'
  end.

(** [DAYS_OF_WEEK[k]]. *)
Definition days_of_week_item (k : string) : res Z :=
  match day_index k DAYS_OF_WEEK with
  | Some i => Ok i
  | None => Raise KeyError
  end.

Definition validate_day_of_week (value : option string)
  : res (option string) :=
  match value with
  | None => Ok None
  | Some v =>
      let lowercase_value := str_lower v in
      match day_index lowercase_value DAYS_OF_WEEK with
      | Some _ => Ok (Some lowercase_value)
      | None => Raise Invalid
      end
  end.

Definition normalize_time (time_input : option string) : string :=
  match time_input with
  | None => "12:55"
  | Some t =>
      let t1 :=
        if (str_count colon t =? 2)%nat
        then str_join ":" (firstn 2 (str_split colon t))
        else t in
      let time_str := zfill 4 (str_remove colon t1) in
      (str_take 2 time_str ++ ":" ++ str_drop 2 time_str)%string
  end.

(** ** Results shown to the caller.  Texts that interpolate values keep
    the values. *)

Inductive text : Type :=
| Lit (s : string)
| NoSessionsFor (d : date)
| NoSlotsFor (d : date)
| NoSlotsWithin (tolerance : timedelta) (t : timedelta) (d : date)
| BookingReturnedStatus (status : json)
| FailedToBook (error : text)
| OfException (e : exn).                         (* str(error) *)

Record appointment_data : Type := {
  ap_date : date;
  ap_time : string;
  ap_venue_id : string;
  ap_procedure : json;
  ap_session_id : json;
  ap_session_date : json;
  ap_session_time : json;
  ap_time_difference : timedelta
}.

Record response_data : Type := {
  success : bool;
  message : text;
  appointment : option appointment_data;
  error : option text
}.

(** The initial [response_data] with its message and its error set. *)
Definition failure (m : text) (e : text) : response_data :=
  {| success := false; message := m; appointment := None; error := Some e |}.

(** ** The service call.  [tolerance_hours] is given as the duration
    [timedelta(hours=tolerance_hours)]. *)

Record call_data : Type := {
  venue_id : option string;
  target_date : option date;
  target_day_of_week : option string;
  target_time : option string;
  tolerance_hours : option timedelta;
  procedure_code : option string;
  auto_book : option bool;
  min_days_from_last_appointment : option Z
}.

Definition default {A} (o : option A) (d : A) : A :=
  match o with Some a => a | None => d end.

(** The validated data: [SERVICE_SCHEMA_BOOKING_HELPER] applied to the
    call with its defaults filled in. *)
Record validated : Type := {
  v_venue_id : string;
  v_target_date : option date;
  v_target_day_of_week : option string;
  v_target_time : string;
  v_tolerance_hours : timedelta;
  v_procedure_code : string;
  v_auto_book : bool;
  v_min_days_from_last_appointment : Z
}.

Definition SERVICE_SCHEMA_BOOKING_HELPER (call : call_data) : res validated :=
  match venue_id call with
  | None => Raise Invalid
  | Some venue =>
      let? day := validate_day_of_week (target_day_of_week call) in
      Ok {| v_venue_id := venue;
            v_target_date := target_date call;
            v_target_day_of_week := day;
            v_target_time := normalize_time (target_time call);
            v_tolerance_hours := default (tolerance_hours call) (2 * hour_us);
            v_procedure_code := default (procedure_code call) "";
            v_auto_book := default (auto_book call) false;
            v_min_days_from_last_appointment :=
              default (min_days_from_last_appointment call) 14 |}
  end.

(** ** [get_last_donation_date] *)

(** [apt["session"]["sessionDate"].split("T")[0]]. *)
Definition apt_date_str (apt : json) : res string :=
  let? session := getitem apt "session" in
  let? session_date := getitem session "sessionDate" in
  let? s := as_str session_date in
  Ok (before_T s).

Definition is_KeyError_or_IndexError (e : exn) : bool :=
  match e with KeyError | IndexError => true | _ => false end.

Definition is_parse_error (e : exn) : bool :=
  match e with KeyError | IndexError => true | _ => is_ValueError e end.

(** The logging loop: only a missing key is tolerated. *)
Fixpoint log_appointments (appointments : list json) : res unit :=
  match appointments with
  | [] => Ok tt
  | apt :: rest =>
      let? _ := rcatch (let? _ := apt_date_str apt in Ok tt)
                  is_KeyError_or_IndexError (fun _ => Ok tt) in
      log_appointments rest
  end.

(** The parsing loop: appointments whose date does not parse are
    skipped. *)
Fixpoint parse_appointment_dates (appointments : list json)
  : res (list date) :=
  match appointments with
  | [] => Ok []
  | apt :: rest =>
      let? here := rcatch (let? s := apt_date_str apt in
                           let? d := strptime_ymd s in Ok [d])
                     is_parse_error (fun _ => Ok []) in
      let? others := parse_appointment_dates rest in
      Ok (here ++ others)%list
  end.

(** [max(dates)] on a list that is not empty. *)
Definition max_date (first : date) (others : list date) : date :=
  fold_left Z.max others first.

Definition sixty_days_ago : M date :=
  d <- read today ;;
  lift (let? td := timedelta_days 60 in date_sub d td).

Definition get_last_donation_date (fuel : nat) : M (option date) :=
  d0 <- read data ;;
  ok0 <- read last_update_success ;;
  (if negb (truthy d0) || negb ok0 then async_refresh fuel else ret tt) ;;
  d <- read data ;;
  if negb (truthy d) then ret None
  else
    appointments <- lift (get d "appointments" (JArr [])) ;;
    if negb (truthy appointments) then
      last <- sixty_days_ago ;; ret (Some last)
    else
      lift (len appointments) ;;
      items <- lift (iter appointments) ;;
      lift (log_appointments items) ;;
      try_catch
        (dates <- lift (parse_appointment_dates items) ;;
         match dates with
         | [] => last <- sixty_days_ago ;; ret (Some last)
         | first :: others => ret (Some (max_date first others))
         end)
        any_Exception
        (fun _ => last <- sixty_days_ago ;; ret (Some last)).

(** ** The fetchers *)

Fixpoint get_sessions_for_date (fuel : nat) (venue : string) (day : date)
    (procedure : string) : M json :=
  match fuel with
  | O => running
  | S fuel' =>
      tok <- read access_token ;;
      r <- send (ReqSessions tok venue day procedure) ;;
      transport_failure r (fun status text response_json =>
        if status =? 401 then
          ok <- login ;;
          if ok : bool then get_sessions_for_date fuel' venue day procedure
          else ret (JArr [])
        else if negb (status =? 200) then ret (JArr [])
        else
          d <- response_json ;;
          lift (get d "sessions" (JArr [])))
  end.

Fixpoint get_slots_for_session (fuel : nat) (session_id session_date : json)
    (procedure : string) : M json :=
  match fuel with
  | O => running
  | S fuel' =>
      tok <- read access_token ;;
      r <- send (ReqSlots tok session_id session_date procedure) ;;
      transport_failure r (fun status text response_json =>
        if status =? 401 then
          ok <- login ;;
          if ok : bool
          then get_slots_for_session fuel' session_id session_date procedure
          else ret (JArr [])
        else if negb (status =? 200) then ret (JArr [])
        else
          d <- response_json ;;
          lift (get d "slots" (JArr [])))
  end.

(** The dict [book_appointment] returns. *)
Record booking_result : Type := {
  b_success : bool;
  b_data : option json;
  b_error : option text
}.

Definition booked (d : json) : booking_result :=
  {| b_success := true; b_data := Some d; b_error := None |}.

Definition not_booked (e : text) : booking_result :=
  {| b_success := false; b_data := None; b_error := Some e |}.

Definition json_eqb_str (v : json) (s : string) : bool :=
  match v with JStr t => String.eqb t s | _ => false end.

Definition is_JSONDecodeError (e : exn) : bool :=
  match e with JSONDecodeError => true | _ => false end.

Fixpoint book_appointment (fuel : nat) (session_id session_date session_time : json)
    (venue procedure : string) : M booking_result :=
  match fuel with
  | O => running
  | S fuel' =>
      try_catch
        (tok <- read access_token ;;
         r <- send (ReqBook tok session_id session_date session_time
                      venue procedure) ;;
         transport_failure r (fun status response_text response_json =>
           if status =? 401 then
             ok <- login ;;
             if ok : bool
             then book_appointment fuel' session_id session_date session_time
                    venue procedure
             else ret (not_booked (Lit "Authentication failed"))
           else if negb (status =? 200) then
             ret (not_booked (Lit response_text))
           else
             try_catch
               (d <- response_json ;;
                status_field <- lift (get d "status" (JStr "")) ;;
                if json_eqb_str status_field "B" then ret (booked d)
                else ret (not_booked (BookingReturnedStatus status_field)))
               is_JSONDecodeError
               (fun _ => ret (not_booked
                               (Lit "Failed to parse booking response")))))
        any_Exception (fun e => ret (not_booked (OfException e)))
  end.

(** ** The inline blocks of [async_booking_helper_service] *)

(** [parts = target_time_str.split(":")] and
    [time(int(parts[0]), int(parts[1]))]. *)
Definition item {A} (l : list A) (i : nat) : res A :=
  match nth_error l i with
  | Some a => Ok a
  | None => Raise IndexError
  end.

Definition parse_target_time (target_time_str : string) : res timedelta :=
  let parts := str_split colon target_time_str in
  let? p0 := item parts 0 in
  let? hour := int_of_str p0 in
  let? p1 := item parts 1 in
  let? minute := int_of_str p1 in
  make_time hour minute.

(** The earliest allowed date from the last donation date and today. *)
Definition earliest_allowed (last_donation_date : option date) (min_days : Z)
    (today : date) : res date :=
  let? earliest :=
    match last_donation_date with
    | Some last => let? td := timedelta_days min_days in date_add last td
    | None => Ok today
    end in
  Ok (Z.max earliest today).

(** Days to add to reach the target day of the week. *)
Definition days_to_add (current_day_idx target_day_idx : Z) : Z :=
  if current_day_idx =? target_day_idx then 0
  else
    let d := (target_day_idx - current_day_idx) mod 7 in
    if d <? 0 then d + 7 else d.

(** The next occurrence of the requested day from the earliest allowed
    date on.  [day_of_week] is the local variable of the source: [None]
    when no assignment to it was executed. *)
Definition next_occurrence (earliest_allowed_date : date)
    (day_of_week : option string) : res date :=
  let current_date := earliest_allowed_date in
  let current_day_idx := weekday current_date in
  let? name :=
    match day_of_week with
    | Some d => Ok d
    | None => Raise UnboundLocalError
    end in
  let? target_day_idx := days_of_week_item name in
  let? td := timedelta_days (days_to_add current_day_idx target_day_idx) in
  date_add current_date td.

Definition end_of_day : timedelta := ((23 * 60 + 59) * 60 + 59) * second_us.

(** The tolerance window, kept inside the target date. *)
Definition time_window (target_date : date) (target_time tolerance : timedelta)
  : res (datetime * datetime * datetime) :=
  let target_datetime := combine target_date target_time in
  let? start_datetime := datetime_sub target_datetime tolerance in
  let? end_datetime := datetime_add target_datetime tolerance in
  Ok (target_datetime,
      Z.max start_datetime (combine target_date 0),
      Z.min end_datetime (combine target_date end_of_day)).

(** Step 2: does the session have a period with available slots? *)
Fixpoint has_availability (periods : list json) : res bool :=
  match periods with
  | [] => Ok false
  | period :: rest =>
      let? v := get period "availableSlots" (JNum 0) in
      let? n := int_of v in
      if n >? 0 then Ok true else has_availability rest
  end.

Fixpoint available_sessions_of (sessions : list json)
  : res (list (json * json)) :=
  match sessions with
  | [] => Ok []
  | session :: rest =>
      let? session_id := get session "sessionId" (JStr "") in
      let? session_date := get session "sessionDate" (JStr "") in
      let? periods := get session "periods" (JArr []) in
      let? ps := iter periods in
      let? has := has_availability ps in
      let? others := available_sessions_of rest in
      Ok (if has : bool then (session_id, session_date) :: others else others)
  end.

(** Step 3: a slot kept for ranking, with the keys the source adds to
    it.  [c_time_difference] is [|slot_datetime - target_datetime|]; the
    source divides its seconds by 3600, which keeps the order and, on
    whole minutes within one day, the ties. *)
Record candidate : Type := {
  c_slot : json;
  c_session_id : json;
  c_session_date : json;
  c_slot_datetime : datetime;
  c_time_difference : timedelta
}.

Definition is_ValueError_or_TypeError (e : exn) : bool :=
  match e with TypeError => true | _ => is_ValueError e end.

(** [slot.get("time", "").replace("T", "")]. *)
Definition slot_time_str (slot : json) : res string :=
  let? t := get slot "time" (JStr "") in
  let? s := as_str t in
  Ok (str_remove "T"%char s).

Definition slot_candidate (target_date : date)
    (target_datetime start_datetime end_datetime : datetime)
    (session_id session_date : json) (slot : json) : res (option candidate) :=
  let? s := slot_time_str slot in
  if (4 <=? String.length s)%nat then
    rcatch
      (let? hour := int_of_str (str_take 2 s) in
       let? minute := int_of_str (str_drop 2 s) in
       let? slot_time := make_time hour minute in
       let slot_datetime := combine target_date slot_time in
       if (start_datetime <=? slot_datetime) && (slot_datetime <=? end_datetime)
       then Ok (Some {| c_slot := slot;
                        c_session_id := session_id;
                        c_session_date := session_date;
                        c_slot_datetime := slot_datetime;
                        c_time_difference :=
                          Z.abs (slot_datetime - target_datetime) |})
       else Ok None)
      is_ValueError_or_TypeError (fun _ => Ok None)
  else Ok None.

Fixpoint candidates_of (target_date : date)
    (target_datetime start_datetime end_datetime : datetime)
    (session_id session_date : json) (slots : list json)
  : res (list candidate) :=
  match slots with
  | [] => Ok []
  | slot :: rest =>
      let? c := slot_candidate target_date target_datetime start_datetime
                  end_datetime session_id session_date slot in
      let? cs := candidates_of target_date target_datetime start_datetime
                   end_datetime session_id session_date rest in
      Ok (match c with Some x => x :: cs | None => cs end)
  end.

(** What the first part of the service fixes before it searches. *)
Record plan : Type := {
  pl_venue_id : string;
  pl_target_time : timedelta;
  pl_tolerance_hours : timedelta;
  pl_procedure_code : string;
  pl_auto_book : bool;
  pl_last_donation_date : option date;
  pl_earliest_allowed_date : date;
  pl_target_date : date;
  pl_target_datetime : datetime;
  pl_start_datetime : datetime;
  pl_end_datetime : datetime
}.

Inductive prepared : Type :=
| Stop (r : response_data)          (* an early [return response_data] *)
| Search (p : plan).

Fixpoint collect_slots (fuel : nat) (p : plan) (sessions : list (json * json))
  : M (list candidate) :=
  match sessions with
  | [] => ret []
  | (session_id, session_date) :: rest =>
      slots <- get_slots_for_session fuel session_id session_date
                 (pl_procedure_code p) ;;
      here <- (if truthy slots then
                 items <- lift (iter slots) ;;
                 lift (candidates_of (pl_target_date p) (pl_target_datetime p)
                         (pl_start_datetime p) (pl_end_datetime p)
                         session_id session_date items)
               else ret []) ;;
      others <- collect_slots fuel p rest ;;
      ret (here ++ others)%list
  end.

(** Steps 4 and 5: [all_slots.sort(key=...)] and [all_slots[0]]. *)
Definition best_of (all_slots : list candidate) : res candidate :=
  item (sort_by c_time_difference all_slots) 0.

Definition truthy_str (o : option string) : bool :=
  match o with
  | Some s => negb (String.eqb s EmptyString)
  | None => false
  end.

Definition is_some {A} (o : option A) : bool :=
  match o with Some _ => true | None => false end.

Definition is_Invalid (e : exn) : bool :=
  match e with Invalid => true | _ => false end.

(** Lines 298 to 423: validation, the earliest allowed date, the target
    date and the tolerance window.  None of it is inside the [try] of the
    search.

    The handler of [vol.Invalid] (lines 323 to 332) calls
    [persistent_notification.async_create], the function of the imported
    module, with the message where its first parameter [hass] is and
    without its parameter [message]: the call raises [TypeError] before
    anything is posted, and the two statements after it, which would
    return a failure, are not reached.  The other notifications go
    through [hass.components.persistent_notification], which supplies
    [hass]. *)
Definition prepare (fuel : nat) (call : call_data) : M prepared :=
  match SERVICE_SCHEMA_BOOKING_HELPER call with
  | Raise e => if is_Invalid e then raise TypeError else raise e
  | Ok v =>
      if negb (is_some (v_target_date v)
               || truthy_str (v_target_day_of_week v)) then
        notify "blood_donor_booking_helper_missing_date" ;;
        ret (Stop (failure (Lit "")
               (Lit "Either target_date or target_day_of_week must be provided")))
      else
        has <- read coordinators ;;
        if negb has then
          ret (Stop (failure (Lit "")
                 (Lit "No Blood Donor coordinators found")))
        else
          target_time <- lift (parse_target_time (v_target_time v)) ;;
          day_of_week <-
            match v_target_date v with
            | Some _ => ret None
            | None =>
                match v_target_day_of_week v with
                | Some d => lift (days_of_week_item d) ;; ret (Some d)
                | None => raise KeyError
                end
            end ;;
          last_donation_date <- get_last_donation_date fuel ;;
          day <- read today ;;
          earliest <- lift (earliest_allowed last_donation_date
                              (v_min_days_from_last_appointment v) day) ;;
          target <- lift (next_occurrence earliest day_of_week) ;;
          win <- lift (time_window target target_time (v_tolerance_hours v)) ;;
          let '(target_datetime, start_datetime, end_datetime) := win in
          ret (Search
                 {| pl_venue_id := v_venue_id v;
                    pl_target_time := target_time;
                    pl_tolerance_hours := v_tolerance_hours v;
                    pl_procedure_code := v_procedure_code v;
                    pl_auto_book := v_auto_book v;
                    pl_last_donation_date := last_donation_date;
                    pl_earliest_allowed_date := earliest;
                    pl_target_date := target;
                    pl_target_datetime := target_datetime;
                    pl_start_datetime := start_datetime;
                    pl_end_datetime := end_datetime |})
  end.

Definition appointment_of (p : plan) (best_slot : candidate)
  : res appointment_data :=
  let? best_time_str := slot_time_str (c_slot best_slot) in
  let best_time_formatted :=
    if (4 <=? String.length best_time_str)%nat
    then (str_take 2 best_time_str ++ ":" ++ str_drop 2 best_time_str)%string
    else best_time_str in
  let? procedure := get (c_slot best_slot) "procedureDescription" (JStr "") in
  let? session_time := getitem (c_slot best_slot) "time" in
  Ok {| ap_date := pl_target_date p;
        ap_time := best_time_formatted;
        ap_venue_id := pl_venue_id p;
        ap_procedure := procedure;
        ap_session_id := c_session_id best_slot;
        ap_session_date := c_session_date best_slot;
        ap_session_time := session_time;
        ap_time_difference := c_time_difference best_slot |}.

(** Lines 425 to 661: the search, and the booking when asked for, inside
    [try: ... except Exception]. *)
Definition search (fuel : nat) (p : plan) : M response_data :=
  try_catch
    (tok <- read access_token ;;
     (if negb (truthy tok) then login ;; ret tt else ret tt) ;;
     tok' <- read access_token ;;
     if negb (truthy tok') then
       ret (failure (Lit "") (Lit "Failed to login to Blood Donor service"))
     else
       sessions <- get_sessions_for_date fuel (pl_venue_id p)
                     (pl_target_date p) (pl_procedure_code p) ;;
       if negb (truthy sessions) then
         notify "blood_donor_booking_helper" ;;
         ret (failure (NoSessionsFor (pl_target_date p))
                (Lit "No sessions available"))
       else
         items <- lift (iter sessions) ;;
         available_sessions <- lift (available_sessions_of items) ;;
         match available_sessions with
         | [] =>
             notify "blood_donor_booking_helper" ;;
             ret (failure (NoSlotsFor (pl_target_date p))
                    (Lit "No available slots"))
         | _ =>
             all_slots <- collect_slots fuel p available_sessions ;;
             match all_slots with
             | [] =>
                 notify "blood_donor_booking_helper" ;;
                 ret (failure
                        (NoSlotsWithin (pl_tolerance_hours p)
                           (pl_target_time p) (pl_target_date p))
                        (Lit "No slots within tolerance window"))
             | _ =>
                 best_slot <- lift (best_of all_slots) ;;
                 appointment_data <- lift (appointment_of p best_slot) ;;
                 if pl_auto_book p then
                   booking <- book_appointment fuel
                                (ap_session_id appointment_data)
                                (ap_session_date appointment_data)
                                (ap_session_time appointment_data)
                                (pl_venue_id p) (pl_procedure_code p) ;;
                   if b_success booking then
                     notify "blood_donor_booking_helper_success" ;;
                     async_refresh fuel ;;
                     ret {| success := true;
                            message := Lit "Appointment booked successfully";
                            appointment := Some appointment_data;
                            error := None |}
                   else
                     let error_message :=
                       default (b_error booking) (Lit "Unknown error") in
                     notify "blood_donor_booking_helper_failed" ;;
                     ret {| success := false;
                            message := FailedToBook error_message;
                            appointment := Some appointment_data;
                            error := Some error_message |}
                 else
                   notify "blood_donor_booking_helper_result" ;;
                   ret {| success := true;
                          message :=
                            Lit "Found best available appointment (not booked)";
                          appointment := Some appointment_data;
                          error := None |}
             end
         end)
    any_Exception
    (fun e =>
       notify "blood_donor_booking_helper_error" ;;
       ret (failure (Lit "") (OfException e))).

(** [async_booking_helper_service], the handler of the [booking_helper]
    service. *)
Definition async_booking_helper_service (fuel : nat) (call : call_data)
  : M response_data :=
  pr <- prepare fuel call ;;
  match pr with
  | Stop r => ret r
  | Search p => search fuel p
  end.

End BookingHelper.

(* ===================================================================== *)
(** * [custom_components/blood_donor]: the update scheduler *)
(* ===================================================================== *)

Module Scheduler.
Import Py.
Local Open Scope res_scope.

(** Routine updates every 24 hours, hourly when an appointment is near. *)
Definition STANDARD_SCAN_INTERVAL : timedelta := 24 * hour_us.
Definition APPOINTMENT_SCAN_INTERVAL : timedelta := 1 * hour_us.

(** The sort key of [utils.get_next_appointment]:
    [datetime.strptime(x["session"]["sessionDate"].split("T")[0], "%Y-%m-%d")]. *)
Definition session_date_of (x : json) : res date :=
  let? session := getitem x "session" in
  let? session_date := getitem session "sessionDate" in
  let? s := as_str session_date in
  strptime_ymd (before_T s).

Fixpoint with_keys (appointments : list json) : res (list (datetime * json)) :=
  match appointments with
  | [] => Ok []
  | x :: rest =>
      let? d := session_date_of x in
      let? others := with_keys rest in
      Ok ((combine d 0, x) :: others)
  end.

Definition is_parse_error (e : exn) : bool :=
  match e with KeyError | IndexError => true | _ => is_ValueError e end.

(** [utils.get_next_appointment]: the keys of all entries are computed,
    then the list is sorted by them and its first entry returned. *)
Definition get_next_appointment (appointments : json) : res (option json) :=
  if negb (truthy appointments) then Ok None
  else
    rcatch
      (let? items := iter appointments in
       let? keyed := with_keys items in
       match sort_by fst keyed with
       | first :: _ => Ok (Some (snd first))
       | [] => Raise IndexError
       end)
      is_parse_error (fun _ => Ok None).

(** The fields of the coordinator the scheduler writes, and the number of
    calls of [_schedule_refresh]. *)
Record coordinator : Type := {
  update_interval : timedelta;
  _dynamic_update_interval : timedelta;
  _next_appointment_datetime : option datetime;
  scheduled_refreshes : nat
}.

Definition _set_update_interval (interval : timedelta) (c : coordinator)
  : coordinator :=
  if negb (update_interval c =? interval) then
    {| update_interval := interval;
       _dynamic_update_interval := interval;
       _next_appointment_datetime := _next_appointment_datetime c;
       scheduled_refreshes := S (scheduled_refreshes c) |}
  else c.

Definition remember_appointment (dt : datetime) (c : coordinator)
  : coordinator :=
  {| update_interval := update_interval c;
     _dynamic_update_interval := _dynamic_update_interval c;
     _next_appointment_datetime := Some dt;
     scheduled_refreshes := scheduled_refreshes c |}.

Definition noon : timedelta := 12 * hour_us.

(** Date and datetime of the appointment: its time of day when the
    [time] field has at least four characters, noon otherwise. *)
Definition appointment_datetime_of (next_appointment : json)
  : res (date * datetime) :=
  let? appointment_date := session_date_of next_appointment in
  let? t := get next_appointment "time" (JStr "") in
  let? s := as_str t in
  let time_str := str_remove "T"%char s in
  if (4 <=? String.length time_str)%nat then
    let? hour := int_of_str (str_take 2 time_str) in
    let? minute := int_of_str (str_drop 2 time_str) in
    let? appointment_time := make_time hour minute in
    Ok (appointment_date, combine appointment_date appointment_time)
  else
    Ok (appointment_date, combine appointment_date noon).

(** The interval for an appointment.  The source compares
    [total_seconds() / 3600] with 1 and -8; on whole microseconds that is
    the comparison of the durations themselves. *)
Definition interval_for (appointment_date : date)
    (appointment_datetime now : datetime) : timedelta :=
  let today := date_of now in
  let time_until_appointment := appointment_datetime - now in
  if appointment_date =? today then
    if time_until_appointment >? 1 * hour_us then APPOINTMENT_SCAN_INTERVAL
    else if time_until_appointment >=? - (8 * hour_us)
         then APPOINTMENT_SCAN_INTERVAL
         else STANDARD_SCAN_INTERVAL
  else if time_until_appointment <=? 4 * hour_us
       then APPOINTMENT_SCAN_INTERVAL
       else STANDARD_SCAN_INTERVAL.

Definition is_ValueError_TypeError_KeyError (e : exn) : bool :=
  match e with TypeError | KeyError => true | _ => is_ValueError e end.

(** [_adjust_update_interval(data)] at wall-clock time [now].  Nothing is
    written to the coordinator before the last statement that can raise,
    so both handlers start from the coordinator as it was. *)
Definition _adjust_update_interval (data : json) (now : datetime)
    (c : coordinator) : coordinator :=
  let body : res coordinator :=
    let? appointments := get data "appointments" (JArr []) in
    if negb (truthy appointments) then
      Ok (_set_update_interval STANDARD_SCAN_INTERVAL c)
    else
      let? next_appointment := get_next_appointment appointments in
      match next_appointment with
      | None => Ok (_set_update_interval STANDARD_SCAN_INTERVAL c)
      | Some apt =>
          rcatch
            (let? when := appointment_datetime_of apt in
             let '(appointment_date, appointment_datetime) := when in
             Ok (_set_update_interval
                   (interval_for appointment_date appointment_datetime now)
                   (remember_appointment appointment_datetime c)))
            is_ValueError_TypeError_KeyError
            (fun _ => Ok (_set_update_interval STANDARD_SCAN_INTERVAL c))
      end in
  match body with
  | Ok c' => c'
  | Raise _ => _set_update_interval STANDARD_SCAN_INTERVAL c
  end.

End Scheduler.

(* ===================================================================== *)
(** * Vocabulary of the properties *)
(* ===================================================================== *)

Module Spec.
Import Py Net Api BookingHelper.

(** A text without colon, and a text that does not start with a sign. *)
Definition colon_free (s : string) : Prop := str_count colon s = 0%nat.

Definition unsigned (s : string) : Prop :=
  match s with
  | String a _ => is_sign a = false
  | EmptyString => True
  end.

(** The date [t] resolves the request for weekday [i] from the earliest
    allowed date [e]: the one date of the seven from [e] on that falls on
    that weekday. *)
Definition resolved (e i t : Z) : Prop :=
  e <= t <= e + 6
  /\ weekday t = i
  /\ (forall d, e <= d <= e + 6 -> weekday d = i -> d = t)
  /\ (weekday e = i -> t = e).

(** [x] is the entry of [l] with the least key, the first one in the
    order of [l] when several share it. *)
Definition first_minimum {A : Type} (key : A -> Z) (l : list A) (x : A)
  : Prop :=
  exists pre post,
    l = (pre ++ x :: post)%list
    /\ (forall y, In y pre -> key x < key y)
    /\ (forall y, In y post -> key x <= key y).

(** A list in ascending order of keys. *)
Fixpoint ascending {A : Type} (key : A -> Z) (l : list A) : Prop :=
  match l with
  | [] => True
  | x :: l' => (forall y, In y l' -> key x <= key y) /\ ascending key l'
  end.

(** The entries of [l] whose key is [k], in their order in [l]. *)
Definition with_key {A : Type} (key : A -> Z) (k : Z) (l : list A) : list A :=
  filter (fun x => key x =? k) l.

(** The decimal digit of [n] and the two-digit text of a number below
    one hundred. *)
Definition digit (n : Z) : ascii := ascii_of_nat (48 + Z.to_nat n).

Definition one_digit (n : Z) : string := String (digit n) EmptyString.

Definition two_digits (n : Z) : string :=
  String (digit (n / 10)) (String (digit (n mod 10)) EmptyString).

(** The numbers from 0 to [n - 1]. *)
Definition upto (n : nat) : list Z := map Z.of_nat (seq 0 n).

(** The slot matching in the words of the specification: "parse each
    slot's time-of-day; discard slots whose combined datetime falls
    outside the tolerance window"; "compute |slot_datetime -
    target_datetime| for every surviving slot". *)

(** The time of day a slot states: its [time] text without the letter
    T, read as two characters of hour followed by the minutes.  [None]
    is a text that states no time of day; a slot that raises here (it is
    no object, its [time] is no text, or a number in it does not fit a C
    [int]) cannot be read at all. *)
Definition stated_time (slot : json) : res (option timedelta) :=
  match slot with
  | JObj members =>
      match default (assoc "time" members) (JStr "") with
      | JStr text =>
          let digits := str_remove "T"%char text in
          if (4 <=? String.length digits)%nat then
            match int_of_str (str_take 2 digits),
                  int_of_str (str_drop 2 digits) with
            | Ok hour, Ok minute =>
                if negb (fits_int hour && fits_int minute)
                then Raise OverflowError
                else if (0 <=? hour) && (hour <=? 23)
                        && (0 <=? minute) && (minute <=? 59)
                     then Ok (Some ((hour * 60 + minute) * 60 * second_us))
                     else Ok None
            | _, _ => Ok None
            end
          else Ok None
      | _ => Raise AttributeError
      end
  | _ => Raise AttributeError
  end.

Definition legible (slot : json) : bool :=
  match stated_time slot with Ok _ => true | Raise _ => false end.

(** The slot [slot] of the session [session_id], at the time of day [t]
    of the target date, as it is ranked. *)
Definition placed (target_date : date) (target_datetime : datetime)
    (session_id session_date slot : json) (t : timedelta) : candidate :=
  {| c_slot := slot;
     c_session_id := session_id;
     c_session_date := session_date;
     c_slot_datetime := combine target_date t;
     c_time_difference := Z.abs (combine target_date t - target_datetime) |}.

(** The slots of one session that survive: those that state a time of
    day that lies in the tolerance window, in the order the session
    lists them. *)
Fixpoint surviving (target_date : date)
    (target_datetime start_datetime end_datetime : datetime)
    (session_id session_date : json) (slots : list json) : list candidate :=
  match slots with
  | [] => []
  | slot :: rest =>
      let others := surviving target_date target_datetime start_datetime
                      end_datetime session_id session_date rest in
      match stated_time slot with
      | Ok (Some t) =>
          if (start_datetime <=? combine target_date t)
             && (combine target_date t <=? end_datetime)
          then placed target_date target_datetime session_id session_date
                 slot t :: others
          else others
      | _ => others
      end
  end.

(** The surviving slots of the sessions [sessions], whose slot lists are
    [lists], session after session. *)
Fixpoint all_surviving (p : plan) (sessions : list (json * json))
    (lists : list (list json)) : list candidate :=
  match sessions, lists with
  | (session_id, session_date) :: sessions', slots :: lists' =>
      (surviving (pl_target_date p) (pl_target_datetime p)
         (pl_start_datetime p) (pl_end_datetime p)
         session_id session_date slots
       ++ all_surviving p sessions' lists')%list
  | _, _ => []
  end.

(** The queries of a search: the sessions of the venue on the target
    date, then the slots of each session with availability. *)
Definition slot_queries (p : plan) (tok : json) (sessions : list (json * json))
  : list request :=
  map (fun s => ReqSlots tok (fst s) (snd s) (pl_procedure_code p)) sessions.

Definition queries (p : plan) (tok : json) (sessions : list (json * json))
  : list request :=
  ReqSessions tok (pl_venue_id p) (pl_target_date p) (pl_procedure_code p)
  :: slot_queries p tok sessions.

(** From its [n]-th network call on, the service answers the slot
    queries of the sessions [sessions] with the slot lists [lists]: one
    answer with status 200 each. *)
Fixpoint slots_served (service : nat -> request -> reply) (n : nat)
    (p : plan) (tok : json) (sessions : list (json * json))
    (lists : list (list json)) : Prop :=
  match sessions, lists with
  | [], [] => True
  | (session_id, session_date) :: sessions', slots :: lists' =>
      (exists text d,
          service n (ReqSlots tok session_id session_date (pl_procedure_code p))
          = Response 200 text (Some d)
          /\ get d "slots" (JArr []) = Ok (JArr slots))
      /\ slots_served service (S n) p tok sessions' lists'
  | _, _ => False
  end.

(** The account context a run ends in. *)
Definition world_of {A} (o : outcome A) : world :=
  match o with
  | Ret _ w => w
  | Exc _ w => w
  | Running w => w
  end.

(** Between [w] and [w'] one login request was sent and only the token
    fields may differ otherwise. *)
Definition after_login (w w' : world) : Prop :=
  remote w' = remote w
  /\ clock w' = S (clock w)
  /\ events w' = Sent ReqLogin :: events w
  /\ now w' = now w
  /\ coordinators w' = coordinators w
  /\ data w' = data w
  /\ last_update_success w' = last_update_success w.

(** The world just after request [q] was sent from [w], and after the
    requests [qs] were sent one after the other. *)
Definition sent (q : request) (w : world) : world :=
  tick (record_event (Sent q) w).

Definition asked (qs : list request) (w : world) : world :=
  fold_left (fun w' q => sent q w') qs w.

(** A snapshot that [get_last_donation_date] refreshes before it reads
    it: there is none, or the last update failed. *)
Definition stale (w : world) : bool :=
  negb (truthy (data w)) || negb (last_update_success w).

(** From [w] to [w'] the cached snapshot was not touched and no refresh
    ran: only requests and notifications were recorded. *)
Definition is_refresh (e : event) : bool :=
  match e with Refreshed _ => true | _ => false end.

Definition cache_untouched (w w' : world) : Prop :=
  data w' = data w
  /\ last_update_success w' = last_update_success w
  /\ remote w' = remote w
  /\ now w' = now w
  /\ exists added,
       events w' = (added ++ events w)%list
       /\ forallb (fun e => negb (is_refresh e)) added = true.

(** A computation that never touches the cache. *)
Definition Quiet {A : Type} (c : M A) : Prop :=
  forall w, cache_untouched w (world_of (c w)).

(** A computation that leaves the account context as it is. *)
Definition Still {A : Type} (c : M A) : Prop :=
  forall w, world_of (c w) = w.

(** A computation that touches the cache only when it returns a result
    that satisfies [good]. *)
Definition QuietUnless {A : Type} (good : A -> Prop) (c : M A) : Prop :=
  forall w,
    match c w with
    | Ret r w' => cache_untouched w w' \/ good r
    | Exc _ w' => cache_untouched w w'
    | Running _ => True
    end.

(** A reply to a login request that makes [login] return [True] and
    store a token: status 200 and a JSON object with a text as
    [accessToken] whose [accountDetails], when present, is an object. *)
Definition accepted (r : reply) : Prop :=
  exists text members tok,
    r = Response 200 text (Some (JObj members))
    /\ assoc "accessToken" members = Some (JStr tok)
    /\ match assoc "accountDetails" members with
       | Some (JObj _) | None => True
       | Some _ => False
       end.

(** The [n]-th network call, when it is the request [req] with whatever
    token, is answered 401. *)
Definition answers_401 (w : world) (n : nat) (req : json -> request) : Prop :=
  forall tok, exists text body, remote w n (req tok) = Response 401 text body.

(** From [w] on, the service answers 401 to the next [k] requests [req]
    and accepts the login that follows each of them. *)
Definition retried (w : world) (k : nat) (req : json -> request) : Prop :=
  forall i, (i < k)%nat ->
    answers_401 w (clock w + 2 * i) req
    /\ accepted (remote w (clock w + 2 * i + 1) ReqLogin).

(** [w'] is [w] after [k] rounds of one request and one login. *)
Definition rounds (k : nat) (w w' : world) : Prop :=
  remote w' = remote w
  /\ clock w' = (clock w + 2 * k)%nat
  /\ count_events is_login w' = (count_events is_login w + k)%nat
  /\ count_events is_data_request w' = (count_events is_data_request w + k)%nat.

(** How an authenticated call [call] that sends [req] behaves on 401
    answers: every 401 followed by an accepted login is one more
    invocation of the call itself, any number of times; against a service
    that always answers so the call is still running when the fuel of the
    model is used up, whatever the fuel; it gives up with [failure] only
    when a login returns [False]. *)
Definition retries_per_401 {A : Type} (call : nat -> M A)
    (req : json -> request) (failure : A) : Prop :=
  (forall k f w,
      token_preview (access_token w) = Ok tt ->
      retried w k req ->
      exists w', call (k + f)%nat w = call f w' /\ rounds k w w')
  /\ (forall fuel w,
         token_preview (access_token w) = Ok tt ->
         (forall k, retried w k req) ->
         exists w', call fuel w = Running w' /\ rounds fuel w w')
  /\ (forall f w text body w2,
         token_preview (access_token w) = Ok tt ->
         remote w (clock w) (req (access_token w)) = Response 401 text body ->
         login (sent (req (access_token w)) w) = Ret false w2 ->
         call (S f) w = Ret failure w2).

(** The last appointment date in the words of the specification: the
    greatest of the appointment dates that parse, and sixty days before
    today when there is none. *)
Definition parsed_date (apt : json) : option date :=
  match rbind (apt_date_str apt) strptime_ymd with
  | Ok d => Some d
  | Raise _ => None
  end.

Fixpoint parseable_dates (appointments : list json) : list date :=
  match appointments with
  | [] => []
  | apt :: rest =>
      match parsed_date apt with
      | Some d => d :: parseable_dates rest
      | None => parseable_dates rest
      end
  end.

Definition last_per_spec (appointments : list json) (today : date) : date :=
  match parseable_dates appointments with
  | [] => today - 60
  | d :: ds => fold_left Z.max ds d
  end.

(** The entries of the [appointments] value of the snapshot; none when
    the value is falsy. *)
Definition listed (appointments : json) : list json :=
  if truthy appointments then
    match iter appointments with
    | Ok l => l
    | Raise _ => []
    end
  else [].

(** The date of an appointment the scheduler sorts by (0 when it does
    not parse). *)
Definition date_key (x : json) : Z :=
  match Scheduler.session_date_of x with
  | Ok d => d
  | Raise _ => 0
  end.

(** The scheduler in the words of the specification: the soonest
    appointment by date and time of day (noon when it has no time), and
    the table of intervals. *)
Fixpoint datetimes (appointments : list json) : list (date * datetime) :=
  match appointments with
  | [] => []
  | x :: rest =>
      match Scheduler.appointment_datetime_of x with
      | Ok when => when :: datetimes rest
      | Raise _ => datetimes rest
      end
  end.

Definition soonest (l : list (date * datetime)) : option (date * datetime) :=
  match sort_by snd l with
  | first :: _ => Some first
  | [] => None
  end.

Definition table_interval (d : date) (at_ now : datetime) : timedelta :=
  let until := at_ - now in
  if d =? date_of now then
    if until >? 1 * hour_us then Scheduler.APPOINTMENT_SCAN_INTERVAL
    else if until >=? - (8 * hour_us) then Scheduler.APPOINTMENT_SCAN_INTERVAL
    else Scheduler.STANDARD_SCAN_INTERVAL
  else if (0 <=? until) && (until <=? 4 * hour_us)
       then Scheduler.APPOINTMENT_SCAN_INTERVAL
       else Scheduler.STANDARD_SCAN_INTERVAL.

Definition interval_per_spec (appointments : list json) (now : datetime)
  : timedelta :=
  match soonest (datetimes appointments) with
  | Some (d, at_) => table_interval d at_ now
  | None => Scheduler.STANDARD_SCAN_INTERVAL
  end.

End Spec.

(* ===================================================================== *)
(** * Concrete runs used as examples *)
(* ===================================================================== *)

Module Scenario.
Import Py Net Api BookingHelper.

(** Friday 2024-03-01, ten in the morning. *)
Definition friday : date := 738946.
Definition morning : datetime := combine friday (10 * hour_us).

(** A logged-in account whose cached snapshot lists the given
    appointments. *)
Definition account (service : nat -> request -> reply) (appointments : json)
  : world :=
  {| remote := service; clock := 0; now := morning;
     access_token := JStr "token"; refresh_token := JNull;
     donor_id := JNull; coordinators := true;
     data := JObj [("appointments", appointments)];
     last_update_success := true; events := [] |}.

Definition unreachable (n : nat) (q : request) : reply := ConnectionFailed.

(** A request for the given date, with everything else left to its
    default. *)
Definition on_date (d : date) : call_data :=
  {| venue_id := Some "V1"; target_date := Some d;
     target_day_of_week := None; target_time := None;
     tolerance_hours := None; procedure_code := None; auto_book := None;
     min_days_from_last_appointment := None |}.

(** A request for the given day of the week. *)
Definition on_day (name : string) : call_data :=
  {| venue_id := Some "V1"; target_date := None;
     target_day_of_week := Some name; target_time := None;
     tolerance_hours := None; procedure_code := None; auto_book := None;
     min_days_from_last_appointment := None |}.

(** A request for Mondays at the given time. *)
Definition monday_at (t : string) : call_data :=
  {| venue_id := Some "V1"; target_date := None;
     target_day_of_week := Some "monday"; target_time := Some t;
     tolerance_hours := None; procedure_code := None; auto_book := None;
     min_days_from_last_appointment := None |}.

(** A venue with one session on that Friday, whose only period has
    [available] free slots; the session offers [slots]; a booking is
    answered with [booking_status]; logging in and refreshing work. *)
Definition slot_at (t : string) : json :=
  JObj [("time", JStr t); ("procedureDescription", JStr "Whole blood")].

Definition one_session (available : Z) : json :=
  JObj [("sessions",
         JArr [JObj [("sessionId", JStr "S1");
                     ("sessionDate", JStr "2024-03-01T00:00:00");
                     ("periods",
                      JArr [JObj [("availableSlots", JNum available)]])]])].

Definition clinic (available : Z) (slots : list json) (booking_status : string)
  (n : nat) (q : request) : reply :=
  match q with
  | ReqLogin => Response 200 "" (Some (JObj [("accessToken", JStr "fresh")]))
  | ReqAccountDetails _ =>
      Response 200 "" (Some (JObj [("appointments", JArr [])]))
  | ReqAwards _ => Response 200 "" (Some (JObj [("totalCredits", JNum 3)]))
  | ReqSessions _ _ _ _ => Response 200 "" (Some (one_session available))
  | ReqSlots _ _ _ _ => Response 200 "" (Some (JObj [("slots", JArr slots)]))
  | ReqBook _ _ _ _ _ _ =>
      Response 200 "" (Some (JObj [("status", JStr booking_status)]))
  end.

(** A plan for 12:00 on that Friday with two hours of tolerance. *)
Definition any_plan : plan :=
  {| pl_venue_id := "V1";
     pl_target_time := 12 * hour_us;
     pl_tolerance_hours := 2 * hour_us;
     pl_procedure_code := "";
     pl_auto_book := false;
     pl_last_donation_date := None;
     pl_earliest_allowed_date := friday;
     pl_target_date := friday;
     pl_target_datetime := combine friday (12 * hour_us);
     pl_start_datetime := combine friday (10 * hour_us);
     pl_end_datetime := combine friday (14 * hour_us) |}.

(** A request for Fridays that books what it finds. *)
Definition book_on_friday : call_data :=
  {| venue_id := Some "V1"; target_date := None;
     target_day_of_week := Some "friday"; target_time := None;
     tolerance_hours := None; procedure_code := None;
     auto_book := Some true; min_days_from_last_appointment := None |}.

(** A service that answers 401 to every request but accepts every
    login. *)
Definition fresh_token : reply :=
  Response 200 "" (Some (JObj [("accessToken", JStr "fresh")])).

Definition always_401 (n : nat) (q : request) : reply :=
  match q with
  | ReqLogin => fresh_token
  | _ => Response 401 "" None
  end.

(** A service that answers 401 to the first two requests for data and
    serves the third. *)
Definition twice_401 (n : nat) (q : request) : reply :=
  match q with
  | ReqLogin => fresh_token
  | _ =>
      if (n <? 4)%nat then Response 401 "" None
      else Response 200 "" (Some (JObj [("sessions", JArr [JStr "session"])]))
  end.

(** An account whose coordinator holds no snapshot. *)
Definition no_snapshot (service : nat -> request -> reply) : world :=
  {| remote := service; clock := 0; now := morning;
     access_token := JStr "token"; refresh_token := JNull;
     donor_id := JNull; coordinators := true;
     data := JNull; last_update_success := false; events := [] |}.

(** A request for Mondays with the given minimum gap. *)
Definition monday_after (min_days : Z) : call_data :=
  {| venue_id := Some "V1"; target_date := None;
     target_day_of_week := Some "monday"; target_time := None;
     tolerance_hours := None; procedure_code := None; auto_book := None;
     min_days_from_last_appointment := Some min_days |}.

(** Two appointments, as the account details list them. *)
Definition appointment_on (day : string) : json :=
  JObj [("session", JObj [("sessionDate", JStr day)])].

(** An appointment with a time of day, and a snapshot that lists
    appointments. *)
Definition appointment_at (day time : string) : json :=
  JObj [("session", JObj [("sessionDate", JStr day)]); ("time", JStr time)].

Definition snapshot (appointments : list json) : json :=
  JObj [("appointments", JArr appointments)].

(** A coordinator on the standard interval. *)
Definition routine : Scheduler.coordinator :=
  {| Scheduler.update_interval := Scheduler.STANDARD_SCAN_INTERVAL;
     Scheduler._dynamic_update_interval := Scheduler.STANDARD_SCAN_INTERVAL;
     Scheduler._next_appointment_datetime := None;
     Scheduler.scheduled_refreshes := 0 |}.

(** Ten in the evening of that Friday. *)
Definition evening : datetime := combine friday (22 * hour_us).

(** A service that answers 401 to every request and refuses the
    login. *)
Definition locked_out (n : nat) (q : request) : reply :=
  match q with
  | ReqLogin => Response 403 "forbidden" (Some (JObj []))
  | _ => Response 401 "" None
  end.

(** A service that does not answer in time. *)
Definition too_slow (n : nat) (q : request) : reply := TimedOut.

End Scenario.

(* ===================================================================== *)
(** * [blood_donor/config_flow.py]: the configuration flow *)
(* ===================================================================== *)

Module ConfigFlow.
Import Py Net Api.
Local Open Scope m_scope.

(** The input of the form, after [DATA_SCHEMA]: two texts. *)
Record user_input : Type := {
  username : string;
  password : string
}.

(** [async_create_entry(title=..., data=...)] and
    [async_show_form(..., errors=errors)]; [errors] is [errors["base"]]
    when it was set. *)
Inductive flow_result : Type :=
| CreateEntry (title : string) (data : user_input)
| ShowForm (errors : option string).

(** The flow logs in with an API client of its own, a new object: what
    [login] stores in it goes away with it, and the client of a
    configured account keeps what it holds. *)
Definition with_client_of (w0 w : world) : world :=
  set_donor_id (donor_id w0)
    (set_refresh_token (refresh_token w0)
       (set_access_token (access_token w0) w)).

Definition own_client {A} (c : M A) : M A :=
  fun w0 =>
    match c w0 with
    | Ret a w => Ret a (with_client_of w0 w)
    | Exc e w => Exc e (with_client_of w0 w)
    | Running w => Running (with_client_of w0 w)
    end.

(** [BloodDonorConfigFlow.async_step_user]. *)
Definition async_step_user (input : option user_input) : M flow_result :=
  match input with
  | None => ret (ShowForm None)
  | Some u =>
      own_client
        (try_catch
           (ok <- login ;;
            if ok : bool then ret (CreateEntry (username u) u)
            else ret (ShowForm (Some "invalid_auth")))
           any_Exception (fun _ => ret (ShowForm (Some "unknown"))))
  end.

End ConfigFlow.

(* ===================================================================== *)
(** * [custom_components/blood_donor/sensor.py]: the sensors *)
(* ===================================================================== *)

Module Sensor.
Import Py BookingHelper.
Local Open Scope res_scope.

(** [v[0]]: the first entry of a list, the first character of a text;
    an object has no key [0]. *)
Definition first_entry (v : json) : res json :=
  match v with
  | JArr l => item l 0
  | JStr (String a _) => Ok (JStr (String a EmptyString))
  | JStr EmptyString => Raise IndexError
  | JObj _ => Raise KeyError
  | _ => Raise TypeError
  end.

Module BloodDonorNextAppointmentSensor.

(** [state]: the date of the first entry of the appointments sorted by
    date.  The keys of all entries are computed before the list is
    sorted. *)
Definition state (data : json) : res (option date) :=
  if negb (truthy data) then Ok None
  else
    let? _ := keys data in
    let? appointments := get data "appointments" (JArr []) in
    let? _ := len appointments in
    if negb (truthy appointments) then Ok None
    else
      rcatch
        (let? items := iter appointments in
         let? keyed := Scheduler.with_keys items in
         match sort_by fst keyed with
         | first :: _ =>
             let next_appointment := snd first in
             let? appointment_date :=
               Scheduler.session_date_of next_appointment in
             Ok (Some appointment_date)
         | [] => Raise IndexError
         end)
        Scheduler.is_parse_error
        (fun _ =>
           let? _ := (if truthy appointments
                      then let? _ := first_entry appointments in Ok tt
                      else Ok tt) in
           Ok None).

End BloodDonorNextAppointmentSensor.

Module BloodDonorNextMilestoneSensor.

(** The keys of [sorted(awards_list, key=lambda x: x.get("creditCriteria", 0))]:
    all of them are read before any two are compared. *)
Fixpoint credit_keys (awards_list : list json) : res (list (json * json)) :=
  match awards_list with
  | [] => Ok []
  | x :: rest =>
      let? k := get x "creditCriteria" (JNum 0) in
      let? others := credit_keys rest in
      Ok ((k, x) :: others)
  end.

(** The loop over the sorted awards: the title of the first award that
    asks for more credits than the donor has. *)
Fixpoint first_above (total_credits : json) (sorted_awards : list (json * json))
  : res json :=
  match sorted_awards with
  | [] => Ok (JStr "All milestones achieved")
  | (_, award) :: rest =>
      let? credit_criteria := get award "creditCriteria" (JNum 0) in
      let? title := get award "title" (JStr "Unknown") in
      let? above := gt credit_criteria total_credits in
      if above : bool then Ok title
      else first_above total_credits rest
  end.

(** [state]; [None] is [JNull]. *)
Definition state (data : json) : res json :=
  if negb (truthy data) then Ok JNull
  else
    let? has := contains data "awards" in
    if negb has then Ok JNull
    else
      let? awards_data := get data "awards" (JObj []) in
      let? awards_list := get awards_data "awards" (JArr []) in
      let? total_credits := get awards_data "totalCredits" (JNum 0) in
      let? items := iter awards_list in
      let? keyed := credit_keys items in
      let? sorted_awards := sort_lt fst keyed in
      first_above total_credits sorted_awards.

End BloodDonorNextMilestoneSensor.

End Sensor.

(* ===================================================================== *)
(** * [custom_components/blood_donor/calendar.py]: the calendar *)
(* ===================================================================== *)

Module Calendar.
Import Py BookingHelper.
Local Open Scope res_scope.

(** [s.strip()], [sub in s] and [s.endswith(suffix)]. *)
Definition strip (s : string) : string := rstrip (lstrip s).

Definition has_text (sub s : string) : bool :=
  match index 0 sub s with Some _ => true | None => false end.

Definition endswith (suffix s : string) : bool :=
  (String.length suffix <=? String.length s)%nat
  && String.eqb (str_drop (String.length s - String.length suffix) s) suffix.

(** The identifier of an event: the text of the appointment's
    [appointmentId], or the session, date and time joined by
    underscores. *)
Inductive uid_text : Type :=
| OfAppointment (appointment_id : json)
| OfSession (session_id : json) (date_str time_str : string).

(** [f"Procedure: {procedure}\nVenue: {venue}\nAddress: {address}"]. *)
Record description_text : Type := {
  d_procedure : string;
  d_venue : json;
  d_address : string
}.

(** [CalendarEvent]; [start] and [end] are local wall-clock times
    ([dt_util.as_local] attaches the time zone of the installation to
    the naive start). *)
Record CalendarEvent : Type := {
  summary : string;
  start : datetime;
  end_ : datetime;
  description : description_text;
  location : json;
  uid : uid_text
}.

Definition minutes (n : Z) : timedelta := n * 60 * second_us.

(** [[line.strip() for line in address_lines]]. *)
Fixpoint stripped (lines : list json) : res (list string) :=
  match lines with
  | [] => Ok []
  | line :: rest =>
      let? s := as_str line in
      let? others := stripped rest in
      Ok (strip s :: others)
  end.

Definition is_KeyError_ValueError_TypeError (e : exn) : bool :=
  match e with KeyError | TypeError => true | _ => is_ValueError e end.

(** [BloodDonorCalendar._appointment_to_event]. *)
Definition _appointment_to_event (appointment : json)
  : res (option CalendarEvent) :=
  rcatch
    (let? session := getitem appointment "session" in
     let? session_date := getitem session "sessionDate" in
     let? sd := as_str session_date in
     let appointment_date_str := before_T sd in
     let? appointment_date := strptime_ymd appointment_date_str in
     let? t := get appointment "time" (JStr "") in
     let? ts := as_str t in
     let time_str := str_remove "T"%char ts in
     let? start_dt :=
       (if (4 <=? String.length time_str)%nat then
          let? hour := int_of_str (str_take 2 time_str) in
          let? minute := int_of_str (str_drop 2 time_str) in
          let? tm := make_time hour minute in
          Ok (combine appointment_date tm)
        else
          Ok (combine appointment_date Scheduler.noon)) in
     let? p := get appointment "procedureDescription" (JStr "Blood Donation") in
     let procedure :=
       match p with
       | JStr s => if String.eqb s EmptyString then "Blood Donation" else s
       | _ => "Blood Donation"
       end in
     let low := str_lower procedure in
     let? end_dt :=
       datetime_add start_dt
         (if has_text "platelet" low || has_text "plt" low then minutes 90
          else if has_text "plasma" low || has_text "pls" low then minutes 60
          else minutes 45) in
     let? venue_obj := getitem session "venue" in
     let? venue := getitem venue_obj "venueName" in
     let? address_obj := getitem venue_obj "address" in
     let? address_lines := getitem address_obj "lines" in
     let? pc := getitem address_obj "postcode" in
     let? pcs := as_str pc in
     let postcode := strip pcs in
     let? lines := iter address_lines in
     let? parts := stripped lines in
     let address := (str_join ", " parts ++ ", " ++ postcode)%string in
     let? aid := get appointment "appointmentId" (JStr "") in
     let? uid :=
       (if json_eqb_str aid ""
        then
          let? session_id := get session "sessionId" (JStr "") in
          Ok (OfSession session_id appointment_date_str time_str)
        else Ok (OfAppointment aid)) in
     let summary :=
       if endswith "donation" low then procedure
       else (procedure ++ " Donation")%string in
     Ok (Some {| summary := summary;
                 start := start_dt;
                 end_ := end_dt;
                 description := {| d_procedure := procedure;
                                   d_venue := venue;
                                   d_address := address |};
                 location := venue;
                 uid := uid |}))
    is_KeyError_ValueError_TypeError (fun _ => Ok None).

(** [BloodDonorCalendar.event]: the event of the next appointment. *)
Definition event (data : json) : res (option CalendarEvent) :=
  if negb (truthy data) then Ok None
  else
    let? appointments := get data "appointments" (JArr []) in
    if negb (truthy appointments) then Ok None
    else
      rcatch
        (let? next_appointment := Scheduler.get_next_appointment appointments in
         match next_appointment with
         | None => Ok None
         | Some apt =>
             if negb (truthy apt) then Ok None
             else _appointment_to_event apt
         end)
        Scheduler.is_parse_error (fun _ => Ok None).

End Calendar.

(* ===================================================================== *)
(** * [blood_donor/services.py]: the [book_appointment] service *)
(* ===================================================================== *)

Module Services.
Import Py Net Api BookingHelper.
Local Open Scope m_scope.
Local Open Scope res_scope.

(** The data of a call, after [SERVICE_SCHEMA_BOOK_APPOINTMENT]. *)
Record book_call : Type := {
  bc_session_id : string;
  bc_session_date : string;
  bc_session_time : string;
  bc_venue_id : string;
  bc_procedure_code : option string
}.

(** The request of a call sent with the token [tok]. *)
Definition booking_request (call : book_call) (tok : json) : request :=
  ReqBook tok (JStr (bc_session_id call)) (JStr (bc_session_date call))
    (JStr (bc_session_time call)) (bc_venue_id call)
    (default (bc_procedure_code call) "").

(** The details read from the answer for the message: the time, the
    procedure and the name of the venue. *)
Definition booked_details (data : json) : res unit :=
  let? t := get data "time" (JStr "") in
  let? _ := as_str t in
  let? _ := get data "procedureDescription" (JStr "") in
  let? session := get data "session" (JObj []) in
  let? venue := get session "venue" (JObj []) in
  let? _ := get venue "venueName" (JStr "") in
  Ok tt.

(** [async_book_appointment_service]: a 401 answer logs in again and,
    when that succeeds, calls the service itself again. *)
Fixpoint async_book_appointment_service (fuel : nat) (call : book_call)
  : M unit :=
  match fuel with
  | O => running
  | S fuel' =>
      has <- read coordinators ;;
      if negb has then ret tt
      else
        try_catch
          (tok <- read access_token ;;
           (if negb (truthy tok) then login ;; ret tt else ret tt) ;;
           tok' <- read access_token ;;
           if negb (truthy tok') then ret tt
           else
             r <- send (booking_request call tok') ;;
             transport_failure r (fun status response_text response_json =>
               if status =? 401 then
                 ok <- login ;;
                 if ok : bool
                 then async_book_appointment_service fuel' call
                 else ret tt
               else if negb (status =? 200) then
                 notify "blood_donor_booking_failed"
               else
                 try_catch
                   (data <- response_json ;;
                    status_field <- lift (get data "status" (JStr "")) ;;
                    lift (booked_details data) ;;
                    if json_eqb_str status_field "B" then
                      notify "blood_donor_booking_success" ;;
                      async_refresh fuel
                    else
                      notify "blood_donor_booking_status")
                   is_JSONDecodeError
                   (fun _ => notify "blood_donor_booking_error")))
          any_Exception (fun _ => notify "blood_donor_booking_error")
  end.

End Services.

(* ===================================================================== *)
(** * Vocabulary of the further properties *)
(* ===================================================================== *)

Module Notions.
Import Py Net Api BookingHelper Spec.

(** ** Times of day as texts *)

(** The ways of writing the time [h]:[m]: with or without colon, with
    seconds, and with a one-digit hour. *)
Definition spellings (h m : Z) : list string :=
  [ (two_digits h ++ ":" ++ two_digits m)%string;
    (two_digits h ++ two_digits m)%string;
    (two_digits h ++ ":" ++ two_digits m ++ ":00")%string ]
  ++ (if h <? 10
      then [ (one_digit h ++ ":" ++ two_digits m)%string;
             (one_digit h ++ two_digits m)%string ]
      else []).

(** The service reads the text [s] as the time [h]:[m]. *)
Definition reads_as (h m : Z) (s : string) : bool :=
  match parse_target_time (normalize_time (Some s)), make_time h m with
  | Ok t, Ok t' => (t =? t') && (t =? (h * 60 + m) * 60 * second_us)
  | _, _ => false
  end.

(** ** Responses and notifications of the booking helper *)

(** A response whose fields agree: a success carries an appointment and
    no error, a failure carries an error. *)
Definition consistent (r : response_data) : bool :=
  if success r
  then is_some (appointment r) && negb (is_some (error r))
  else is_some (error r).

(** Every result the computation can return satisfies [P]. *)
Definition Returns {A : Type} (P : A -> Prop) (c : M A) : Prop :=
  forall w a w', c w = Ret a w' -> P a.

(** The number of notifications posted so far. *)
Definition is_notice (e : event) : bool :=
  match e with Notified _ => true | _ => false end.

Definition notices (w : world) : nat := count_events is_notice w.

(** A computation that adds no event of the kind [p] to the record. *)
Definition Unseen {A : Type} (p : event -> bool) (c : M A) : Prop :=
  forall w, count_events p (world_of (c w)) = count_events p w.

(** A computation that posts no notification. *)
Definition Silent {A : Type} (c : M A) : Prop := Unseen is_notice c.

(** The number of booking requests sent so far. *)
Definition is_booking (e : event) : bool :=
  match e with Sent (ReqBook _ _ _ _ _ _) => true | _ => false end.

Definition bookings (w : world) : nat := count_events is_booking w.

(** A computation that posts at most one notification, and none when
    it raises; [P posted a] relates the result it returns to whether it
    posted one. *)
Definition Announces {A : Type} (P : bool -> A -> Prop) (c : M A) : Prop :=
  forall w,
    match c w with
    | Ret a w' =>
        (notices w' = S (notices w) /\ P true a)
        \/ (notices w' = notices w /\ P false a)
    | Exc _ w' => notices w' = notices w
    | Running w' => (notices w <= notices w' <= notices w + 1)%nat
    end.

(** The two failures of the booking helper that are returned without a
    notification. *)
Definition returned_silently (r : response_data) : Prop :=
  error r = Some (Lit "No Blood Donor coordinators found")
  \/ error r = Some (Lit "Failed to login to Blood Donor service").

(** ** The API client *)

(** A reply to the login request that [login] answers with [False]: no
    answer, a body that is no JSON or is not declared as JSON, or a
    status other than 200. *)
Definition refused (r : reply) : bool :=
  match r with
  | Response status _ (Some _) => negb (status =? 200)
  | _ => true
  end.

(** The account context after [login] has accepted an answer with the
    members [m]. *)
Definition stored (m : list (string * json)) (w : world) : world :=
  let w1 := set_refresh_token (default (assoc "refreshToken" m) JNull)
              (set_access_token (default (assoc "accessToken" m) JNull)
                 (sent ReqLogin w)) in
  match assoc "accountDetails" m with
  | Some (JObj details) =>
      set_donor_id (default (assoc "donorID" details) JNull) w1
  | _ => w1
  end.

(** A reply to a request for data that the API client answers with
    [None] at once: no answer, a status other than 200 and 401, or a
    body that is no JSON or is not declared as JSON. *)
Definition unusable (r : reply) : bool :=
  match r with
  | Response status _ body =>
      negb (status =? 401)
      && (negb (status =? 200)
          || match body with None => true | Some _ => false end)
  | OtherContent status _ => negb (status =? 401)
  | _ => true
  end.

(** ** Awards *)

(** The credits an award asks for and its title, as the milestone sensor
    reads them. *)
Definition asks (award : json) : json :=
  match get award "creditCriteria" (JNum 0) with
  | Ok v => v
  | Raise _ => JNull
  end.

Definition title_of (award : json) : json :=
  match get award "title" (JStr "Unknown") with
  | Ok t => t
  | Raise _ => JNull
  end.

(** Python's order on two values that it orders: [a] is less than [b],
    and [a] is not greater than [b]. *)
Definition less (a b : json) : Prop := lt a b = Ok true.
Definition at_most (a b : json) : Prop := lt b a = Ok false.

(** The awards that ask for more than [total] credits, in their order. *)
Definition exceeds (total : json) (k : json) : bool :=
  match gt k total with
  | Ok true => true
  | _ => false
  end.

Definition above (total : json) (awards : list json) : list json :=
  filter (fun a => exceeds total (asks a)) awards.

(** [x] is the entry of [l] with the least key in that order, the first
    one in the order of [l] when several share it. *)
Definition first_least {A : Type} (key : A -> json) (l : list A) (x : A)
  : Prop :=
  exists pre post,
    l = (pre ++ x :: post)%list
    /\ (forall y, In y pre -> less (key x) (key y))
    /\ (forall y, In y post -> at_most (key x) (key y)).

(** ** The calendar *)

(** The length of a donation in the calendar, from the text of the
    procedure. *)
Definition duration_of (procedure : string) : timedelta :=
  let low := str_lower procedure in
  if Calendar.has_text "platelet" low || Calendar.has_text "plt" low
  then Calendar.minutes 90
  else if Calendar.has_text "plasma" low || Calendar.has_text "pls" low
       then Calendar.minutes 60
       else Calendar.minutes 45.

(** ** The [book_appointment] service *)

(** From [w] to [w'] the service got the answer 200 with status "B" to
    its booking request, posted the success notification and refreshed
    the coordinator, and nothing else touched the cached snapshot. *)
Definition booked_then_refreshed (call : Services.book_call) (w w' : world)
  : Prop :=
  exists w0 text d f,
    cache_untouched w w0
    /\ remote w0 (clock w0)
         (Services.booking_request call (access_token w0))
       = Response 200 text (Some d)
    /\ get d "status" (JStr "") = Ok (JStr "B")
    /\ async_refresh f
         (record_event (Notified "blood_donor_booking_success")
            (sent (Services.booking_request call (access_token w0)) w0))
       = Ret tt w'.

Definition RefreshesOnlyBooked (call : Services.book_call) (c : M unit)
  : Prop :=
  forall w,
    match c w with
    | Ret _ w' => cache_untouched w w' \/ booked_then_refreshed call w w'
    | Exc _ w' => cache_untouched w w'
    | Running _ => True
    end.

End Notions.

(* ===================================================================== *)
(** * Concrete data for the further properties *)
(* ===================================================================== *)

Module Cases.
Import Py Net Api BookingHelper Scenario.

(** Half past eleven in the evening. *)
Definition late_evening : timedelta := 23 * hour_us + 30 * 60 * second_us.

(** An appointment whose session date is a number, not a text. *)
Definition numbered_date : json :=
  JObj [("session", JObj [("sessionDate", JNum 20240301)])].

(** A snapshot with awards, and an award; the counts of credits are
    numbers or, as some services send them, texts. *)
Definition award (title : string) (credits : Z) : json :=
  JObj [("title", JStr title); ("creditCriteria", JNum credits)].

Definition with_awards (credits : Z) (awards : list json) : json :=
  JObj [("awards",
         JObj [("totalCredits", JNum credits); ("awards", JArr awards)])].

Definition text_award (title credits : string) : json :=
  JObj [("title", JStr title); ("creditCriteria", JStr credits)].

Definition with_text_awards (credits : string) (awards : list json) : json :=
  JObj [("awards",
         JObj [("totalCredits", JStr credits); ("awards", JArr awards)])].

(** A platelet donation on the ninth of March at half past two, as the
    account details list it. *)
Definition platelets : json :=
  JObj [("session",
         JObj [("sessionDate", JStr "2024-03-09T00:00:00");
               ("sessionId", JStr "S9");
               ("venue",
                JObj [("venueName", JStr "Town Hall");
                      ("address",
                       JObj [("lines", JArr [JStr " 1 High Street "]);
                             ("postcode", JStr "AB1 2CD ")])])]);
        ("time", JStr "T1430");
        ("procedureDescription", JStr "Platelet")].

End Cases.

(* ===================================================================== *)
(** * Properties *)
(* ===================================================================== *)

Import Py Net Api BookingHelper Spec Scenario.

(** ** [normalize_time] *)

Section NormalizeTime.

Lemma colon_free_cons a s :
  colon_free (String a s) -> Ascii.eqb a colon = false /\ colon_free s.
Proof.
  unfold colon_free; simpl.
  destruct (Ascii.eqb a colon); simpl; intros H; [discriminate | auto].
Qed.

Lemma str_count_app c a b :
  str_count c (a ++ b) = (str_count c a + str_count c b)%nat.
Proof.
  induction a as [| x a IH]; simpl; [reflexivity |].
  rewrite IH. destruct (Ascii.eqb x c); simpl; lia.
Qed.

Lemma str_split_colon_free a :
  colon_free a -> str_split colon a = [a].
Proof.
  induction a as [| x a IH]; intros H; [reflexivity |].
  apply colon_free_cons in H as [Hx Ha].
  simpl. rewrite Hx, (IH Ha). reflexivity.
Qed.

Lemma str_split_field a rest :
  colon_free a ->
  str_split colon (a ++ String colon rest) = a :: str_split colon rest.
Proof.
  induction a as [| x a IH]; intros H.
  - reflexivity.
  - apply colon_free_cons in H as [Hx Ha].
    simpl. rewrite Hx, (IH Ha). reflexivity.
Qed.

Lemma strip_seconds a b c :
  colon_free a -> colon_free b -> colon_free c ->
  normalize_time (Some (a ++ ":" ++ b ++ ":" ++ c)%string)
  = normalize_time (Some (a ++ ":" ++ b)%string).
Proof.
  intros Ha Hb Hc. unfold normalize_time.
  assert (H2 : str_count colon (a ++ ":" ++ b ++ ":" ++ c) = 2%nat).
  { rewrite !str_count_app. unfold colon_free in *.
    rewrite Ha, Hb, Hc. reflexivity. }
  assert (H1 : str_count colon (a ++ ":" ++ b) = 1%nat).
  { rewrite !str_count_app. unfold colon_free in *.
    rewrite Ha, Hb. reflexivity. }
  rewrite H2, H1. simpl Nat.eqb. cbv iota.
  change (a ++ ":" ++ b ++ ":" ++ c)%string
    with (a ++ String colon (b ++ String colon c))%string.
  rewrite (str_split_field a _ Ha), (str_split_field b _ Hb).
  reflexivity.
Qed.

Lemma zfill_length n s : (n <= String.length (zfill n s))%nat.
Proof.
  unfold zfill. destruct (Nat.leb_spec n (String.length s)) as [H | H];
    [exact H |].
  assert (Hrep : forall k, String.length (str_repeat zero_char k) = k)
    by (induction k; simpl; congruence).
  assert (Happ : forall x y,
             String.length (x ++ y) = (String.length x + String.length y)%nat)
    by (induction x; simpl; intros; [reflexivity | rewrite IHx; reflexivity]).
  destruct s as [| a s']; [rewrite Hrep; simpl; lia |].
  destruct (is_sign a); simpl in *; rewrite Happ, Hrep; simpl; lia.
Qed.

Lemma str_remove_colon_free s :
  colon_free s -> str_remove colon s = s.
Proof.
  induction s as [| x s IH]; intros H; [reflexivity |].
  apply colon_free_cons in H as [Hx Hs].
  simpl. rewrite Hx, (IH Hs). reflexivity.
Qed.

Lemma short_input s :
  colon_free s -> unsigned s ->
  (1 <= String.length s <= 2)%nat ->
  normalize_time (Some s)
  = ("00:" ++ str_repeat zero_char (2 - String.length s) ++ s)%string.
Proof.
  intros Hc Hs Hl.
  unfold normalize_time.
  rewrite Hc. simpl Nat.eqb. cbv iota.
  rewrite (str_remove_colon_free s Hc).
  destruct s as [| a [| b [| c s]]]; simpl in Hl; try lia;
    simpl in Hs; unfold zfill; simpl String.length; simpl Nat.leb;
    cbv iota; rewrite Hs; reflexivity.
Qed.

End NormalizeTime.

(** C10.  [normalize_time] is a total function from an optional string to
    a string (every operation in it is defined on all strings, so it
    never raises).  [None] gives "12:55".  A third, seconds, field is
    dropped; otherwise the colons are removed, the rest is zero-filled to
    at least four characters by [zfill] and a colon is put after its
    first two characters.  So an unsigned input of one or two characters
    is read as minutes past midnight ("9" gives "00:09", "45" gives
    "00:45"), and nothing checks the ranges ("99:99" is returned as it
    is). *)
Theorem normalize_time_behaviour :
  normalize_time None = "12:55"
  /\ (forall a b c, colon_free a -> colon_free b -> colon_free c ->
        normalize_time (Some (a ++ ":" ++ b ++ ":" ++ c)%string)
        = normalize_time (Some (a ++ ":" ++ b)%string))
  /\ (forall s, str_count colon s <> 2%nat ->
        let z := zfill 4 (str_remove colon s) in
        normalize_time (Some s) = (str_take 2 z ++ ":" ++ str_drop 2 z)%string
        /\ (4 <= String.length z)%nat)
  /\ (forall s, colon_free s -> unsigned s ->
        (1 <= String.length s <= 2)%nat ->
        normalize_time (Some s)
        = ("00:" ++ str_repeat zero_char (2 - String.length s) ++ s)%string)
  /\ normalize_time (Some "9") = "00:09"
  /\ normalize_time (Some "45") = "00:45"
  /\ normalize_time (Some "99:99") = "99:99"
  /\ normalize_time (Some "12:55:00") = "12:55".
Proof.
  split; [reflexivity |].
  split; [exact strip_seconds |].
  split.
  { intros s Hs z. split; [| apply zfill_length].
    unfold normalize_time. apply Nat.eqb_neq in Hs. rewrite Hs. reflexivity. }
  split; [exact short_input |].
  repeat split; reflexivity.
Qed.

Lemma normalize_time_behaviour_witness :
  normalize_time (Some ("7" ++ ":" ++ "05" ++ ":" ++ "30")%string) = "07:05"
  /\ normalize_time (Some "730") = "07:30"
  /\ normalize_time (Some "5") = "00:05".
Proof.
  destruct normalize_time_behaviour as (_ & Hsec & Hfill & Hshort & _).
  split; [| split].
  - rewrite (Hsec "7" "05" "30"); reflexivity.
  - refine (eq_trans (proj1 (Hfill "730" _)) _);
      [simpl; discriminate | reflexivity].
  - rewrite (Hshort "5"); [reflexivity | reflexivity | reflexivity | simpl; lia].
Defined.

(** ** Reasoning about runs *)

Section Runs.
Context {A B : Type}.

Lemma bind_Ret_inv (c : M A) (k : A -> M B) w b w' :
  bind c k w = Ret b w' ->
  exists a w1, c w = Ret a w1 /\ k a w1 = Ret b w'.
Proof.
  unfold bind. destruct (c w) as [a w1 | e w1 | w1]; intros H;
    try discriminate. eauto.
Qed.

Lemma bind_Ret (c : M A) (k : A -> M B) w a w1 :
  c w = Ret a w1 -> bind c k w = k a w1.
Proof. unfold bind. intros ->. reflexivity. Qed.

Lemma bind_Exc (c : M A) (k : A -> M B) w e w1 :
  c w = Exc e w1 -> bind c k w = Exc e w1.
Proof. unfold bind. intros ->. reflexivity. Qed.

Lemma bind_Running (c : M A) (k : A -> M B) w w1 :
  c w = Running w1 -> bind c k w = Running w1.
Proof. unfold bind. intros ->. reflexivity. Qed.

Lemma lift_Ret_inv (r : res A) w a w' :
  lift r w = Ret a w' -> r = Ok a /\ w' = w.
Proof.
  destruct r; simpl; unfold ret, raise; intros H; inversion H; auto.
Qed.

Lemma read_Ret_inv (f : world -> A) w a w' :
  read f w = Ret a w' -> a = f w /\ w' = w.
Proof. unfold read. intros H; inversion H; auto. Qed.

Lemma ret_Ret_inv (x : A) w a w' :
  ret x w = Ret a w' -> a = x /\ w' = w.
Proof. unfold ret. intros H; inversion H; auto. Qed.
End Runs.

(** Splits a run of sequenced calls that returned into its steps; the
    four inversion lemmas above are passed as arguments. *)
Ltac run_inv_with bind_inv lift_inv read_inv ret_inv H :=
  repeat
    match type of H with
    | bind _ _ _ = Ret _ _ =>
        let a := fresh "a" in
        let w1 := fresh "w" in
        let Hc := fresh "Hrun" in
        apply bind_inv in H; destruct H as (a & w1 & Hc & H);
        first [ apply lift_inv in Hc; destruct Hc as [Hc ->]
              | apply read_inv in Hc; destruct Hc as [-> ->]
              | apply ret_inv in Hc; destruct Hc as [-> ->]
              | idtac ]
    end.

(** ** Times of day *)

Lemma make_time_Ok h m t :
  make_time h m = Ok t ->
  0 <= h <= 23 /\ 0 <= m <= 59 /\ t = (h * 60 + m) * 60 * second_us.
Proof.
  unfold make_time.
  destruct (negb (fits_int h && fits_int m)); [discriminate |].
  destruct ((0 <=? h) && (h <=? 23) && (0 <=? m) && (m <=? 59)) eqn:Hr;
    [| discriminate].
  intros H. inversion H.
  apply andb_true_iff in Hr as [Hr Hm2]. apply andb_true_iff in Hr as [Hr Hm1].
  apply andb_true_iff in Hr as [Hh1 Hh2].
  apply Z.leb_le in Hh1, Hh2, Hm1, Hm2. lia.
Qed.

Lemma make_time_in_range h m :
  0 <= h <= 23 -> 0 <= m <= 59 ->
  make_time h m = Ok ((h * 60 + m) * 60 * second_us).
Proof.
  intros Hh Hm. unfold make_time, fits_int.
  replace ((-2147483648 <=? h) && (h <=? 2147483647)) with true
    by (symmetry; apply andb_true_iff; split; apply Z.leb_le; lia).
  replace ((-2147483648 <=? m) && (m <=? 2147483647)) with true
    by (symmetry; apply andb_true_iff; split; apply Z.leb_le; lia).
  cbn [andb negb].
  replace ((0 <=? h) && (h <=? 23) && (0 <=? m) && (m <=? 59)) with true;
    [reflexivity |].
  symmetry. repeat (apply andb_true_iff; split); apply Z.leb_le; lia.
Qed.

Lemma upto_In n x : 0 <= x < Z.of_nat n -> In x (upto n).
Proof.
  intros H. unfold upto. apply in_map_iff. exists (Z.to_nat x).
  split; [lia |]. apply in_seq. lia.
Qed.

(** A time of day lies within its day. *)
Lemma make_time_on_date d h m t :
  make_time h m = Ok t -> date_of (combine d t) = d.
Proof.
  intros H. apply make_time_Ok in H as (Hh & Hm & ->).
  unfold date_of, combine, day_us, hour_us, second_us.
  symmetry. apply Z.div_unique with (r := (h * 60 + m) * 60 * 1000000); lia.
Qed.

(** ** The target date of a day-of-week request *)

Section TargetDate.

Lemma day_index_range name i :
  day_index name DAYS_OF_WEEK = Some i -> 0 <= i <= 6.
Proof.
  unfold DAYS_OF_WEEK. simpl.
  repeat match goal with
         | |- context [String.eqb ?a ?b] => destruct (String.eqb a b)
         end;
    intros H; inversion H; lia.
Qed.

Lemma days_to_add_spec c i :
  0 <= i <= 6 ->
  let k := days_to_add c i in
  0 <= k <= 6 /\ (c + k) mod 7 = i mod 7 /\ (c = i -> k = 0).
Proof.
  intros Hi. unfold days_to_add.
  destruct (Z.eqb_spec c i) as [-> | Hne].
  - replace (i + 0) with i by lia. repeat split; lia.
  - destruct (Z.ltb_spec ((i - c) mod 7) 0) as [Hneg | Hpos].
    + pose proof (Z.mod_pos_bound (i - c) 7 ltac:(lia)). lia.
    + pose proof (Z.mod_pos_bound (i - c) 7 ltac:(lia)) as Hb.
      split; [lia |]. split; [| intros; contradiction].
      rewrite Zplus_mod_idemp_r. f_equal. lia.
Qed.

Lemma next_occurrence_value e name i :
  0 < e -> e + 6 <= MAXORDINAL ->
  day_index name DAYS_OF_WEEK = Some i ->
  next_occurrence e (Some name) = Ok (e + days_to_add (weekday e) i).
Proof.
  intros He Hmax Hi.
  pose proof (day_index_range _ _ Hi) as Hr.
  destruct (days_to_add_spec (weekday e) i Hr) as (Hk & _ & _).
  unfold next_occurrence. cbn [rbind].
  unfold days_of_week_item. rewrite Hi. cbn [rbind].
  unfold timedelta_days.
  set (k := days_to_add (weekday e) i) in *.
  replace ((-999999999 <=? k) && (k <=? 999999999)) with true
    by (symmetry; apply andb_true_iff; split; apply Z.leb_le; lia).
  cbn [rbind]. unfold date_add.
  rewrite Z.div_mul by (unfold day_us, hour_us, second_us; lia).
  replace ((0 <? e + k) && (e + k <=? MAXORDINAL)) with true; [reflexivity |].
  symmetry; apply andb_true_iff; split;
    [apply Z.ltb_lt | apply Z.leb_le]; lia.
Qed.

End TargetDate.

(** ** What a completed first part of the service has computed *)

Lemma notify_Ret id w : notify id w = Ret tt (record_event (Notified id) w).
Proof. reflexivity. Qed.

Lemma prepare_Search fuel call w p w' :
  prepare fuel call w = Ret (Search p) w' ->
  exists v,
    SERVICE_SCHEMA_BOOKING_HELPER call = Ok v
    /\ coordinators w = true
    /\ parse_target_time (v_target_time v) = Ok (pl_target_time p)
    /\ get_last_donation_date fuel w = Ret (pl_last_donation_date p) w'
    /\ earliest_allowed (pl_last_donation_date p)
         (v_min_days_from_last_appointment v) (today w')
       = Ok (pl_earliest_allowed_date p)
    /\ next_occurrence (pl_earliest_allowed_date p)
         (match v_target_date v with
          | Some _ => None
          | None => v_target_day_of_week v
          end)
       = Ok (pl_target_date p)
    /\ time_window (pl_target_date p) (pl_target_time p) (v_tolerance_hours v)
       = Ok (pl_target_datetime p, pl_start_datetime p, pl_end_datetime p)
    /\ pl_venue_id p = v_venue_id v
    /\ pl_procedure_code p = v_procedure_code v
    /\ pl_auto_book p = v_auto_book v
    /\ pl_tolerance_hours p = v_tolerance_hours v.
Proof.
  unfold prepare. intros H.
  destruct (SERVICE_SCHEMA_BOOKING_HELPER call) as [v | e] eqn:Hv.
  2:{ destruct (is_Invalid e); discriminate. }
  destruct (negb (is_some (v_target_date v)
                  || truthy_str (v_target_day_of_week v))).
  { run_inv_with @bind_Ret_inv @lift_Ret_inv @read_Ret_inv @ret_Ret_inv H. apply ret_Ret_inv in H as [H _]. discriminate. }
  apply bind_Ret_inv in H as (has & wa & Hread & H).
  apply read_Ret_inv in Hread as [-> ->].
  destruct (coordinators w) eqn:Hco; simpl in H.
  2:{ apply ret_Ret_inv in H as [H _]. discriminate. }
  apply bind_Ret_inv in H as (ttime & wa & Htime & H).
  apply lift_Ret_inv in Htime as [Htime ->].
  apply bind_Ret_inv in H as (dow & wa & Hdow & H).
  assert (Hd : dow = match v_target_date v with
                     | Some _ => None
                     | None => v_target_day_of_week v
                     end /\ wa = w).
  { destruct (v_target_date v).
    - apply ret_Ret_inv in Hdow as [-> ->]. auto.
    - destruct (v_target_day_of_week v).
      + run_inv_with @bind_Ret_inv @lift_Ret_inv @read_Ret_inv @ret_Ret_inv Hdow. apply ret_Ret_inv in Hdow as [-> ->]. auto.
      + discriminate. }
  destruct Hd as [-> ->]. clear Hdow.
  apply bind_Ret_inv in H as (last & wb & Hlast & H).
  apply bind_Ret_inv in H as (day & wc & Hday & H).
  apply read_Ret_inv in Hday as [-> ->].
  apply bind_Ret_inv in H as (earliest & wc & Hearliest & H).
  apply lift_Ret_inv in Hearliest as [Hearliest ->].
  apply bind_Ret_inv in H as (target & wc & Htarget & H).
  apply lift_Ret_inv in Htarget as [Htarget ->].
  apply bind_Ret_inv in H as (win & wc & Hwin & H).
  apply lift_Ret_inv in Hwin as [Hwin ->].
  destruct win as [[tdt sdt] edt].
  apply ret_Ret_inv in H as [H ->]. inversion H; subst p; clear H. simpl.
  exists v. repeat split; auto.
Qed.

Lemma schema_fields call v :
  SERVICE_SCHEMA_BOOKING_HELPER call = Ok v ->
  v_target_date v = target_date call
  /\ validate_day_of_week (target_day_of_week call)
     = Ok (v_target_day_of_week v)
  /\ v_min_days_from_last_appointment v
     = default (min_days_from_last_appointment call) 14
  /\ v_target_time v = normalize_time (target_time call).
Proof.
  unfold SERVICE_SCHEMA_BOOKING_HELPER.
  destruct (venue_id call); [| discriminate].
  destruct (validate_day_of_week (target_day_of_week call)); simpl;
    intros H; inversion H; subst; auto.
Qed.

Lemma prepare_Stop fuel call w r w' :
  prepare fuel call w = Ret (Stop r) w' ->
  exists m e, r = failure m e.
Proof.
  unfold prepare. intros H.
  destruct (SERVICE_SCHEMA_BOOKING_HELPER call) as [v | e].
  2:{ destruct (is_Invalid e); discriminate. }
  destruct (negb (is_some (v_target_date v)
                  || truthy_str (v_target_day_of_week v))).
  { run_inv_with @bind_Ret_inv @lift_Ret_inv @read_Ret_inv @ret_Ret_inv H. apply ret_Ret_inv in H as [H _]. inversion H. eauto. }
  apply bind_Ret_inv in H as (has & wa & Hread & H).
  apply read_Ret_inv in Hread as [-> ->].
  destruct (coordinators w); simpl in H.
  2:{ apply ret_Ret_inv in H as [H _]. inversion H. eauto. }
  run_inv_with @bind_Ret_inv @lift_Ret_inv @read_Ret_inv @ret_Ret_inv H.
  match type of H with
  | context [match ?x with pair _ _ => _ end] => destruct x as [[? ?] ?]
  end.
  apply ret_Ret_inv in H as [H _]. discriminate.
Qed.

(** C1.  A call that gives [target_date] never gets to use it: the
    branch for an explicit date leaves the local [day_of_week] unbound,
    and the day-of-week resolution that follows unconditionally reads
    it.  So the first part of the service never hands a plan to the
    search, and whatever the service returns is a failure without
    appointment; once the parameters are valid and the earliest allowed
    date is computed, the call raises [UnboundLocalError]. *)
Theorem explicit_target_date_never_searched fuel call d w :
  target_date call = Some d ->
  (forall p w', prepare fuel call w <> Ret (Search p) w')
  /\ (forall r w', async_booking_helper_service fuel call w = Ret r w' ->
                   success r = false /\ appointment r = None)
  /\ (forall v t last w1 e,
         SERVICE_SCHEMA_BOOKING_HELPER call = Ok v ->
         coordinators w = true ->
         parse_target_time (v_target_time v) = Ok t ->
         get_last_donation_date fuel w = Ret last w1 ->
         earliest_allowed last (v_min_days_from_last_appointment v) (today w1)
         = Ok e ->
         async_booking_helper_service fuel call w
         = Exc UnboundLocalError w1).
Proof.
  intros Hd.
  assert (Hno : forall p w', prepare fuel call w <> Ret (Search p) w').
  { intros p w' H. apply prepare_Search in H as (v & Hv & _ & _ & _ & _ & Hn & _).
    apply schema_fields in Hv as (Hvd & _). rewrite Hvd, Hd in Hn.
    discriminate. }
  split; [exact Hno |]. split.
  - intros r w' H. unfold async_booking_helper_service in H.
    apply bind_Ret_inv in H as (pr & w1 & Hp & H).
    destruct pr as [r0 | p]; [| elim (Hno _ _ Hp)].
    apply ret_Ret_inv in H as [-> _].
    apply prepare_Stop in Hp as (m & e & ->). auto.
  - intros v t last w1 e Hv Hco Htime Hlast Hearliest.
    unfold async_booking_helper_service. apply bind_Exc.
    unfold prepare. rewrite Hv.
    destruct (schema_fields _ _ Hv) as (Hvd & _). rewrite Hvd, Hd.
    cbn [is_some orb negb].
    unfold bind at 1. unfold read at 1. rewrite Hco. cbn [negb].
    rewrite Htime. unfold bind at 1. cbn [lift]. unfold ret at 1.
    unfold bind at 1. unfold ret at 1.
    unfold bind at 1. rewrite Hlast.
    unfold bind at 1. unfold read at 1.
    rewrite Hearliest. unfold bind at 1. cbn [lift]. unfold ret at 1.
    reflexivity.
Qed.

Lemma explicit_target_date_never_searched_witness :
  async_booking_helper_service 3 (on_date 738960)
    (account unreachable (JArr []))
  = Exc UnboundLocalError (account unreachable (JArr []))
  /\ (forall p w', prepare 3 (on_date 738960) (account unreachable (JArr []))
                   <> Ret (Search p) w').
Proof.
  split; [vm_compute; reflexivity |].
  exact (proj1 (explicit_target_date_never_searched 3 (on_date 738960) 738960
                  (account unreachable (JArr [])) eq_refl)).
Defined.

(** ** C6: the day-of-week resolution *)

Lemma next_occurrence_inv e name t :
  next_occurrence e (Some name) = Ok t ->
  exists i, day_index name DAYS_OF_WEEK = Some i
            /\ t = e + days_to_add (weekday e) i.
Proof.
  unfold next_occurrence. cbn [rbind]. unfold days_of_week_item.
  destruct (day_index name DAYS_OF_WEEK) as [i |] eqn:Hi; [| discriminate].
  cbn [rbind]. intros H. exists i. split; [reflexivity |].
  pose proof (day_index_range _ _ Hi) as Hr.
  destruct (days_to_add_spec (weekday e) i Hr) as (Hk & _ & _).
  set (k := days_to_add (weekday e) i) in *.
  unfold timedelta_days in H.
  destruct ((-999999999 <=? k) && (k <=? 999999999)); [| discriminate].
  cbn [rbind] in H. unfold date_add in H.
  rewrite Z.div_mul in H by (unfold day_us, hour_us, second_us; lia).
  destruct ((0 <? e + k) && (e + k <=? MAXORDINAL)); inversion H; reflexivity.
Qed.

Lemma days_to_add_resolves e i :
  0 <= i <= 6 -> resolved e i (e + days_to_add (weekday e) i).
Proof.
  intros Hi.
  destruct (days_to_add_spec (weekday e) i Hi) as (Hk & Hmod & Hzero).
  set (k := days_to_add (weekday e) i) in *.
  assert (Hwd : weekday (e + k) = i).
  { unfold weekday in *.
    replace (e + k + 6) with ((e + 6) + k) by lia.
    rewrite <- Zplus_mod_idemp_l, Hmod. apply Z.mod_small. lia. }
  unfold resolved. split; [lia |]. split; [exact Hwd |]. split.
  - intros d Hd Hdi. rewrite <- Hwd in Hdi. unfold weekday in Hdi.
    pose proof (Z.div_mod (d + 6) 7 ltac:(lia)) as E1.
    pose proof (Z.div_mod (e + k + 6) 7 ltac:(lia)) as E2.
    rewrite Hdi in E1. lia.
  - intros He. rewrite (Hzero He). lia.
Qed.



(** ** C2: exceptions and the boundary of the service *)

(** Inside its [try] the search converts every exception into a
    response. *)
Lemma search_never_raises fuel p w e w' : search fuel p w <> Exc e w'.
Proof.
  unfold search, try_catch.
  match goal with |- context [match ?c w with _ => _ end] => destruct (c w) end;
    discriminate.
Qed.

(** C2.  The time of day is parsed before the [try] of the service is
    entered: a [target_time] that is no time of day, here "25:00", makes
    [time(25, 0)] raise [ValueError], and the exception leaves the
    service; no response is built and nothing is notified. *)
Theorem exception_before_try_escapes fuel w :
  coordinators w = true ->
  async_booking_helper_service fuel (monday_at "25:00") w = Exc ValueError w.
Proof.
  intros Hco.
  unfold async_booking_helper_service.
  apply bind_Exc.
  unfold prepare.
  change (SERVICE_SCHEMA_BOOKING_HELPER (monday_at "25:00"))
    with (Ok {| v_venue_id := "V1"; v_target_date := None;
                v_target_day_of_week := Some "monday";
                v_target_time := "25:00";
                v_tolerance_hours := 2 * hour_us;
                v_procedure_code := "";
                v_auto_book := false;
                v_min_days_from_last_appointment := 14 |}).
  cbn [v_target_date v_target_day_of_week is_some truthy_str orb negb
       String.eqb Ascii.eqb Bool.eqb v_target_time].
  unfold bind at 1. unfold read at 1. rewrite Hco. cbn [negb].
  apply bind_Exc. reflexivity.
Qed.

Lemma exception_before_try_escapes_witness :
  async_booking_helper_service 3 (monday_at "25:00")
    (account unreachable (JArr []))
  = Exc ValueError (account unreachable (JArr [])).
Proof.
  apply (exception_before_try_escapes 3 (account unreachable (JArr []))).
  reflexivity.
Defined.

(** ** Stable sorting and the first minimum *)

Section SortingFacts.
Context {A : Type} (key : A -> Z).

Lemma insert_by_In x l y : In y (insert_by key x l) <-> y = x \/ In y l.
Proof.
  induction l as [| z l IH]; simpl.
  - intuition.
  - destruct (key x <=? key z); simpl; rewrite ?IH; intuition.
Qed.

Lemma sort_by_In l y : In y (sort_by key l) <-> In y l.
Proof.
  induction l as [| x l IH]; simpl; [tauto |].
  rewrite insert_by_In, IH. intuition.
Qed.

Lemma insert_by_ascending x l :
  ascending key l -> ascending key (insert_by key x l).
Proof.
  induction l as [| z l IH]; simpl; intros Hl.
  - split; [intros y [] | exact I].
  - destruct Hl as [Hz Hl].
    destruct (Z.leb_spec (key x) (key z)) as [Hxz | Hzx]; simpl.
    + split; [| split; assumption].
      intros y [<- | Hy]; [assumption |]. specialize (Hz y Hy). lia.
    + split; [| apply IH; assumption].
      intros y Hy. apply insert_by_In in Hy as [-> | Hy]; [lia | auto].
Qed.

Lemma sort_by_ascending l : ascending key (sort_by key l).
Proof.
  induction l as [| x l IH]; simpl; [exact I |].
  apply insert_by_ascending, IH.
Qed.

Lemma insert_by_with_key k x l :
  ascending key l ->
  with_key key k (insert_by key x l) = with_key key k (x :: l).
Proof.
  unfold with_key.
  induction l as [| z l IH]; intros Hl; [reflexivity |].
  destruct Hl as [Hz Hl]. simpl insert_by.
  destruct (Z.leb_spec (key x) (key z)) as [Hxz | Hzx]; [reflexivity |].
  simpl. simpl in IH. rewrite (IH Hl).
  destruct (Z.eqb_spec (key x) k) as [Hx | Hx];
    destruct (Z.eqb_spec (key z) k) as [Hzk | Hzk]; try reflexivity.
  lia.
Qed.

(** The sort is stable: entries with the same key keep their order. *)
Lemma sort_by_stable k l : with_key key k (sort_by key l) = with_key key k l.
Proof.
  induction l as [| x l IH]; [reflexivity |].
  simpl sort_by. rewrite insert_by_with_key by apply sort_by_ascending.
  unfold with_key in *. simpl. rewrite IH. reflexivity.
Qed.

Lemma first_minimum_least l x y :
  first_minimum key l x -> In y l -> key x <= key y.
Proof.
  intros (pre & post & -> & Hpre & Hpost) Hy.
  apply in_app_or in Hy as [Hy | [<- | Hy]];
    [specialize (Hpre y Hy); lia | lia | auto].
Qed.

Lemma sort_by_head l h t :
  sort_by key l = h :: t -> first_minimum key l h.
Proof.
  revert h t. induction l as [| x l IH]; intros h t H; [discriminate |].
  simpl in H. destruct (sort_by key l) as [| y t'] eqn:Hs.
  - simpl in H. inversion H; subst h t.
    assert (l = []) as ->.
    { destruct l as [| z l]; [reflexivity |].
      assert (Hin : In z (sort_by key (z :: l)))
        by (apply sort_by_In; left; reflexivity).
      rewrite Hs in Hin. destruct Hin. }
    exists [], []. repeat split; intros ? [].
  - specialize (IH y t' eq_refl). simpl in H.
    destruct (Z.leb_spec (key x) (key y)) as [Hxy | Hyx];
      inversion H; subst h t.
    + exists [], l. repeat split; [intros ? [] |].
      intros z Hz. pose proof (first_minimum_least _ _ _ IH Hz). lia.
    + destruct IH as (pre & post & -> & Hpre & Hpost).
      exists (x :: pre), post. repeat split; [| assumption].
      intros z [<- | Hz]; [lia | auto].
Qed.

Lemma first_minimum_unique l x y :
  first_minimum key l x -> first_minimum key l y ->
  exists pre post,
    l = (pre ++ x :: post)%list /\ l = (pre ++ y :: post)%list.
Proof.
  intros (p1 & q1 & E1 & Hp1 & Hq1) (p2 & q2 & E2 & Hp2 & Hq2).
  rewrite E1 in E2. apply app_eq_app in E2 as [m [[Ea Eb] | [Ea Eb]]].
  - destruct m as [| z m]; simpl in Eb; injection Eb as Hyx Hq.
    + exists p1, q1. split; [exact E1 | rewrite Hyx; exact E1].
    + assert (Hx : key x < key y).
      { apply Hp1. rewrite Ea, Hyx. apply in_or_app. right. left. reflexivity. }
      assert (Hy : key y <= key x).
      { apply Hq2. rewrite Hq. apply in_or_app. right. left. reflexivity. }
      lia.
  - destruct m as [| z m]; simpl in Eb; injection Eb as Hxy Hq.
    + exists p1, q1. split; [exact E1 | rewrite <- Hxy; exact E1].
    + assert (Hy : key y < key x).
      { apply Hp2. rewrite Ea, Hxy. apply in_or_app. right. left. reflexivity. }
      assert (Hx : key x <= key y).
      { apply Hq1. rewrite Hq. apply in_or_app. right. left. reflexivity. }
      lia.
Qed.

End SortingFacts.

(** ** What a search that proposes an appointment has done *)

Lemma search_found fuel p w r w' :
  search fuel p w = Ret r w' ->
  success r = true \/ appointment r <> None ->
  exists a w1 available all_slots w2 best,
    appointment r = Some a
    /\ collect_slots fuel p available w1 = Ret all_slots w2
    /\ best_of all_slots = Ok best
    /\ appointment_of p best = Ok a
    /\ if pl_auto_book p then
         exists b w3,
           book_appointment fuel (ap_session_id a) (ap_session_date a)
             (ap_session_time a) (pl_venue_id p) (pl_procedure_code p) w2
           = Ret b w3
           /\ if b_success b then
                async_refresh fuel
                  (record_event
                     (Notified "blood_donor_booking_helper_success") w3)
                = Ret tt w'
                /\ r = {| success := true;
                          message := Lit "Appointment booked successfully";
                          appointment := Some a;
                          error := None |}
              else
                w' = record_event
                       (Notified "blood_donor_booking_helper_failed") w3
                /\ r = {| success := false;
                          message :=
                            FailedToBook
                              (default (b_error b) (Lit "Unknown error"));
                          appointment := Some a;
                          error :=
                            Some (default (b_error b) (Lit "Unknown error")) |}
       else
         w' = record_event (Notified "blood_donor_booking_helper_result") w2
         /\ r = {| success := true;
                   message :=
                     Lit "Found best available appointment (not booked)";
                   appointment := Some a;
                   error := None |}.
Proof.
  unfold search, try_catch. intros H Ha.
  assert (Hearly : forall m e, r <> failure m e).
  { intros m e ->. destruct Ha as [Ha | Ha];
      [discriminate | apply Ha; reflexivity]. }
  match type of H with
  | context [match ?c w with _ => _ end] =>
      destruct (c w) as [r0 w0 | e w0 | w0] eqn:Hbody
  end.
  2:{ unfold any_Exception in H. inversion H; subst. elim (Hearly _ _ eq_refl). }
  2:{ discriminate. }
  inversion H; subst r0 w0; clear H.
  apply bind_Ret_inv in Hbody as (tok & wa & Hr & H).
  apply read_Ret_inv in Hr as [-> ->].
  apply bind_Ret_inv in H as ([] & wb & _ & H).
  apply bind_Ret_inv in H as (tok' & wc & Hr & H).
  apply read_Ret_inv in Hr as [-> ->].
  destruct (negb (truthy (access_token wb))).
  { apply ret_Ret_inv in H as [-> _]. elim (Hearly _ _ eq_refl). }
  apply bind_Ret_inv in H as (sessions & wd & _ & H).
  destruct (negb (truthy sessions)).
  { run_inv_with @bind_Ret_inv @lift_Ret_inv @read_Ret_inv @ret_Ret_inv H. apply ret_Ret_inv in H as [-> _]. elim (Hearly _ _ eq_refl). }
  apply bind_Ret_inv in H as (items & we & Hr & H).
  apply lift_Ret_inv in Hr as [_ ->].
  apply bind_Ret_inv in H as (available & we & Hr & H).
  apply lift_Ret_inv in Hr as [_ ->].
  destruct available as [| s0 rest].
  { run_inv_with @bind_Ret_inv @lift_Ret_inv @read_Ret_inv @ret_Ret_inv H. apply ret_Ret_inv in H as [-> _]. elim (Hearly _ _ eq_refl). }
  apply bind_Ret_inv in H as (all_slots & w2 & Hcollect & H).
  destruct all_slots as [| c0 cs].
  { run_inv_with @bind_Ret_inv @lift_Ret_inv @read_Ret_inv @ret_Ret_inv H. apply ret_Ret_inv in H as [-> _]. elim (Hearly _ _ eq_refl). }
  apply bind_Ret_inv in H as (best & wf & Hr & H).
  apply lift_Ret_inv in Hr as [Hbest ->].
  apply bind_Ret_inv in H as (ad & wf & Hr & H).
  apply lift_Ret_inv in Hr as [Had ->].
  exists ad, wd, (s0 :: rest), (c0 :: cs), w2, best.
  assert (Hgoal : forall P : Prop,
             appointment r = Some ad -> P ->
             appointment r = Some ad
             /\ collect_slots fuel p (s0 :: rest) wd = Ret (c0 :: cs) w2
             /\ best_of (c0 :: cs) = Ok best
             /\ appointment_of p best = Ok ad
             /\ P) by auto.
  destruct (pl_auto_book p).
  - apply bind_Ret_inv in H as (b & w3 & Hbook & H).
    destruct (b_success b) eqn:Hb.
    + apply bind_Ret_inv in H as ([] & wg & Hn & H).
      rewrite notify_Ret in Hn. inversion Hn; subst wg; clear Hn.
      apply bind_Ret_inv in H as ([] & wh & Hrefresh & H).
      apply ret_Ret_inv in H as [-> ->].
      apply Hgoal; [reflexivity |]. exists b, w3. rewrite Hb. auto.
    + apply bind_Ret_inv in H as ([] & wg & Hn & H).
      rewrite notify_Ret in Hn. inversion Hn; subst wg; clear Hn.
      apply ret_Ret_inv in H as [-> ->].
      apply Hgoal; [reflexivity |]. exists b, w3. rewrite Hb. auto.
  - apply bind_Ret_inv in H as ([] & wg & Hn & H).
    rewrite notify_Ret in Hn. inversion Hn; subst wg; clear Hn.
    apply ret_Ret_inv in H as [-> ->].
    apply Hgoal; [reflexivity |]. auto.
Qed.

(** ** Logging in: what it changes *)

Lemma login_effects w :
  after_login w (world_of (login w)) /\ (forall w', login w <> Running w').
Proof.
  unfold login, try_catch, bind, send, transport_failure.
  destruct (remote w (clock w) ReqLogin) as [status text body | | |];
    try (split; [repeat split | discriminate]).
  destruct body as [d |]; cbn.
  2:{ split; [repeat split | discriminate]. }
  destruct (status =? 200); cbn.
  2:{ split; [repeat split | discriminate]. }
  destruct d as [| b | n | s | l | m]; cbn;
    try (split; [repeat split | discriminate]).
  destruct (assoc "accountDetails" m) as [details |]; cbn.
  2:{ split; [repeat split | discriminate]. }
  destruct (assoc "accessToken" m), (assoc "refreshToken" m);
    destruct details; cbn; split; try discriminate; repeat split.
Qed.

(** ** [book_appointment], one invocation at a time *)

Lemma book_appointment_never_raises fuel sid sd st v pc w e w' :
  book_appointment fuel sid sd st v pc w <> Exc e w'.
Proof.
  destruct fuel as [| f]; [discriminate |].
  simpl. unfold try_catch.
  match goal with |- context [match ?c w with _ => _ end] => destruct (c w) end;
    discriminate.
Qed.

Lemma book_appointment_step f sid sd st v pc w :
  let q := ReqBook (access_token w) sid sd st v pc in
  book_appointment (S f) sid sd st v pc w =
  match remote w (clock w) q with
  | TimedOut => Ret (not_booked (OfException TimeoutError)) (sent q w)
  | ConnectionFailed => Ret (not_booked (OfException ClientError)) (sent q w)
  | Response status text body =>
      if status =? 401 then
        match login (sent q w) with
        | Ret true w2 => book_appointment f sid sd st v pc w2
        | Ret false w2 => Ret (not_booked (Lit "Authentication failed")) w2
        | Exc e w2 => Ret (not_booked (OfException e)) w2
        | Running w2 => Running w2
        end
      else if negb (status =? 200) then Ret (not_booked (Lit text)) (sent q w)
      else
        match body with
        | None =>
            Ret (not_booked (Lit "Failed to parse booking response")) (sent q w)
        | Some d =>
            match get d "status" (JStr "") with
            | Ok s =>
                Ret (if json_eqb_str s "B" then booked d
                     else not_booked (BookingReturnedStatus s)) (sent q w)
            | Raise e => Ret (not_booked (OfException e)) (sent q w)
            end
        end
  | OtherContent status text =>
      if status =? 401 then
        match login (sent q w) with
        | Ret true w2 => book_appointment f sid sd st v pc w2
        | Ret false w2 => Ret (not_booked (Lit "Authentication failed")) w2
        | Exc e w2 => Ret (not_booked (OfException e)) w2
        | Running w2 => Running w2
        end
      else if negb (status =? 200) then Ret (not_booked (Lit text)) (sent q w)
      else Ret (not_booked (OfException ClientError)) (sent q w)
  end.
Proof.
  intros q. cbn [book_appointment].
  unfold try_catch, bind, read, send, transport_failure. fold q.
  change (tick (record_event (Sent q) w)) with (sent q w).
  destruct (remote w (clock w) q) as [status text body | | | status text];
    try reflexivity.
  - destruct (status =? 401).
    + destruct (login (sent q w)) as [[|] w2 | e w2 | w2]; try reflexivity.
      destruct (book_appointment f sid sd st v pc w2) as [r w3 | e w3 | w3]
        eqn:Hb; try reflexivity.
      elim (book_appointment_never_raises _ _ _ _ _ _ _ _ _ Hb).
    + destruct (negb (status =? 200)); [reflexivity |].
      destruct body as [d |]; [| reflexivity].
      destruct d as [| b | n | s | l | m]; try reflexivity.
      cbn. destruct (json_eqb_str _ "B"); reflexivity.
  - destruct (status =? 401).
    + destruct (login (sent q w)) as [[|] w2 | e w2 | w2]; try reflexivity.
      destruct (book_appointment f sid sd st v pc w2) as [r w3 | e w3 | w3]
        eqn:Hb; try reflexivity.
      elim (book_appointment_never_raises _ _ _ _ _ _ _ _ _ Hb).
    + destruct (negb (status =? 200)); reflexivity.
Qed.

Lemma json_eqb_str_true s t : json_eqb_str s t = true <-> s = JStr t.
Proof.
  destruct s; simpl; try (split; [discriminate | intros H; inversion H]).
  rewrite String.eqb_eq. split; [intros ->; reflexivity |].
  intros H; inversion H; reflexivity.
Qed.

Lemma book_appointment_success fuel sid sd st v pc w r w' :
  book_appointment fuel sid sd st v pc w = Ret r w' ->
  remote w' = remote w
  /\ exists n q rest,
       clock w' = S n /\ events w' = Sent q :: rest
       /\ (b_success r = true <->
           exists tok text d,
             q = ReqBook tok sid sd st v pc
             /\ remote w n q = Response 200 text (Some d)
             /\ get d "status" (JStr "") = Ok (JStr "B")
             /\ r = booked d).
Proof.
  revert w r w'. induction fuel as [| f IH]; intros w r w' H; [discriminate |].
  rewrite book_appointment_step in H.
  set (q := ReqBook (access_token w) sid sd st v pc) in *.
  assert (Hfail : forall e,
             (forall text d, remote w (clock w) q <> Response 200 text (Some d))
             \/ (forall text d, remote w (clock w) q = Response 200 text (Some d) ->
                                get d "status" (JStr "") <> Ok (JStr "B")) ->
             remote (sent q w) = remote w
             /\ exists n q' rest,
                 clock (sent q w) = S n /\ events (sent q w) = Sent q' :: rest
                 /\ (b_success (not_booked e) = true <->
                     exists tok text d,
                       q' = ReqBook tok sid sd st v pc
                       /\ remote w n q' = Response 200 text (Some d)
                       /\ get d "status" (JStr "") = Ok (JStr "B")
                       /\ not_booked e = booked d)).
  { intros e Hno. split; [reflexivity |].
    exists (clock w), q, (events w). split; [reflexivity |].
    split; [reflexivity |]. split; [discriminate |].
    intros (tok & text & d & _ & Hr & Hg & _).
    destruct Hno as [Hno | Hno]; [elim (Hno _ _ Hr) | elim (Hno _ _ Hr Hg)]. }
  assert (Hauth :
            match login (sent q w) with
            | Ret true w2 => book_appointment f sid sd st v pc w2
            | Ret false w2 => Ret (not_booked (Lit "Authentication failed")) w2
            | Exc e w2 => Ret (not_booked (OfException e)) w2
            | Running w2 => Running w2
            end = Ret r w' ->
            remote w' = remote w
            /\ exists n q' rest,
                clock w' = S n /\ events w' = Sent q' :: rest
                /\ (b_success r = true <->
                    exists tok text d,
                      q' = ReqBook tok sid sd st v pc
                      /\ remote w n q' = Response 200 text (Some d)
                      /\ get d "status" (JStr "") = Ok (JStr "B")
                      /\ r = booked d)).
  { clear H. intros H.
    destruct (login_effects (sent q w)) as ((Hrem & Hclk & Hev & _) & _).
    assert (Hlogin : forall e,
               remote (world_of (login (sent q w))) = remote w
               /\ exists n q' rest,
                   clock (world_of (login (sent q w))) = S n
                   /\ events (world_of (login (sent q w))) = Sent q' :: rest
                   /\ (b_success (not_booked e) = true <->
                       exists tok text d,
                         q' = ReqBook tok sid sd st v pc
                         /\ remote w n q' = Response 200 text (Some d)
                         /\ get d "status" (JStr "") = Ok (JStr "B")
                         /\ not_booked e = booked d)).
    { intros e. split; [exact Hrem |].
      exists (clock (sent q w)), ReqLogin, (events (sent q w)).
      split; [exact Hclk |]. split; [exact Hev |].
      split; [discriminate |].
      intros (tok & ? & ? & Hq & _). discriminate. }
    destruct (login (sent q w)) as [[|] w2 | e w2 | w2] eqn:Hl;
      simpl in Hrem, Hclk, Hev, Hlogin.
    + destruct (IH _ _ _ H) as (Hr2 & n & q' & rest & Hc & He & Hiff).
      split; [rewrite Hr2; exact Hrem |].
      exists n, q', rest. split; [exact Hc |]. split; [exact He |].
      rewrite Hiff.
      replace (remote w2 n q') with (remote w n q')
        by (rewrite Hrem; reflexivity).
      tauto.
    + injection H as <- <-. apply Hlogin.
    + injection H as <- <-. apply Hlogin.
    + discriminate. }
  destruct (remote w (clock w) q) as [status text body | | | status text]
    eqn:Hreply.
  2:{ injection H as <- <-. apply Hfail. left. discriminate. }
  2:{ injection H as <- <-. apply Hfail. left. discriminate. }
  2:{ destruct (status =? 401); [exact (Hauth H) |].
      destruct (negb (status =? 200)); injection H as <- <-;
        apply Hfail; left; discriminate. }
  destruct (Z.eqb_spec status 401) as [H401 | H401]; [exact (Hauth H) |].
  - destruct (Z.eqb_spec status 200) as [H200 | H200]; cbn [negb] in H.
    2:{ injection H as <- <-. apply Hfail. left. intros ? ? E.
        inversion E. contradiction. }
    destruct body as [d |].
    2:{ injection H as <- <-. apply Hfail. left. discriminate. }
    destruct (get d "status" (JStr "")) as [s | e] eqn:Hg.
    2:{ injection H as <- <-. apply Hfail. right. intros ? ? E.
        inversion E; subst. rewrite Hg. discriminate. }
    destruct (json_eqb_str s "B") eqn:Hs.
    + apply json_eqb_str_true in Hs. subst s.
      injection H as <- <-. split; [reflexivity |].
      exists (clock w), q, (events w). split; [reflexivity |].
      split; [reflexivity |]. split; [| reflexivity].
      intros _. exists (access_token w), text, d. subst status. auto.
    + injection H as <- <-. apply Hfail. right. intros ? ? E.
      inversion E; subst. rewrite Hg. intros E'. inversion E'; subst.
      vm_compute in Hs. discriminate.
Qed.

(** ** Computations that leave the cached snapshot alone *)

Section Quiet.

Lemma cache_untouched_refl w : cache_untouched w w.
Proof.
  repeat split. exists []. split; reflexivity.
Qed.

Lemma cache_untouched_trans w1 w2 w3 :
  cache_untouched w1 w2 -> cache_untouched w2 w3 -> cache_untouched w1 w3.
Proof.
  intros (Hd1 & Hl1 & Hr1 & Hn1 & a1 & He1 & Ha1)
         (Hd2 & Hl2 & Hr2 & Hn2 & a2 & He2 & Ha2).
  repeat split; try congruence.
  exists (a2 ++ a1)%list. split.
  - rewrite He2, He1, app_assoc. reflexivity.
  - rewrite forallb_app, Ha1, Ha2. reflexivity.
Qed.

Lemma cache_untouched_event e w :
  is_refresh e = false -> cache_untouched w (record_event e w).
Proof.
  intros He. repeat split. exists [e]. split; [reflexivity |].
  simpl. rewrite He. reflexivity.
Qed.

Context {A B : Type}.

Lemma quiet_ret (a : A) : Quiet (ret a).
Proof. intros w. apply cache_untouched_refl. Qed.

Lemma quiet_raise e : Quiet (@raise A e).
Proof. intros w. apply cache_untouched_refl. Qed.

Lemma quiet_running : Quiet (@running A).
Proof. intros w. apply cache_untouched_refl. Qed.

Lemma quiet_read (f : world -> A) : Quiet (read f).
Proof. intros w. apply cache_untouched_refl. Qed.

Lemma quiet_lift (r : res A) : Quiet (lift r).
Proof. intros w. destruct r; apply cache_untouched_refl. Qed.

Lemma quiet_bind (c : M A) (k : A -> M B) :
  Quiet c -> (forall a, Quiet (k a)) -> Quiet (bind c k).
Proof.
  intros Hc Hk w. unfold bind. specialize (Hc w).
  destruct (c w) as [a w1 | e w1 | w1]; simpl in *; try assumption.
  eapply cache_untouched_trans; [exact Hc | apply Hk].
Qed.

Lemma quiet_try (c : M A) handles (h : exn -> M A) :
  Quiet c -> (forall e, Quiet (h e)) -> Quiet (try_catch c handles h).
Proof.
  intros Hc Hh w. unfold try_catch. specialize (Hc w).
  destruct (c w) as [a w1 | e w1 | w1]; simpl in *; try assumption.
  destruct (handles e); simpl; [| assumption].
  eapply cache_untouched_trans; [exact Hc | apply Hh].
Qed.

Lemma quiet_transport (r : reply) (k : Z -> string -> M json -> M A) :
  (forall status text response_json,
      Quiet response_json -> Quiet (k status text response_json)) ->
  Quiet (transport_failure r k).
Proof.
  intros Hk. destruct r as [status text body | | | status text]; simpl.
  - apply Hk. intros w. destruct body; apply cache_untouched_refl.
  - apply quiet_raise.
  - apply quiet_raise.
  - apply Hk. intros w. apply cache_untouched_refl.
Qed.

End Quiet.

Lemma quiet_send q : Quiet (send q).
Proof.
  intros w. unfold send. simpl. repeat split.
  exists [Sent q]. split; reflexivity.
Qed.

Lemma quiet_notify id : Quiet (notify id).
Proof. intros w. apply (cache_untouched_event (Notified id)). reflexivity. Qed.

Lemma quiet_json_of body : Quiet (json_of body).
Proof. destruct body; [apply quiet_ret | apply quiet_raise]. Qed.

Lemma quiet_login : Quiet login.
Proof.
  intros w.
  destruct (login_effects w) as ((Hr & _ & He & Hn & _ & Hd & Hl) & _).
  repeat split; try assumption.
  exists [Sent ReqLogin]. split; [exact He | reflexivity].
Qed.

Lemma quiet_get_sessions_for_date fuel venue day procedure :
  Quiet (get_sessions_for_date fuel venue day procedure).
Proof.
  induction fuel as [| f IH]; simpl;
    repeat first
      [ assumption
      | apply quiet_ret | apply quiet_raise | apply quiet_running
      | apply quiet_read | apply quiet_lift | apply quiet_notify
      | apply quiet_send | apply quiet_login | apply quiet_json_of
      | apply quiet_bind; [| intro]
      | apply quiet_try; [| intro]
      | apply quiet_transport; intros
      | match goal with
        | |- Quiet (if ?b then _ else _) => destruct b
        | |- Quiet (match ?x with _ => _ end) => destruct x
        end ].
Qed.

Lemma quiet_get_slots_for_session fuel sid sdate procedure :
  Quiet (get_slots_for_session fuel sid sdate procedure).
Proof.
  induction fuel as [| f IH]; simpl;
    repeat first
      [ assumption
      | apply quiet_ret | apply quiet_raise | apply quiet_running
      | apply quiet_read | apply quiet_lift | apply quiet_notify
      | apply quiet_send | apply quiet_login | apply quiet_json_of
      | apply quiet_bind; [| intro]
      | apply quiet_try; [| intro]
      | apply quiet_transport; intros
      | match goal with
        | |- Quiet (if ?b then _ else _) => destruct b
        | |- Quiet (match ?x with _ => _ end) => destruct x
        end ].
Qed.

Lemma quiet_book_appointment fuel sid sd st v pc :
  Quiet (book_appointment fuel sid sd st v pc).
Proof.
  induction fuel as [| f IH]; simpl;
    repeat first
      [ assumption
      | apply quiet_ret | apply quiet_raise | apply quiet_running
      | apply quiet_read | apply quiet_lift | apply quiet_notify
      | apply quiet_send | apply quiet_login | apply quiet_json_of
      | apply quiet_bind; [| intro]
      | apply quiet_try; [| intro]
      | apply quiet_transport; intros
      | match goal with
        | |- Quiet (if ?b then _ else _) => destruct b
        | |- Quiet (match ?x with _ => _ end) => destruct x
        end ].
Qed.

Lemma quiet_collect_slots fuel p sessions :
  Quiet (collect_slots fuel p sessions).
Proof.
  induction sessions as [| [sid sdate] rest IH]; simpl;
    repeat first
      [ assumption
      | apply quiet_get_slots_for_session
      | apply quiet_ret | apply quiet_lift
      | apply quiet_bind; [| intro]
      | match goal with
        | |- Quiet (if ?b then _ else _) => destruct b
        end ].
Qed.

Section QuietUnlessFacts.
Context {A B : Type} (good : B -> Prop).

Lemma quiet_unless_quiet (c : M B) : Quiet c -> QuietUnless good c.
Proof.
  intros Hc w. specialize (Hc w).
  destruct (c w); simpl in Hc; auto.
Qed.

Lemma quiet_unless_bind (c : M A) (k : A -> M B) :
  Quiet c -> (forall a, QuietUnless good (k a)) ->
  QuietUnless good (bind c k).
Proof.
  intros Hc Hk w. unfold bind. specialize (Hc w).
  destruct (c w) as [a w1 | e w1 | w1]; simpl in Hc; [| assumption | exact I].
  specialize (Hk a w1).
  destruct (k a w1) as [r w2 | e w2 | w2]; [| | exact I].
  - destruct Hk as [Hk | Hk]; [left | right; exact Hk].
    eapply cache_untouched_trans; eassumption.
  - eapply cache_untouched_trans; eassumption.
Qed.

Lemma quiet_unless_try (c : M B) handles (h : exn -> M B) :
  QuietUnless good c -> (forall e, Quiet (h e)) ->
  QuietUnless good (try_catch c handles h).
Proof.
  intros Hc Hh w. unfold try_catch. specialize (Hc w).
  destruct (c w) as [r w1 | e w1 | w1]; [assumption | | exact I].
  destruct (handles e); [| assumption].
  specialize (Hh e w1).
  destruct (h e w1) as [r w2 | e2 w2 | w2]; simpl in Hh; [left | | exact I];
    eapply cache_untouched_trans; eassumption.
Qed.

End QuietUnlessFacts.

Lemma async_refresh_never_raises fuel w e w' :
  async_refresh fuel w <> Exc e w'.
Proof.
  unfold async_refresh. destruct (_async_update_data fuel w); discriminate.
Qed.

(** The search leaves the cached snapshot alone, runs no refresh and
    keeps the remote service and the clock, unless it returns the
    response of a successful booking. *)
Lemma search_quiet_unless_booked fuel p :
  QuietUnless (fun r => success r = true /\ pl_auto_book p = true)
    (search fuel p).
Proof.
  unfold search.
  (let quiet := fun _ =>
     repeat first
       [ apply quiet_get_sessions_for_date
       | apply quiet_book_appointment
       | apply quiet_collect_slots
       | apply quiet_ret | apply quiet_read | apply quiet_lift
       | apply quiet_notify | apply quiet_login
       | apply quiet_bind; [| intro]
       | match goal with
         | |- Quiet (if ?b then _ else _) => destruct b
         end ] in
   apply quiet_unless_try; [| intro; quiet tt];
   apply quiet_unless_bind; [quiet tt | intro tok];
   apply quiet_unless_bind; [quiet tt | intros _];
   apply quiet_unless_bind; [quiet tt | intro tok'];
   destruct (negb (truthy tok')); [apply quiet_unless_quiet; quiet tt |];
   apply quiet_unless_bind; [quiet tt | intro sessions];
   destruct (negb (truthy sessions)); [apply quiet_unless_quiet; quiet tt |];
   apply quiet_unless_bind; [quiet tt | intro items];
   apply quiet_unless_bind; [quiet tt | intro available];
   destruct available as [| s0 rest]; [apply quiet_unless_quiet; quiet tt |];
   apply quiet_unless_bind; [quiet tt | intro all_slots];
   destruct all_slots as [| c0 cs]; [apply quiet_unless_quiet; quiet tt |];
   apply quiet_unless_bind; [quiet tt | intro best];
   apply quiet_unless_bind; [quiet tt | intro ad];
   destruct (pl_auto_book p); [| apply quiet_unless_quiet; quiet tt];
   apply quiet_unless_bind; [quiet tt | intro booking];
   destruct (b_success booking); [| apply quiet_unless_quiet; quiet tt]).
  intros w. unfold bind at 1. rewrite notify_Ret. unfold bind.
  destruct (async_refresh fuel _) as [[] w1 | e w1 | w1] eqn:Hr.
  - right. split; reflexivity.
  - elim (async_refresh_never_raises _ _ _ _ Hr).
  - exact I.
Qed.

(** A found candidate whose booking fails is still attached to the
    response. *)
Lemma search_failed_booking fuel p w sessions w1 items available all_slots w2
    best a b w3 :
  truthy (access_token w) = true ->
  get_sessions_for_date fuel (pl_venue_id p) (pl_target_date p)
    (pl_procedure_code p) w = Ret sessions w1 ->
  truthy sessions = true ->
  iter sessions = Ok items ->
  available_sessions_of items = Ok available ->
  available <> [] ->
  collect_slots fuel p available w1 = Ret all_slots w2 ->
  all_slots <> [] ->
  best_of all_slots = Ok best ->
  appointment_of p best = Ok a ->
  pl_auto_book p = true ->
  book_appointment fuel (ap_session_id a) (ap_session_date a)
    (ap_session_time a) (pl_venue_id p) (pl_procedure_code p) w2 = Ret b w3 ->
  b_success b = false ->
  search fuel p w
  = Ret {| success := false;
           message := FailedToBook (default (b_error b) (Lit "Unknown error"));
           appointment := Some a;
           error := Some (default (b_error b) (Lit "Unknown error")) |}
        (record_event (Notified "blood_donor_booking_helper_failed") w3).
Proof.
  intros Htok Hsessions Htruthy Hiter Havail Hne Hcollect Hne' Hbest Had Hauto
    Hbook Hb.
  unfold search, try_catch.
  unfold bind at 1. unfold read at 1.
  rewrite Htok. cbn [negb].
  unfold bind at 1. unfold ret at 1.
  unfold bind at 1. unfold read at 1. rewrite Htok. cbn [negb].
  unfold bind at 1. rewrite Hsessions, Htruthy. cbn [negb].
  rewrite Hiter. unfold bind at 1. cbn [lift]. unfold ret at 1.
  rewrite Havail. unfold bind at 1. cbn [lift]. unfold ret at 1.
  destruct available as [| s0 rest]; [contradiction |].
  unfold bind at 1. rewrite Hcollect.
  destruct all_slots as [| c0 cs]; [contradiction |].
  rewrite Hbest. unfold bind at 1. cbn [lift]. unfold ret at 1.
  rewrite Had. unfold bind at 1. cbn [lift]. unfold ret at 1.
  rewrite Hauto. unfold bind at 1. rewrite Hbook, Hb.
  reflexivity.
Qed.

(** ** C8: a booking succeeds on the business status only *)

Section StillFacts.
Context {A B : Type}.

Lemma still_ret (a : A) : Still (ret a).
Proof. intros w. reflexivity. Qed.

Lemma still_raise e : Still (@raise A e).
Proof. intros w. reflexivity. Qed.

Lemma still_read (f : world -> A) : Still (read f).
Proof. intros w. reflexivity. Qed.

Lemma still_lift (r : res A) : Still (lift r).
Proof. intros w. destruct r; reflexivity. Qed.

Lemma still_bind (c : M A) (k : A -> M B) :
  Still c -> (forall a, Still (k a)) -> Still (bind c k).
Proof.
  intros Hc Hk w. unfold bind. specialize (Hc w).
  destruct (c w) as [a w1 | e w1 | w1]; simpl in Hc; subst w1;
    [apply Hk | reflexivity | reflexivity].
Qed.

Lemma still_try (c : M A) handles (h : exn -> M A) :
  Still c -> (forall e, Still (h e)) -> Still (try_catch c handles h).
Proof.
  intros Hc Hh w. unfold try_catch. specialize (Hc w).
  destruct (c w) as [a w1 | e w1 | w1]; simpl in Hc; subst w1;
    [reflexivity | | reflexivity].
  destruct (handles e); [apply Hh | reflexivity].
Qed.

Lemma bind_stays (c : M A) (k : A -> M B) w :
  world_of (c w) = w -> (forall a, world_of (k a w) = w) ->
  world_of (bind c k w) = w.
Proof.
  intros Hc Hk. unfold bind.
  destruct (c w) as [a w1 | e w1 | w1]; simpl in Hc; subst w1;
    [apply Hk | reflexivity | reflexivity].
Qed.

End StillFacts.

(** [get_last_donation_date] changes the account context by the refresh
    of a stale snapshot and by nothing else. *)
Lemma get_last_donation_date_world fuel w :
  world_of (get_last_donation_date fuel w)
  = if stale w then world_of (async_refresh fuel w) else w.
Proof.
  unfold get_last_donation_date, stale.
  unfold bind at 1, read at 1. unfold bind at 1, read at 1.
  assert (Hrest : forall u : unit,
    Still (bind (read data) (fun d =>
      if negb (truthy d) then ret None
      else
        bind (lift (get d "appointments" (JArr []))) (fun appointments =>
          if negb (truthy appointments) then
            bind sixty_days_ago (fun last => ret (Some last))
          else
            bind (lift (len appointments)) (fun _ =>
            bind (lift (iter appointments)) (fun items =>
            bind (lift (log_appointments items)) (fun _ =>
              try_catch
                (bind (lift (parse_appointment_dates items)) (fun dates =>
                   match dates with
                   | [] => bind sixty_days_ago (fun last => ret (Some last))
                   | d0 :: others => ret (Some (max_date d0 others))
                   end))
                any_Exception
                (fun _ => bind sixty_days_ago
                            (fun last => ret (Some last)))))))))).
  { intros _. unfold sixty_days_ago.
    repeat first
      [ apply still_ret | apply still_raise | apply still_read
      | apply still_lift
      | apply still_try; [| intros ?]
      | apply still_bind; [| intros ?]
      | match goal with
        | |- Still (if ?b then _ else _) => destruct b
        | |- Still (match ?x with _ => _ end) => destruct x
        end ]. }
  destruct (negb (truthy (data w)) || negb (last_update_success w)).
  - unfold bind at 1.
    pose proof (async_refresh_never_raises fuel w) as Hne.
    destruct (async_refresh fuel w) as [u w1 | e w1 | w1];
      [exact (Hrest u w1) | exfalso; eapply Hne; reflexivity | reflexivity].
  - unfold bind at 1, ret at 1. exact (Hrest tt w).
Qed.

(** With a snapshot that is not stale the first part of the service
    leaves the account context as it is, but for the notification of a
    call without date. *)
Lemma prepare_world fuel call w :
  stale w = false ->
  world_of (prepare fuel call w) = w
  \/ world_of (prepare fuel call w)
     = record_event (Notified "blood_donor_booking_helper_missing_date") w.
Proof.
  intros Hfresh. unfold prepare.
  destruct (SERVICE_SCHEMA_BOOKING_HELPER call) as [v | e].
  2:{ left. destruct (is_Invalid e); reflexivity. }
  destruct (negb (is_some (v_target_date v)
                  || truthy_str (v_target_day_of_week v)));
    [right; reflexivity | left].
  unfold bind at 1, read at 1.
  destruct (negb (coordinators w)); [reflexivity |].
  apply bind_stays; [apply still_lift | intros target_time].
  apply bind_stays.
  { destruct (v_target_date v); [apply still_ret |].
    destruct (v_target_day_of_week v); [| apply still_raise].
    apply still_bind; [apply still_lift | intros ?; apply still_ret]. }
  intros day_of_week.
  apply bind_stays.
  { rewrite get_last_donation_date_world, Hfresh. reflexivity. }
  intros last.
  repeat first
    [ apply still_ret | apply still_read | apply still_lift
    | apply bind_stays; [| intros ?]
    | match goal with
      | |- world_of ((let '(_, _) := ?x in _) _) = _ => destruct x as [[? ?] ?]
      end ].
Qed.

(** Over a snapshot that is not stale the service touches the cached
    snapshot only when it returns the response of a successful
    booking. *)
Lemma service_quiet_unless_booked fuel call w r w' :
  stale w = false ->
  async_booking_helper_service fuel call w = Ret r w' ->
  cache_untouched w w' \/ (success r = true /\ auto_book call = Some true).
Proof.
  intros Hfresh H. unfold async_booking_helper_service in H.
  apply bind_Ret_inv in H as (pr & w1 & Hp & H).
  pose proof (prepare_world fuel call w Hfresh) as Hw.
  rewrite Hp in Hw. cbn [world_of] in Hw.
  destruct pr as [r0 | p].
  - apply ret_Ret_inv in H as [-> ->]. left.
    destruct Hw as [-> | ->];
      [apply cache_untouched_refl
      | apply (cache_untouched_event (Notified _)); reflexivity].
  - assert (Hw1 : w1 = w).
    { pose proof Hp as Hs.
      apply prepare_Search in Hs as (_ & _ & _ & _ & Hlast & _).
      pose proof (get_last_donation_date_world fuel w) as Hg.
      rewrite Hlast, Hfresh in Hg. exact Hg. }
    subst w1.
    pose proof (search_quiet_unless_booked fuel p w) as Hq.
    rewrite H in Hq. destruct Hq as [Hq | [Hs Hauto]]; [left; exact Hq |].
    right. split; [exact Hs |].
    apply prepare_Search in Hp
      as (v & Hv & _ & _ & _ & _ & _ & _ & _ & _ & Hab & _).
    rewrite Hauto in Hab.
    unfold SERVICE_SCHEMA_BOOKING_HELPER in Hv.
    destruct (venue_id call); [| discriminate].
    destruct (validate_day_of_week (target_day_of_week call));
      [| discriminate].
    cbn [rbind] in Hv. inversion Hv; subst v; clear Hv.
    cbn [v_auto_book] in Hab.
    destruct (auto_book call) as [[|] |]; try discriminate. reflexivity.
Qed.




(** With [auto_book] a booking answered with status "B" gives
    [success = true] and the snapshot is refreshed last; answered with
    "P" it gives [success = false], the candidate is still in the
    response, and no refresh runs. *)
Example confirmed_and_pending_booking :
  (exists r w',
      async_booking_helper_service 3 book_on_friday
        (account (clinic 3 [slot_at "T1220"] "B") (JArr [])) = Ret r w'
      /\ success r = true
      /\ option_map ap_time (appointment r) = Some "12:20"
      /\ hd_error (events w') = Some (Refreshed true))
  /\ (exists r w',
         async_booking_helper_service 3 book_on_friday
           (account (clinic 3 [slot_at "T1220"] "P") (JArr [])) = Ret r w'
         /\ success r = false
         /\ option_map ap_time (appointment r) = Some "12:20"
         /\ error r = Some (BookingReturnedStatus (JStr "P"))
         /\ existsb is_refresh (events w') = false).
Proof.
  split; eexists; eexists; (split; [vm_compute; reflexivity |]);
    repeat split.
Qed.

(** ** The 401 path of the authenticated calls *)

Lemma login_accepted w :
  accepted (remote w (clock w) ReqLogin) ->
  exists w', login w = Ret true w' /\ after_login w w'
             /\ token_preview (access_token w') = Ok tt.
Proof.
  intros (text & members & tok & Hreply & Htok & Hdetails).
  unfold login, try_catch, bind, send, transport_failure.
  rewrite Hreply. cbn. rewrite Htok.
  destruct (assoc "accountDetails" members) as [[| | | | |] |];
    try contradiction; cbn;
    (eexists; split; [reflexivity |]; split; [repeat split |]);
    cbn; unfold token_preview; destruct (truthy (JStr tok)); reflexivity.
Qed.

Section Retry.
(** An authenticated call [call] that sends [req] and, on a 401 answer
    followed by a successful login, is its own next invocation. *)
Context {A : Type} (call : nat -> M A) (req : json -> request).
Hypothesis req_is_data : forall tok, is_data_request (Sent (req tok)) = true.
Hypothesis req_not_login : forall tok, is_login (Sent (req tok)) = false.
Hypothesis call_O : forall w, call O w = Running w.
Hypothesis call_retry :
  forall f w text body w2,
    token_preview (access_token w) = Ok tt ->
    remote w (clock w) (req (access_token w)) = Response 401 text body ->
    login (sent (req (access_token w)) w) = Ret true w2 ->
    call (S f) w = call f w2.

Lemma retry_rounds k :
  forall f w,
    token_preview (access_token w) = Ok tt ->
    retried w k req ->
    exists w', call (k + f) w = call f w' /\ rounds k w w'.
Proof.
  induction k as [| k IH]; intros f w Htok Hr.
  - exists w. split; [reflexivity |]. unfold rounds.
    repeat split; lia.
  - destruct (Hr 0%nat ltac:(lia)) as (H401 & Hacc).
    destruct (H401 (access_token w)) as (text & body & Hreply).
    replace (clock w + 2 * 0)%nat with (clock w) in * by lia.
    set (q := req (access_token w)) in *.
    assert (Hacc' : accepted (remote (sent q w) (clock (sent q w)) ReqLogin)).
    { simpl. replace (S (clock w)) with (clock w + 1)%nat by lia. exact Hacc. }
    destruct (login_accepted _ Hacc')
      as (w2 & Hlogin & (Hrem & Hclk & Hev & _) & Htok2).
    simpl in Hrem, Hclk, Hev.
    assert (Hr2 : retried w2 k req).
    { intros i Hi. destruct (Hr (S i) ltac:(lia)) as (H1 & H2).
      unfold answers_401. rewrite Hrem, Hclk.
      replace (S (S (clock w)) + 2 * i)%nat with (clock w + 2 * S i)%nat
        by lia.
      split; assumption. }
    destruct (IH f w2 Htok2 Hr2) as (w' & Hcall & Hr' & Hc' & Hl' & Hd').
    exists w'. split.
    + simpl. rewrite (call_retry _ _ _ _ _ Htok Hreply Hlogin). exact Hcall.
    + unfold rounds. rewrite Hr', Hc', Hl', Hd', Hrem, Hclk.
      unfold count_events. rewrite Hev. subst q. cbn [filter].
      rewrite (req_is_data (access_token w)), (req_not_login (access_token w)).
      cbn [is_login is_data_request List.length].
      repeat split; lia.
Qed.

(** Against a service that keeps answering 401 and accepting the login,
    the call is still running after any number of rounds: [fuel] logins
    have been made when the fuel of the model is used up. *)
Lemma retry_unbounded fuel w :
  token_preview (access_token w) = Ok tt ->
  (forall k, retried w k req) ->
  exists w', call fuel w = Running w' /\ rounds fuel w w'.
Proof.
  intros Htok Hall.
  destruct (retry_rounds fuel 0%nat w Htok (Hall fuel)) as (w' & Hcall & Hr).
  exists w'. rewrite Nat.add_0_r in Hcall. rewrite Hcall, call_O. auto.
Qed.

End Retry.

(** ** The fetchers, one invocation at a time *)

Lemma get_sessions_for_date_step f venue day pc w :
  let q := ReqSessions (access_token w) venue day pc in
  get_sessions_for_date (S f) venue day pc w =
  match remote w (clock w) q with
  | TimedOut => Exc TimeoutError (sent q w)
  | ConnectionFailed => Exc ClientError (sent q w)
  | Response status text body =>
      if status =? 401 then
        match login (sent q w) with
        | Ret true w2 => get_sessions_for_date f venue day pc w2
        | Ret false w2 => Ret (JArr []) w2
        | Exc e w2 => Exc e w2
        | Running w2 => Running w2
        end
      else if negb (status =? 200) then Ret (JArr []) (sent q w)
      else
        match body with
        | None => Exc JSONDecodeError (sent q w)
        | Some d => lift (get d "sessions" (JArr [])) (sent q w)
        end
  | OtherContent status text =>
      if status =? 401 then
        match login (sent q w) with
        | Ret true w2 => get_sessions_for_date f venue day pc w2
        | Ret false w2 => Ret (JArr []) w2
        | Exc e w2 => Exc e w2
        | Running w2 => Running w2
        end
      else if negb (status =? 200) then Ret (JArr []) (sent q w)
      else Exc ClientError (sent q w)
  end.
Proof.
  intros q. cbn [get_sessions_for_date].
  unfold bind, read, send, transport_failure. fold q.
  change (tick (record_event (Sent q) w)) with (sent q w).
  destruct (remote w (clock w) q) as [status text body | | | status text];
    try reflexivity.
  - destruct (status =? 401).
    + destruct (login (sent q w)) as [[|] w2 | e w2 | w2]; reflexivity.
    + destruct (negb (status =? 200)); [reflexivity |].
      destruct body as [d |]; reflexivity.
  - destruct (status =? 401).
    + destruct (login (sent q w)) as [[|] w2 | e w2 | w2]; reflexivity.
    + destruct (negb (status =? 200)); reflexivity.
Qed.

Lemma get_slots_for_session_step f sid sdate pc w :
  let q := ReqSlots (access_token w) sid sdate pc in
  get_slots_for_session (S f) sid sdate pc w =
  match remote w (clock w) q with
  | TimedOut => Exc TimeoutError (sent q w)
  | ConnectionFailed => Exc ClientError (sent q w)
  | Response status text body =>
      if status =? 401 then
        match login (sent q w) with
        | Ret true w2 => get_slots_for_session f sid sdate pc w2
        | Ret false w2 => Ret (JArr []) w2
        | Exc e w2 => Exc e w2
        | Running w2 => Running w2
        end
      else if negb (status =? 200) then Ret (JArr []) (sent q w)
      else
        match body with
        | None => Exc JSONDecodeError (sent q w)
        | Some d => lift (get d "slots" (JArr [])) (sent q w)
        end
  | OtherContent status text =>
      if status =? 401 then
        match login (sent q w) with
        | Ret true w2 => get_slots_for_session f sid sdate pc w2
        | Ret false w2 => Ret (JArr []) w2
        | Exc e w2 => Exc e w2
        | Running w2 => Running w2
        end
      else if negb (status =? 200) then Ret (JArr []) (sent q w)
      else Exc ClientError (sent q w)
  end.
Proof.
  intros q. cbn [get_slots_for_session].
  unfold bind, read, send, transport_failure. fold q.
  change (tick (record_event (Sent q) w)) with (sent q w).
  destruct (remote w (clock w) q) as [status text body | | | status text];
    try reflexivity.
  - destruct (status =? 401).
    + destruct (login (sent q w)) as [[|] w2 | e w2 | w2]; reflexivity.
    + destruct (negb (status =? 200)); [reflexivity |].
      destruct body as [d |]; reflexivity.
  - destruct (status =? 401).
    + destruct (login (sent q w)) as [[|] w2 | e w2 | w2]; reflexivity.
    + destruct (negb (status =? 200)); reflexivity.
Qed.

(** What [_get_account_details] and [_get_awards] let out is never one
    of the errors their own handlers catch. *)
Lemma account_details_raises fuel w e w' :
  _get_account_details fuel w = Exc e w' -> is_network_error e = false.
Proof.
  destruct fuel as [| f]; [discriminate |].
  cbn [_get_account_details]. unfold try_catch.
  match goal with |- context [match ?c w with _ => _ end] => destruct (c w) end;
    try discriminate.
  destruct (is_network_error e0) eqn:He; [discriminate |].
  intros H; inversion H; subst; exact He.
Qed.

Lemma awards_raises fuel w e w' :
  _get_awards fuel w = Exc e w' -> is_network_error e = false.
Proof.
  destruct fuel as [| f]; [discriminate |].
  cbn [_get_awards]. unfold try_catch.
  match goal with |- context [match ?c w with _ => _ end] => destruct (c w) end;
    try discriminate.
  destruct (is_network_error e0) eqn:He; [discriminate |].
  intros H; inversion H; subst; exact He.
Qed.

Lemma account_details_retry f w text body w2 :
  token_preview (access_token w) = Ok tt ->
  remote w (clock w) (ReqAccountDetails (access_token w))
  = Response 401 text body ->
  login (sent (ReqAccountDetails (access_token w)) w) = Ret true w2 ->
  _get_account_details (S f) w = _get_account_details f w2.
Proof.
  intros Htok Hreply Hlogin. cbn [_get_account_details].
  unfold try_catch, bind, read, send, transport_failure.
  rewrite Htok. cbn [lift ret]. rewrite Hreply. cbn [Z.eqb Pos.eqb].
  change (tick (record_event (Sent (ReqAccountDetails (access_token w))) w))
    with (sent (ReqAccountDetails (access_token w)) w).
  rewrite Hlogin.
  destruct (_get_account_details f w2) as [r w3 | e w3 | w3] eqn:Hrec;
    try reflexivity.
  rewrite (account_details_raises _ _ _ _ Hrec). reflexivity.
Qed.

Lemma awards_retry f w text body w2 :
  remote w (clock w) (ReqAwards (access_token w)) = Response 401 text body ->
  login (sent (ReqAwards (access_token w)) w) = Ret true w2 ->
  _get_awards (S f) w = _get_awards f w2.
Proof.
  intros Hreply Hlogin. cbn [_get_awards].
  unfold try_catch, bind, read, send, transport_failure.
  rewrite Hreply. cbn [Z.eqb Pos.eqb].
  change (tick (record_event (Sent (ReqAwards (access_token w))) w))
    with (sent (ReqAwards (access_token w)) w).
  rewrite Hlogin.
  destruct (_get_awards f w2) as [r w3 | e w3 | w3] eqn:Hrec;
    try reflexivity.
  rewrite (awards_raises _ _ _ _ Hrec). reflexivity.
Qed.

Lemma account_details_relogin_failed f w text body w2 :
  token_preview (access_token w) = Ok tt ->
  remote w (clock w) (ReqAccountDetails (access_token w))
  = Response 401 text body ->
  login (sent (ReqAccountDetails (access_token w)) w) = Ret false w2 ->
  _get_account_details (S f) w = Ret JNull w2.
Proof.
  intros Htok Hreply Hlogin. cbn [_get_account_details].
  unfold try_catch, bind, read, send, transport_failure.
  rewrite Htok. cbn [lift ret]. rewrite Hreply. cbn [Z.eqb Pos.eqb].
  change (tick (record_event (Sent (ReqAccountDetails (access_token w))) w))
    with (sent (ReqAccountDetails (access_token w)) w).
  rewrite Hlogin. reflexivity.
Qed.

Lemma awards_relogin_failed f w text body w2 :
  remote w (clock w) (ReqAwards (access_token w)) = Response 401 text body ->
  login (sent (ReqAwards (access_token w)) w) = Ret false w2 ->
  _get_awards (S f) w = Ret JNull w2.
Proof.
  intros Hreply Hlogin. cbn [_get_awards].
  unfold try_catch, bind, read, send, transport_failure.
  rewrite Hreply. cbn [Z.eqb Pos.eqb].
  change (tick (record_event (Sent (ReqAwards (access_token w))) w))
    with (sent (ReqAwards (access_token w)) w).
  rewrite Hlogin. reflexivity.
Qed.

Lemma retries_per_401_intro {A : Type} (call : nat -> M A)
    (req : json -> request) (failure : A) :
  (forall tok, is_data_request (Sent (req tok)) = true) ->
  (forall tok, is_login (Sent (req tok)) = false) ->
  (forall w, call O w = Running w) ->
  (forall f w text body w2,
      token_preview (access_token w) = Ok tt ->
      remote w (clock w) (req (access_token w)) = Response 401 text body ->
      login (sent (req (access_token w)) w) = Ret true w2 ->
      call (S f) w = call f w2) ->
  (forall f w text body w2,
      token_preview (access_token w) = Ok tt ->
      remote w (clock w) (req (access_token w)) = Response 401 text body ->
      login (sent (req (access_token w)) w) = Ret false w2 ->
      call (S f) w = Ret failure w2) ->
  retries_per_401 call req failure.
Proof.
  intros Hd Hl HO Hretry Hfail. split; [| split].
  - intros k f w. apply retry_rounds; assumption.
  - intros fuel w. apply retry_unbounded; assumption.
  - exact Hfail.
Qed.

(** ** C5: the slot that is selected *)

Lemma int_of_str_raises s e : int_of_str s = Raise e -> e = ValueError.
Proof.
  unfold int_of_str.
  destruct (rstrip (lstrip s)) as [| a t]; cbn.
  - intros H; inversion H; reflexivity.
  - destruct (Ascii.eqb a "-"); [| destruct (Ascii.eqb a "+")];
      match goal with
      | |- context [digits_value ?b 0 false] =>
          destruct (digits_value b 0 false);
          [destruct (count_digits b >? MAX_STR_DIGITS) |]
      end;
      intros H; inversion H; reflexivity.
Qed.

(** What a slot states depends on its [time] only. *)
Lemma stated_time_of_text members text :
  assoc "time" members = Some (JStr text) ->
  stated_time (JObj members) = stated_time (JObj [("time", JStr text)]).
Proof.
  intros H. unfold stated_time. rewrite H. reflexivity.
Qed.

Lemma stated_time_canonical h m members :
  0 <= h <= 23 -> 0 <= m <= 59 ->
  assoc "time" members = Some (JStr ("T" ++ two_digits h ++ two_digits m)) ->
  stated_time (JObj members) = Ok (Some ((h * 60 + m) * 60 * second_us)).
Proof.
  intros Hh Hm Ht. rewrite (stated_time_of_text _ _ Ht).
  assert (Hall :
    forallb (fun h => forallb (fun m =>
      match stated_time
              (JObj [("time", JStr ("T" ++ two_digits h ++ two_digits m))])
      with
      | Ok (Some t) => t =? (h * 60 + m) * 60 * second_us
      | _ => false
      end) (upto 60)) (upto 24) = true)
    by (vm_compute; reflexivity).
  rewrite forallb_forall in Hall.
  specialize (Hall h (upto_In 24 h ltac:(lia))).
  rewrite forallb_forall in Hall.
  specialize (Hall m (upto_In 60 m ltac:(lia))).
  destruct (stated_time
              (JObj [("time", JStr ("T" ++ two_digits h ++ two_digits m))]))
    as [[t |] | e]; try discriminate.
  apply Z.eqb_eq in Hall. rewrite Hall. reflexivity.
Qed.

(** The filter of the source reads a slot as the specification says. *)
Lemma slot_candidate_reads td tdt sdt edt sid sdate slot :
  slot_candidate td tdt sdt edt sid sdate slot
  = match stated_time slot with
    | Ok (Some t) =>
        Ok (if (sdt <=? combine td t) && (combine td t <=? edt)
            then Some (placed td tdt sid sdate slot t)
            else None)
    | Ok None => Ok None
    | Raise e => Raise e
    end.
Proof.
  unfold slot_candidate, slot_time_str, stated_time.
  destruct slot as [| b | n | s | l | members]; try reflexivity.
  cbn [get rbind]. unfold default.
  destruct (assoc "time" members) as [[| b | n | text | l | mm] |];
    try reflexivity.
  cbn [as_str rbind].
  destruct (4 <=? String.length (str_remove "T" text))%nat; [| reflexivity].
  destruct (int_of_str (str_take 2 (str_remove "T" text))) as [hour | e]
    eqn:Hh; cbn [rbind rcatch].
  2:{ rewrite (int_of_str_raises _ _ Hh). reflexivity. }
  destruct (int_of_str (str_drop 2 (str_remove "T" text))) as [minute | e]
    eqn:Hm; cbn [rbind rcatch].
  2:{ rewrite (int_of_str_raises _ _ Hm). reflexivity. }
  unfold make_time.
  destruct (negb (fits_int hour && fits_int minute)); [reflexivity |].
  destruct ((0 <=? hour) && (hour <=? 23) && (0 <=? minute) && (minute <=? 59));
    [| reflexivity].
  cbn [rbind rcatch].
  destruct ((sdt <=? combine td ((hour * 60 + minute) * 60 * second_us))
            && (combine td ((hour * 60 + minute) * 60 * second_us) <=? edt));
    reflexivity.
Qed.

Lemma candidates_of_surviving td tdt sdt edt sid sdate slots cs :
  candidates_of td tdt sdt edt sid sdate slots = Ok cs ->
  cs = surviving td tdt sdt edt sid sdate slots.
Proof.
  revert cs. induction slots as [| slot rest IH]; intros cs H.
  - inversion H. reflexivity.
  - cbn [candidates_of surviving] in *.
    rewrite slot_candidate_reads in H.
    destruct (stated_time slot) as [[t |] | e]; cbn [rbind] in H;
      [| | discriminate].
    + destruct (candidates_of td tdt sdt edt sid sdate rest) as [cs' |];
        [| discriminate].
      cbn [rbind] in H. specialize (IH cs' eq_refl). subst cs'.
      destruct ((sdt <=? combine td t) && (combine td t <=? edt));
        inversion H; reflexivity.
    + destruct (candidates_of td tdt sdt edt sid sdate rest) as [cs' |];
        [| discriminate].
      cbn [rbind] in H. specialize (IH cs' eq_refl). subst cs'.
      inversion H; reflexivity.
Qed.

Lemma candidates_of_legible td tdt sdt edt sid sdate slots :
  forallb legible slots = true ->
  candidates_of td tdt sdt edt sid sdate slots
  = Ok (surviving td tdt sdt edt sid sdate slots).
Proof.
  induction slots as [| slot rest IH]; intros Hl; [reflexivity |].
  cbn [forallb] in Hl. apply andb_true_iff in Hl as [Hs Hrest].
  cbn [candidates_of surviving]. rewrite slot_candidate_reads, (IH Hrest).
  unfold legible in Hs.
  destruct (stated_time slot) as [[t |] | e]; [| reflexivity | discriminate].
  cbn [rbind].
  destruct ((sdt <=? combine td t) && (combine td t <=? edt)); reflexivity.
Qed.

(** A surviving slot states a time of day in the window, and is ranked
    at that time of the target date. *)
Lemma surviving_In td tdt sdt edt sid sdate slots c :
  In c (surviving td tdt sdt edt sid sdate slots) ->
  exists slot t,
    In slot slots
    /\ stated_time slot = Ok (Some t)
    /\ sdt <= combine td t <= edt
    /\ c = placed td tdt sid sdate slot t.
Proof.
  induction slots as [| slot rest IH]; [intros [] |].
  cbn [surviving].
  assert (Hrest : In c (surviving td tdt sdt edt sid sdate rest) ->
                  exists slot0 t,
                    In slot0 (slot :: rest)
                    /\ stated_time slot0 = Ok (Some t)
                    /\ sdt <= combine td t <= edt
                    /\ c = placed td tdt sid sdate slot0 t).
  { intros H. destruct (IH H) as (s0 & t & Hin & Hst & Hw & Hc).
    exists s0, t. split; [right; exact Hin | auto]. }
  destruct (stated_time slot) as [[t |] | e] eqn:Hst; try exact Hrest.
  destruct (Z.leb_spec sdt (combine td t)) as [H1 | H1]; cbn [andb];
    [| exact Hrest].
  destruct (Z.leb_spec (combine td t) edt) as [H2 | H2]; [| exact Hrest].
  intros [<- | H]; [| exact (Hrest H)].
  exists slot, t. split; [left; reflexivity |]. auto.
Qed.

Lemma all_surviving_In p sessions lists c :
  In c (all_surviving p sessions lists) ->
  exists sid sdate slot t,
    stated_time slot = Ok (Some t)
    /\ pl_start_datetime p <= combine (pl_target_date p) t <= pl_end_datetime p
    /\ c = placed (pl_target_date p) (pl_target_datetime p) sid sdate slot t.
Proof.
  revert lists. induction sessions as [| [sid sdate] rest IH];
    intros [| slots lists]; cbn [all_surviving]; try (intros []).
  intros H. apply in_app_or in H as [H | H]; [| exact (IH _ H)].
  apply surviving_In in H as (slot & t & _ & Hst & Hw & Hc).
  exists sid, sdate, slot, t. auto.
Qed.

(** A slot that states a time of day has what the appointment of the
    response is built from. *)
Lemma stated_appointment p sid sdate slot t :
  stated_time slot = Ok (Some t) ->
  exists a,
    appointment_of p
      (placed (pl_target_date p) (pl_target_datetime p) sid sdate slot t)
    = Ok a.
Proof.
  unfold stated_time, appointment_of, slot_time_str, placed.
  cbn [c_slot c_session_id c_session_date c_time_difference].
  destruct slot as [| b | n | s | l | members]; try discriminate.
  cbn [get getitem rbind]. unfold default.
  destruct (assoc "time" members) as [[| b | n | text | l | mm] |];
    try discriminate.
  intros _. cbn [as_str rbind]. eexists. reflexivity.
Qed.

(** The slots are collected session after session, in the order of the
    sessions and, within a session, of its slot list. *)
Lemma collect_slots_served fuel p sessions :
  forall lists w,
    slots_served (remote w) (clock w) p (access_token w) sessions lists ->
    forallb (forallb legible) lists = true ->
    collect_slots (S fuel) p sessions w
    = Ret (all_surviving p sessions lists)
          (asked (slot_queries p (access_token w) sessions) w).
Proof.
  induction sessions as [| [sid sdate] rest IH]; intros [| slots lists] w Hs Hl;
    try contradiction; [reflexivity |].
  destruct Hs as ((text & d & Hreply & Hget) & Hrest).
  cbn [forallb] in Hl. apply andb_true_iff in Hl as [Hslots Hlists].
  cbn [collect_slots all_surviving slot_queries map asked fold_left fst snd].
  set (q := ReqSlots (access_token w) sid sdate (pl_procedure_code p)) in *.
  unfold bind at 1.
  rewrite get_slots_for_session_step. cbv zeta. fold q. rewrite Hreply.
  cbn [Z.eqb Pos.eqb negb]. rewrite Hget. cbn [lift]. unfold ret at 1.
  assert (Hhere :
    (if truthy (JArr slots)
     then bind (lift (iter (JArr slots)))
            (fun items =>
               lift (candidates_of (pl_target_date p) (pl_target_datetime p)
                       (pl_start_datetime p) (pl_end_datetime p)
                       sid sdate items))
     else ret []) (sent q w)
    = Ret (surviving (pl_target_date p) (pl_target_datetime p)
             (pl_start_datetime p) (pl_end_datetime p) sid sdate slots)
          (sent q w)).
  { destruct slots as [| s0 ss]; [reflexivity |].
    cbn [truthy iter lift]. unfold bind, ret.
    rewrite (candidates_of_legible _ _ _ _ _ _ _ Hslots). reflexivity. }
  unfold bind at 1. rewrite Hhere.
  unfold bind at 1. rewrite (IH lists (sent q w) Hrest Hlists).
  reflexivity.
Qed.

Lemma best_of_first_minimum all_slots best :
  best_of all_slots = Ok best ->
  first_minimum c_time_difference all_slots best.
Proof.
  intros H. unfold best_of, item in H.
  destruct (sort_by c_time_difference all_slots) as [| h t] eqn:Hs;
    [discriminate |].
  simpl in H. inversion H; subst h.
  eapply sort_by_head; eassumption.
Qed.

Lemma best_of_some all_slots :
  all_slots <> [] -> exists best, best_of all_slots = Ok best.
Proof.
  intros Hne. unfold best_of, item.
  destruct (sort_by c_time_difference all_slots) as [| h t] eqn:Hs.
  - destruct all_slots as [| c cs]; [contradiction |].
    assert (Hin : In c (sort_by c_time_difference (c :: cs)))
      by (apply sort_by_In; left; reflexivity).
    rewrite Hs in Hin. destruct Hin.
  - exists h. reflexivity.
Qed.

(** The search over a service that answers every query: what it
    selects. *)
Lemma search_selects fuel p w text d sessions items available lists :
  truthy (access_token w) = true ->
  remote w (clock w)
    (ReqSessions (access_token w) (pl_venue_id p) (pl_target_date p)
       (pl_procedure_code p))
  = Response 200 text (Some d) ->
  get d "sessions" (JArr []) = Ok sessions ->
  truthy sessions = true ->
  iter sessions = Ok items ->
  available_sessions_of items = Ok available ->
  available <> [] ->
  slots_served (remote w) (S (clock w)) p (access_token w) available lists ->
  forallb (forallb legible) lists = true ->
  match all_surviving p available lists with
  | [] =>
      search (S fuel) p w
      = Ret (failure
               (NoSlotsWithin (pl_tolerance_hours p) (pl_target_time p)
                  (pl_target_date p))
               (Lit "No slots within tolerance window"))
            (record_event (Notified "blood_donor_booking_helper")
               (asked (queries p (access_token w) available) w))
  | c :: cs =>
      exists best a,
        first_minimum c_time_difference (c :: cs) best
        /\ appointment_of p best = Ok a
        /\ (pl_auto_book p = false ->
            search (S fuel) p w
            = Ret {| success := true;
                     message :=
                       Lit "Found best available appointment (not booked)";
                     appointment := Some a;
                     error := None |}
                  (record_event (Notified "blood_donor_booking_helper_result")
                     (asked (queries p (access_token w) available) w)))
        /\ (forall r w', search (S fuel) p w = Ret r w' ->
                         appointment r = Some a)
  end.
Proof.
  intros Htok Hreply Hget Htruthy Hiter Havail Hne Hserved Hlegible.
  set (q0 := ReqSessions (access_token w) (pl_venue_id p) (pl_target_date p)
               (pl_procedure_code p)) in *.
  assert (Hsessions :
            get_sessions_for_date (S fuel) (pl_venue_id p) (pl_target_date p)
              (pl_procedure_code p) w = Ret sessions (sent q0 w)).
  { rewrite get_sessions_for_date_step. cbv zeta. fold q0. rewrite Hreply.
    cbn [Z.eqb Pos.eqb negb]. rewrite Hget. reflexivity. }
  pose proof (collect_slots_served fuel p available lists (sent q0 w)
                Hserved Hlegible) as Hcollect.
  change (asked (slot_queries p (access_token (sent q0 w)) available)
            (sent q0 w))
    with (asked (queries p (access_token w) available) w) in Hcollect.
  set (w2 := asked (queries p (access_token w) available) w) in *.
  assert (Hrun : forall tail : list candidate -> M response_data,
            (bind (read access_token) (fun tok =>
               bind (if negb (truthy tok) then bind login (fun _ => ret tt)
                     else ret tt) (fun _ =>
               bind (read access_token) (fun tok' =>
                 if negb (truthy tok') then
                   ret (failure (Lit "")
                          (Lit "Failed to login to Blood Donor service"))
                 else
                   bind (get_sessions_for_date (S fuel) (pl_venue_id p)
                           (pl_target_date p) (pl_procedure_code p))
                     (fun sessions0 =>
                        if negb (truthy sessions0) then
                          bind (notify "blood_donor_booking_helper") (fun _ =>
                            ret (failure (NoSessionsFor (pl_target_date p))
                                   (Lit "No sessions available")))
                        else
                          bind (lift (iter sessions0)) (fun items0 =>
                          bind (lift (available_sessions_of items0))
                            (fun available_sessions =>
                               match available_sessions with
                               | [] =>
                                   bind (notify "blood_donor_booking_helper")
                                     (fun _ =>
                                        ret (failure
                                               (NoSlotsFor (pl_target_date p))
                                               (Lit "No available slots")))
                               | _ =>
                                   bind (collect_slots (S fuel) p
                                           available_sessions) tail
                               end))))))) w
            = tail (all_surviving p available lists) w2).
  { intros tail.
    unfold bind at 1. unfold read at 1. rewrite Htok. cbn [negb].
    unfold bind at 1. unfold ret at 1.
    unfold bind at 1. unfold read at 1. rewrite Htok. cbn [negb].
    unfold bind at 1. rewrite Hsessions, Htruthy. cbn [negb].
    rewrite Hiter. unfold bind at 1. cbn [lift]. unfold ret at 1.
    rewrite Havail. unfold bind at 1. cbn [lift]. unfold ret at 1.
    destruct available as [| s0 rest]; [contradiction |].
    unfold bind at 1. rewrite Hcollect. reflexivity. }
  unfold search, try_catch. rewrite Hrun. clear Hrun.
  destruct (all_surviving p available lists) as [| c cs] eqn:Hall.
  { reflexivity. }
  destruct (best_of_some (c :: cs) ltac:(discriminate)) as (best & Hbest).
  pose proof (best_of_first_minimum _ _ Hbest) as Hmin.
  assert (Hin : In best (all_surviving p available lists)).
  { rewrite Hall. destruct Hmin as (pre & post & -> & _).
    apply in_or_app. right. left. reflexivity. }
  apply all_surviving_In in Hin as (sid & sdate & slot & t & Hst & _ & Hpl).
  destruct (stated_appointment p sid sdate slot t Hst) as (a & Ha).
  rewrite <- Hpl in Ha.
  exists best, a. split; [exact Hmin |]. split; [exact Ha |].
  rewrite Hbest. cbn [lift]. rewrite (bind_Ret _ _ w2 best w2 eq_refl).
  rewrite Ha. cbn [lift]. rewrite (bind_Ret _ _ w2 a w2 eq_refl).
  split.
  - intros Hauto. rewrite Hauto. reflexivity.
  - intros r w'. destruct (pl_auto_book p).
    + destruct (book_appointment (S fuel) (ap_session_id a)
                  (ap_session_date a) (ap_session_time a) (pl_venue_id p)
                  (pl_procedure_code p) w2) as [b w3 | e w3 | w3] eqn:Hb.
      * rewrite (bind_Ret _ _ _ _ _ Hb).
        destruct (b_success b).
        -- unfold bind at 1. rewrite notify_Ret.
           destruct (async_refresh (S fuel)
                       (record_event
                          (Notified "blood_donor_booking_helper_success") w3))
             as [[] w4 | e w4 | w4] eqn:Hr.
           ++ rewrite (bind_Ret _ _ _ _ _ Hr).
              intros H. inversion H. reflexivity.
           ++ elim (async_refresh_never_raises _ _ _ _ Hr).
           ++ rewrite (bind_Running _ _ _ _ Hr). discriminate.
        -- intros H. inversion H. reflexivity.
      * elim (book_appointment_never_raises _ _ _ _ _ _ _ _ _ Hb).
      * rewrite (bind_Running _ _ _ _ Hb). discriminate.
    + intros H. inversion H. reflexivity.
Qed.



(** Two slots at 13:40 and 12:20 against the default target 12:55 with
    two hours of tolerance: both are in the window and 12:20 is
    proposed; a slot whose time does not parse is passed over. *)
Example nearer_slot_wins :
  exists r w',
    async_booking_helper_service 3 (on_day "friday")
      (account (clinic 3 [slot_at "T1340"; slot_at "T1220"; slot_at "09:30"]
                  "B") (JArr []))
    = Ret r w'
    /\ success r = true
    /\ option_map ap_time (appointment r) = Some "12:20"
    /\ option_map ap_date (appointment r) = Some friday.
Proof.
  eexists. eexists. split; [vm_compute; reflexivity |].
  repeat split.
Qed.

(** A slot whose minutes do not fit a C [int] is not passed over:
    [time(9, 99999999999)] raises [OverflowError], which the handler of
    the slot loop does not catch; the search ends there, with the error
    response, although another slot is in the window. *)
Example unreadable_slot_ends_search :
  exists r w',
    async_booking_helper_service 3 (on_day "friday")
      (account (clinic 3 [slot_at "T1220"; slot_at "T0999999999999"] "B")
         (JArr []))
    = Ret r w'
    /\ success r = false
    /\ appointment r = None
    /\ error r = Some (OfException OverflowError).
Proof.
  eexists. eexists. split; [vm_compute; reflexivity |].
  repeat split.
Qed.

(** ** C3: re-authentication *)


Lemma always_401_retried k venue day pc :
  retried (account always_401 (JArr [])) k
    (fun tok => ReqSessions tok venue day pc).
Proof.
  intros i _. split.
  - intros tok. exists "", None. reflexivity.
  - exists "", [("accessToken", JStr "fresh")], "fresh".
    repeat split.
Qed.



(** ** C4: what the two fetchers do when the fetch fails *)




(** An answer that does not declare a JSON content type, a page of HTML
    for instance: [response.json()] refuses it with [ContentTypeError],
    a [ClientError], whatever its text is.  The fetcher lets it out like
    the other failures; [book_appointment], whose inner handler is for
    [JSONDecodeError], reports it through its outer one. *)
Example other_content_is_refused :
  get_slots_for_session 1 (JStr "S1") (JStr "2024-03-01T00:00:00") ""
    (account (fun _ _ => OtherContent 200 "<html>") (JArr []))
  = Exc ClientError
      (sent (ReqSlots (JStr "token") (JStr "S1")
               (JStr "2024-03-01T00:00:00") "")
         (account (fun _ _ => OtherContent 200 "<html>") (JArr [])))
  /\ book_appointment 1 (JStr "S1") (JStr "2024-03-01T00:00:00")
       (JStr "T1220") "V1" ""
       (account (fun _ _ => OtherContent 200 "<html>") (JArr []))
     = Ret (not_booked (OfException ClientError))
         (sent (ReqBook (JStr "token") (JStr "S1")
                  (JStr "2024-03-01T00:00:00") (JStr "T1220") "V1" "")
            (account (fun _ _ => OtherContent 200 "<html>") (JArr []))).
Proof.
  split; reflexivity.
Qed.

(** ** C7: the earliest allowed date *)

Lemma strptime_ymd_raises s e : strptime_ymd s = Raise e -> e = ValueError.
Proof.
  unfold strptime_ymd, make_date.
  repeat match goal with
         | |- context [match ?x with _ => _ end] => destruct x
         end; intros H; inversion H; reflexivity.
Qed.

Lemma parse_after_log items :
  log_appointments items = Ok tt ->
  parse_appointment_dates items = Ok (parseable_dates items).
Proof.
  induction items as [| apt rest IH]; [reflexivity |].
  cbn [log_appointments parse_appointment_dates parseable_dates].
  unfold parsed_date.
  destruct (apt_date_str apt) as [s | e] eqn:Hs; cbn [rbind rcatch].
  - intros Hlog. rewrite (IH Hlog).
    destruct (strptime_ymd s) as [d | e] eqn:Hd; cbn [rbind rcatch].
    + reflexivity.
    + rewrite (strptime_ymd_raises _ _ Hd). reflexivity.
  - destruct e; cbn; try discriminate; intros Hlog; rewrite (IH Hlog);
      reflexivity.
Qed.

Lemma date_add_days d n :
  date_add d (n * day_us)
  = if (0 <? d + n) && (d + n <=? MAXORDINAL) then Ok (d + n)
    else Raise OverflowError.
Proof.
  unfold date_add. rewrite Z.div_mul; [reflexivity |].
  unfold day_us, hour_us, second_us. lia.
Qed.

Lemma sixty_days_ago_inv w d w' :
  sixty_days_ago w = Ret d w' -> d = today w - 60 /\ w' = w.
Proof.
  unfold sixty_days_ago. intros H.
  apply bind_Ret_inv in H as (t & w1 & Hr & H).
  apply read_Ret_inv in Hr as [-> ->].
  apply lift_Ret_inv in H as [H ->]. split; [| reflexivity].
  change (timedelta_days 60) with (Ok (60 * day_us)) in H.
  cbn [rbind] in H. unfold date_sub in H.
  replace (- (60 * day_us)) with ((-60) * day_us) in H by ring.
  rewrite date_add_days in H.
  destruct ((0 <? today w + -60) && (today w + -60 <=? MAXORDINAL));
    inversion H. lia.
Qed.

Lemma sixty_days_ago_Exc w e w' :
  sixty_days_ago w = Exc e w' -> w' = w.
Proof.
  unfold sixty_days_ago, bind, read.
  destruct (timedelta_days 60) as [td |]; cbn [rbind lift];
    [destruct (date_sub (today w) td) |]; cbn; intros H; inversion H;
    reflexivity.
Qed.

Lemma get_last_donation_date_inv fuel w last w' :
  get_last_donation_date fuel w = Ret last w' ->
  match last with
  | None => truthy (data w') = false
  | Some l =>
      truthy (data w') = true
      /\ exists appointments,
           get (data w') "appointments" (JArr []) = Ok appointments
           /\ l = last_per_spec (listed appointments) (today w')
  end.
Proof.
  unfold get_last_donation_date. intros H.
  apply bind_Ret_inv in H as (d0 & wa & Hr & H).
  apply read_Ret_inv in Hr as [-> ->].
  apply bind_Ret_inv in H as (ok0 & wa & Hr & H).
  apply read_Ret_inv in Hr as [-> ->].
  apply bind_Ret_inv in H as ([] & w1 & _ & H).
  apply bind_Ret_inv in H as (d & wa & Hr & H).
  apply read_Ret_inv in Hr as [-> ->].
  destruct (truthy (data w1)) eqn:Hdata; cbn [negb] in H.
  2:{ apply ret_Ret_inv in H as [-> ->]. exact Hdata. }
  apply bind_Ret_inv in H as (appointments & wa & Hr & H).
  apply lift_Ret_inv in Hr as [Happ ->].
  assert (Hsome : forall l, last = Some l -> w' = w1 ->
             l = last_per_spec (listed appointments) (today w1) ->
             match last with
             | None => truthy (data w') = false
             | Some l =>
                 truthy (data w') = true
                 /\ exists appointments,
                      get (data w') "appointments" (JArr []) = Ok appointments
                      /\ l = last_per_spec (listed appointments) (today w')
             end).
  { intros l -> -> ->. split; [exact Hdata |]. eauto. }
  unfold listed in Hsome.
  destruct (truthy appointments) eqn:Htruthy; cbn [negb] in H.
  2:{ apply bind_Ret_inv in H as (l & wa & Hl & H).
      apply sixty_days_ago_inv in Hl as [-> ->].
      apply ret_Ret_inv in H as [-> ->]. eapply Hsome; reflexivity. }
  apply bind_Ret_inv in H as (n & wa & Hr & H).
  apply lift_Ret_inv in Hr as [_ ->].
  apply bind_Ret_inv in H as (items & wa & Hr & H).
  apply lift_Ret_inv in Hr as [Hiter ->].
  apply bind_Ret_inv in H as ([] & wa & Hr & H).
  apply lift_Ret_inv in Hr as [Hlog ->].
  rewrite Hiter in Hsome.
  unfold last_per_spec in Hsome.
  rewrite (parse_after_log _ Hlog) in H.
  destruct (parseable_dates items) as [| first others].
  - change (try_catch (bind sixty_days_ago (fun l => ret (Some l)))
              any_Exception
              (fun _ => bind sixty_days_ago (fun l => ret (Some l))) w1
            = Ret last w') in H.
    unfold try_catch, bind, any_Exception in H.
    destruct (sixty_days_ago w1) as [l wb | e wb | wb] eqn:Hl.
    + apply sixty_days_ago_inv in Hl as [-> ->].
      unfold ret in H. inversion H; subst. eapply Hsome; reflexivity.
    + rewrite (sixty_days_ago_Exc _ _ _ Hl), Hl in H. discriminate.
    + discriminate.
  - change (Ret (Some (max_date first others)) w1 = Ret last w') in H.
    inversion H; subst. eapply Hsome; reflexivity.
Qed.

Lemma get_last_donation_date_fresh fuel w appointments :
  truthy (data w) = true ->
  last_update_success w = true ->
  get (data w) "appointments" (JArr []) = Ok appointments ->
  (truthy appointments = true ->
   exists items, iter appointments = Ok items
                 /\ log_appointments items = Ok tt) ->
  60 < today w <= MAXORDINAL ->
  get_last_donation_date fuel w
  = Ret (Some (last_per_spec (listed appointments) (today w))) w.
Proof.
  intros Hdata Hok Hget Hitems Htoday.
  assert (Hsixty : sixty_days_ago w = Ret (today w - 60) w).
  { unfold sixty_days_ago, bind, read.
    change (timedelta_days 60) with (Ok (60 * day_us)).
    cbn [rbind]. unfold date_sub.
    replace (- (60 * day_us)) with ((-60) * day_us) by ring.
    rewrite date_add_days.
    replace ((0 <? today w + -60) && (today w + -60 <=? MAXORDINAL)) with true.
    - unfold lift, ret. f_equal.
    - symmetry. apply andb_true_iff.
      split; [apply Z.ltb_lt | apply Z.leb_le]; lia. }
  unfold get_last_donation_date.
  unfold bind at 1. unfold read at 1.
  unfold bind at 1. unfold read at 1.
  rewrite Hdata, Hok. cbn [negb orb].
  unfold bind at 1. unfold ret at 1.
  unfold bind at 1. unfold read at 1. rewrite Hdata. cbn [negb].
  rewrite Hget. unfold bind at 1. cbn [lift]. unfold ret at 1.
  unfold listed, last_per_spec.
  destruct (truthy appointments) eqn:Htruthy; cbn [negb].
  2:{ unfold bind. rewrite Hsixty. reflexivity. }
  destruct (Hitems eq_refl) as (items & Hiter & Hlog).
  assert (Hlen : exists n, len appointments = Ok n).
  { destruct appointments; try discriminate; cbn; eauto. }
  destruct Hlen as (n & Hlen).
  rewrite Hlen, Hiter. unfold bind at 1. cbn [lift]. unfold ret at 1.
  unfold bind at 1. cbn [lift]. unfold ret at 1.
  rewrite Hlog. unfold bind at 1. cbn [lift]. unfold ret at 1.
  unfold try_catch. unfold bind at 1.
  rewrite (parse_after_log _ Hlog). cbn [lift]. unfold ret at 1.
  destruct (parseable_dates items) as [| first others].
  - unfold bind. rewrite Hsixty. reflexivity.
  - reflexivity.
Qed.

Lemma fold_left_max_spec ds d :
  let m := fold_left Z.max ds d in
  In m (d :: ds) /\ forall x, In x (d :: ds) -> x <= m.
Proof.
  revert d. induction ds as [| y ds IH]; intros d; cbn [fold_left].
  - split; [left; reflexivity |]. intros x [<- | []]. lia.
  - destruct (IH (Z.max d y)) as (Hin & Hmax). split.
    + destruct Hin as [Hin | Hin]; [| right; right; exact Hin].
      rewrite <- Hin.
      destruct (Z.max_spec d y) as [[_ E] | [_ E]]; rewrite E;
        [right; left | left]; reflexivity.
    + intros x [<- | [<- | Hx]].
      * specialize (Hmax (Z.max d y) (or_introl eq_refl)). lia.
      * specialize (Hmax (Z.max d y) (or_introl eq_refl)). lia.
      * apply Hmax. right. exact Hx.
Qed.

Lemma earliest_allowed_inv last m today e :
  earliest_allowed last m today = Ok e ->
  e = match last with
      | Some l => Z.max (l + m) today
      | None => today
      end.
Proof.
  unfold earliest_allowed. destruct last as [l |]; cbn [rbind].
  - unfold timedelta_days.
    destruct ((-999999999 <=? m) && (m <=? 999999999)); [| discriminate].
    cbn [rbind]. rewrite date_add_days.
    destruct ((0 <? l + m) && (l + m <=? MAXORDINAL)); [| discriminate].
    cbn [rbind]. intros H; inversion H; reflexivity.
  - intros H; inversion H. lia.
Qed.

Lemma earliest_allowed_value last m today :
  -999999999 <= m <= 999999999 ->
  0 < last + m <= MAXORDINAL ->
  earliest_allowed (Some last) m today = Ok (Z.max (last + m) today).
Proof.
  intros Hm Hr. unfold earliest_allowed, timedelta_days.
  replace ((-999999999 <=? m) && (m <=? 999999999)) with true
    by (symmetry; apply andb_true_iff; split; apply Z.leb_le; lia).
  cbn [rbind]. rewrite date_add_days.
  replace ((0 <? last + m) && (last + m <=? MAXORDINAL)) with true;
    [reflexivity |].
  symmetry; apply andb_true_iff; split; [apply Z.ltb_lt | apply Z.leb_le]; lia.
Qed.




(** ** C9: the update scheduler *)

Section SchedulerFacts.
Import Scheduler.

Lemma set_update_interval_spec interval c :
  update_interval (_set_update_interval interval c) = interval
  /\ _next_appointment_datetime (_set_update_interval interval c)
     = _next_appointment_datetime c
  /\ scheduled_refreshes (_set_update_interval interval c)
     = if update_interval c =? interval then scheduled_refreshes c
       else S (scheduled_refreshes c).
Proof.
  unfold _set_update_interval.
  destruct (Z.eqb_spec (update_interval c) interval) as [E | E]; cbn; auto.
Qed.

(** Whatever the data, the scheduler ends in one call of
    [_set_update_interval]. *)
Lemma adjust_sets_interval data now c :
  exists interval c0,
    _adjust_update_interval data now c = _set_update_interval interval c0
    /\ update_interval c0 = update_interval c
    /\ scheduled_refreshes c0 = scheduled_refreshes c.
Proof.
  unfold _adjust_update_interval.
  destruct (get data "appointments" (JArr [])) as [appointments | e];
    cbn [rbind]; [| eauto].
  destruct (negb (truthy appointments)); [eauto |].
  destruct (get_next_appointment appointments) as [[apt |] | e];
    cbn [rbind]; [| eauto | eauto].
  destruct (appointment_datetime_of apt) as [[d at_] | e]; cbn [rbind rcatch].
  - exists (interval_for d at_ now), (remember_appointment at_ c). auto.
  - destruct (is_ValueError_TypeError_KeyError e); eauto.
Qed.

Lemma with_keys_spec items keyed :
  with_keys items = Ok keyed ->
  keyed = map (fun x => (combine (date_key x) 0, x)) items.
Proof.
  revert keyed. induction items as [| x rest IH]; intros keyed H.
  - inversion H. reflexivity.
  - cbn [with_keys] in H. unfold date_key. cbn [map].
    destruct (session_date_of x) as [d |]; [| discriminate].
    cbn [rbind] in H.
    destruct (with_keys rest) as [others |]; [| discriminate].
    cbn [rbind] in H. inversion H. rewrite (IH others eq_refl). reflexivity.
Qed.

Lemma first_minimum_keyed items apt k :
  first_minimum fst (map (fun x => (combine (date_key x) 0, x)) items) (k, apt) ->
  first_minimum date_key items apt.
Proof.
  intros (pre & post & E & Hpre & Hpost).
  apply map_eq_app in E as (pre' & rest & -> & <- & E).
  apply map_eq_cons in E as (x & post' & -> & Ex & <-).
  inversion Ex; subst x k.
  assert (Hday : 0 < day_us) by (unfold day_us, hour_us, second_us; lia).
  exists pre', post'. split; [reflexivity |]. split.
  - intros y Hy.
    specialize (Hpre _ (in_map (fun x => (combine (date_key x) 0, x)) _ _ Hy)).
    cbn in Hpre. unfold combine in Hpre. nia.
  - intros y Hy.
    specialize (Hpost _ (in_map (fun x => (combine (date_key x) 0, x)) _ _ Hy)).
    cbn in Hpost. unfold combine in Hpost. nia.
Qed.

Lemma get_next_appointment_spec appointments items keyed :
  truthy appointments = true ->
  iter appointments = Ok items ->
  with_keys items = Ok keyed ->
  exists apt,
    get_next_appointment appointments = Ok (Some apt)
    /\ first_minimum date_key items apt.
Proof.
  intros Ht Hi Hk. unfold get_next_appointment.
  rewrite Ht, Hi. cbn [negb rbind]. rewrite Hk. cbn [rbind].
  pose proof (with_keys_spec _ _ Hk) as Hmap.
  destruct (sort_by fst keyed) as [| [k apt] t] eqn:Hs.
  - exfalso.
    assert (Hne : items <> []).
    { destruct appointments as [| | | s | l | m]; try discriminate;
        cbn in Hi; inversion Hi; subst items; intros E.
      - destruct s; [discriminate | discriminate].
      - subst l. discriminate.
      - destruct m; discriminate. }
    destruct items as [| x rest]; [contradiction |].
    subst keyed. cbn [map] in Hs.
    assert (Hin : In (combine (date_key x) 0, x)
                    (sort_by fst ((combine (date_key x) 0, x)
                                  :: map (fun x => (combine (date_key x) 0, x))
                                       rest)))
      by (apply sort_by_In; left; reflexivity).
    rewrite Hs in Hin. destruct Hin.
  - cbn [rcatch]. exists apt. split; [reflexivity |].
    apply sort_by_head in Hs. subst keyed.
    eapply first_minimum_keyed; eassumption.
Qed.

Lemma with_keys_fails items x e :
  In x items -> session_date_of x = Raise e ->
  exists e', with_keys items = Raise e'.
Proof.
  induction items as [| y rest IH]; intros Hin Hx; [destruct Hin |].
  cbn [with_keys].
  destruct (session_date_of y) as [d | e0] eqn:Hy; cbn [rbind]; [| eauto].
  destruct Hin as [-> | Hin]; [congruence |].
  destruct (IH Hin Hx) as (e' & ->). cbn [rbind]. eauto.
Qed.

(** An appointment list in which a date does not parse, and an
    appointment whose time does not parse, give the standard interval. *)
Lemma adjust_unparsable data now c appointments :
  get data "appointments" (JArr []) = Ok appointments ->
  (forall items x e,
      iter appointments = Ok items -> In x items ->
      session_date_of x = Raise e ->
      update_interval (_adjust_update_interval data now c)
      = STANDARD_SCAN_INTERVAL)
  /\ (forall apt e,
         truthy appointments = true ->
         get_next_appointment appointments = Ok (Some apt) ->
         appointment_datetime_of apt = Raise e ->
         update_interval (_adjust_update_interval data now c)
         = STANDARD_SCAN_INTERVAL).
Proof.
  intros Hget. split.
  - intros items x e Hiter Hin Hx.
    unfold _adjust_update_interval. rewrite Hget. cbn [rbind].
    destruct (truthy appointments) eqn:Ht; cbn [negb];
      [| apply set_update_interval_spec].
    unfold get_next_appointment. rewrite Ht, Hiter. cbn [negb rbind].
    destruct (with_keys_fails _ _ _ Hin Hx) as (e' & ->).
    cbn [rbind rcatch].
    destruct (is_parse_error e'); cbn [rbind]; apply set_update_interval_spec.
  - intros apt e Ht Hnext Hwhen.
    unfold _adjust_update_interval. rewrite Hget. cbn [rbind].
    rewrite Ht. cbn [negb]. rewrite Hnext. cbn [rbind]. rewrite Hwhen.
    cbn [rbind rcatch].
    destruct (is_ValueError_TypeError_KeyError e);
      apply set_update_interval_spec.
Qed.

Lemma interval_for_table d at_ now :
  (d = date_of now -> - (8 * hour_us) <= at_ - now ->
   interval_for d at_ now = APPOINTMENT_SCAN_INTERVAL)
  /\ (d = date_of now -> at_ - now < - (8 * hour_us) ->
      interval_for d at_ now = STANDARD_SCAN_INTERVAL)
  /\ (d <> date_of now -> 0 <= at_ - now <= 4 * hour_us ->
      interval_for d at_ now = APPOINTMENT_SCAN_INTERVAL)
  /\ (d <> date_of now -> 4 * hour_us < at_ - now ->
      interval_for d at_ now = STANDARD_SCAN_INTERVAL).
Proof.
  assert (Hh : 0 < hour_us) by (unfold hour_us, second_us; lia).
  unfold interval_for.
  destruct (Z.eqb_spec d (date_of now)) as [E | E];
    destruct (Z.gtb_spec (at_ - now) (1 * hour_us));
    destruct (Z.geb_spec (at_ - now) (- (8 * hour_us)));
    destruct (Z.leb_spec (at_ - now) (4 * hour_us));
    repeat split; intros; try reflexivity; try contradiction; lia.
Qed.

End SchedulerFacts.

(** C9, as the code has it.  The scheduler takes the first-listed
    appointment with the least date (the time of day plays no part in
    the choice); its time of day, or noon when it has none, then fixes
    the moment the interval is computed from.  No appointments, or a
    list with a date that does not parse: standard interval.  Appointment
    today and not more than eight hours past:
    hourly; today and more than eight hours past: standard.  Appointment
    on another day and between now and four hours from now: hourly; more
    than four hours from now: standard.  The timer is rescheduled exactly
    when the interval changes. *)
Theorem update_interval_rule :
  (forall data now c,
      let c' := Scheduler._adjust_update_interval data now c in
      (Scheduler.update_interval c' = Scheduler.update_interval c
       /\ Scheduler.scheduled_refreshes c' = Scheduler.scheduled_refreshes c)
      \/ (Scheduler.update_interval c' <> Scheduler.update_interval c
          /\ Scheduler.scheduled_refreshes c'
             = S (Scheduler.scheduled_refreshes c)))
  /\ (forall data now c appointments,
         get data "appointments" (JArr []) = Ok appointments ->
         truthy appointments = false ->
         Scheduler.update_interval
           (Scheduler._adjust_update_interval data now c)
         = Scheduler.STANDARD_SCAN_INTERVAL)
  /\ (forall data now c appointments items x e,
         get data "appointments" (JArr []) = Ok appointments ->
         iter appointments = Ok items ->
         In x items ->
         Scheduler.session_date_of x = Raise e ->
         Scheduler.update_interval
           (Scheduler._adjust_update_interval data now c)
         = Scheduler.STANDARD_SCAN_INTERVAL)
  /\ (forall data now c appointments items keyed,
         get data "appointments" (JArr []) = Ok appointments ->
         truthy appointments = true ->
         iter appointments = Ok items ->
         Scheduler.with_keys items = Ok keyed ->
         exists apt,
           Scheduler.get_next_appointment appointments = Ok (Some apt)
           /\ first_minimum date_key items apt
           /\ forall d at_,
                Scheduler.appointment_datetime_of apt = Ok (d, at_) ->
                let c' := Scheduler._adjust_update_interval data now c in
                Scheduler._next_appointment_datetime c' = Some at_
                /\ (d = date_of now -> - (8 * hour_us) <= at_ - now ->
                    Scheduler.update_interval c'
                    = Scheduler.APPOINTMENT_SCAN_INTERVAL)
                /\ (d = date_of now -> at_ - now < - (8 * hour_us) ->
                    Scheduler.update_interval c'
                    = Scheduler.STANDARD_SCAN_INTERVAL)
                /\ (d <> date_of now -> 0 <= at_ - now <= 4 * hour_us ->
                    Scheduler.update_interval c'
                    = Scheduler.APPOINTMENT_SCAN_INTERVAL)
                /\ (d <> date_of now -> 4 * hour_us < at_ - now ->
                    Scheduler.update_interval c'
                    = Scheduler.STANDARD_SCAN_INTERVAL)).
Proof.
  split; [| split; [| split]].
  - intros data now c c'. subst c'.
    destruct (adjust_sets_interval data now c) as (interval & c0 & -> & Hu & Hs).
    destruct (set_update_interval_spec interval c0) as (Hi & _ & Hr).
    rewrite Hi, Hr, Hs, Hu.
    destruct (Z.eqb_spec (Scheduler.update_interval c) interval) as [E | E];
      [left | right]; split; congruence.
  - intros data now c appointments Hget Hfalsy.
    unfold Scheduler._adjust_update_interval.
    rewrite Hget. cbn [rbind]. rewrite Hfalsy. cbn [negb].
    apply set_update_interval_spec.
  - intros data now c appointments items x e Hget Hiter Hin Hx.
    destruct (adjust_unparsable data now c appointments Hget) as (Hdate & _).
    eapply Hdate; eassumption.
  - intros data now c appointments items keyed Hget Htruthy Hiter Hkeys.
    destruct (get_next_appointment_spec _ _ _ Htruthy Hiter Hkeys)
      as (apt & Hnext & Hmin).
    exists apt. split; [exact Hnext |]. split; [exact Hmin |].
    intros d at_ Hwhen c'. subst c'.
    unfold Scheduler._adjust_update_interval.
    rewrite Hget. cbn [rbind]. rewrite Htruthy. cbn [negb].
    rewrite Hnext. cbn [rbind]. rewrite Hwhen. cbn [rbind rcatch].
    destruct (set_update_interval_spec
                (Scheduler.interval_for d at_ now)
                (Scheduler.remember_appointment at_ c)) as (Hi & Hn & _).
    rewrite Hi, Hn. split; [reflexivity |].
    apply interval_for_table.
Qed.

Lemma update_interval_rule_witness :
  Scheduler.update_interval
    (Scheduler._adjust_update_interval
       (snapshot [appointment_at "2024-03-02T00:00:00" "T0100"]) evening
       routine)
  = Scheduler.APPOINTMENT_SCAN_INTERVAL
  /\ Scheduler.update_interval
       (Scheduler._adjust_update_interval (snapshot []) evening routine)
     = Scheduler.STANDARD_SCAN_INTERVAL.
Proof.
  destruct update_interval_rule as (_ & Hnone & _ & Hsome).
  split.
  - destruct (Hsome (snapshot [appointment_at "2024-03-02T00:00:00" "T0100"])
                evening routine
                (JArr [appointment_at "2024-03-02T00:00:00" "T0100"])
                [appointment_at "2024-03-02T00:00:00" "T0100"]
                [(combine (friday + 1) 0,
                  appointment_at "2024-03-02T00:00:00" "T0100")]
                eq_refl eq_refl eq_refl eq_refl)
      as (apt & Hnext & _ & Hrule).
    vm_compute in Hnext. inversion Hnext; subst apt.
    destruct (Hrule (friday + 1) (combine (friday + 1) (1 * hour_us)) eq_refl)
      as (_ & _ & _ & Hnear & _).
    apply Hnear; [vm_compute; discriminate | vm_compute; split; discriminate].
  - apply (Hnone (snapshot []) evening routine (JArr [])); reflexivity.
Defined.

(** Two appointments on the same day, the later one listed first, at ten
    in the evening of the day before: the scheduler takes the first
    listed, at 15:00, and stays on the standard interval, although the
    soonest appointment, at 01:00, is three hours away. *)
Lemma same_day_order_decides :
  Scheduler.update_interval
    (Scheduler._adjust_update_interval
       (snapshot [appointment_at "2024-03-02T00:00:00" "T1500";
                  appointment_at "2024-03-02T00:00:00" "T0100"])
       evening routine)
  = Scheduler.STANDARD_SCAN_INTERVAL
  /\ interval_per_spec
       [appointment_at "2024-03-02T00:00:00" "T1500";
        appointment_at "2024-03-02T00:00:00" "T0100"] evening
     = Scheduler.APPOINTMENT_SCAN_INTERVAL
  /\ Scheduler.STANDARD_SCAN_INTERVAL <> Scheduler.APPOINTMENT_SCAN_INTERVAL.
Proof.
  split; [reflexivity |]. split; [reflexivity | discriminate].
Qed.

(** An appointment on an earlier day is "at most four hours ahead" for
    the comparison of the source, which has no lower bound: the
    scheduler polls hourly for an appointment of seven weeks ago. *)
Example past_appointment_polls_hourly :
  Scheduler.update_interval
    (Scheduler._adjust_update_interval
       (snapshot [appointment_at "2024-01-10T00:00:00" "T0900"]) morning
       routine)
  = Scheduler.APPOINTMENT_SCAN_INTERVAL.
Proof. reflexivity. Qed.

(* ===================================================================== *)
(** * Further properties of the sources *)
(* ===================================================================== *)

Import Notions Cases.

(** ** [validate_day_of_week] *)

Lemma day_index_known d i :
  day_index d DAYS_OF_WEEK = Some i -> In (d, i) DAYS_OF_WEEK.
Proof.
  unfold DAYS_OF_WEEK. cbn [day_index].
  repeat match goal with
  | |- context [String.eqb d ?k] =>
      destruct (String.eqb_spec d k) as [-> | _];
        [intros H; inversion H; subst; cbn; tauto |]
  end.
  discriminate.
Qed.

(** X1.  [validate_day_of_week] passes [None] through; a name is
    accepted whatever its case and returned in lower case, exactly when
    the lower-case name is a key of [DAYS_OF_WEEK], and it is rejected
    with [vol.Invalid] otherwise.  What it returns is a fixed point of
    the validator, and the lookup [DAYS_OF_WEEK[day_of_week]] the service
    performs on it finds an index from 0 to 6; for a rejected name the
    lookup would raise [KeyError]. *)
Theorem validate_day_of_week_outcome v :
  validate_day_of_week None = Ok None
  /\ ((exists i,
         validate_day_of_week (Some v) = Ok (Some (str_lower v))
         /\ days_of_week_item (str_lower v) = Ok i
         /\ 0 <= i <= 6
         /\ validate_day_of_week (Some (str_lower v))
            = Ok (Some (str_lower v)))
      \/ (validate_day_of_week (Some v) = Raise Invalid
          /\ days_of_week_item (str_lower v) = Raise KeyError)).
Proof.
  split; [reflexivity |].
  destruct (day_index (str_lower v) DAYS_OF_WEEK) as [i |] eqn:E.
  - left. exists i.
    split; [unfold validate_day_of_week; rewrite E; reflexivity |].
    split; [unfold days_of_week_item; rewrite E; reflexivity |].
    apply day_index_known in E. cbn in E.
    repeat (destruct E as [E | E];
            [inversion E; split; [lia | reflexivity] |]).
    contradiction.
  - right. unfold validate_day_of_week, days_of_week_item. rewrite E.
    split; reflexivity.
Qed.

(** ** [normalize_time], once more *)

Section NormalizeTimeMore.

Lemma str_remove_is_colon_free s : colon_free (str_remove colon s).
Proof.
  unfold colon_free. induction s as [| a s IH]; [reflexivity |].
  simpl. destruct (Ascii.eqb a colon) eqn:E; [exact IH |].
  simpl. rewrite E. exact IH.
Qed.

Lemma str_repeat_zero_colon_free n : colon_free (str_repeat zero_char n).
Proof. unfold colon_free. induction n; simpl; auto. Qed.

Lemma zfill_colon_free n s : colon_free s -> colon_free (zfill n s).
Proof.
  intros H. unfold zfill. destruct (n <=? String.length s)%nat; [exact H |].
  destruct s as [| a s']; [apply str_repeat_zero_colon_free |].
  apply colon_free_cons in H as [Ha Hs].
  unfold colon_free in *.
  destruct (is_sign a); simpl; rewrite ?Ha; simpl;
    rewrite str_count_app, (str_repeat_zero_colon_free _); simpl;
    rewrite ?Ha; simpl; exact Hs.
Qed.

Lemma str_take_drop n s : (str_take n s ++ str_drop n s)%string = s.
Proof.
  revert s. induction n as [| n IH]; intros [| a s]; simpl; try reflexivity.
  rewrite IH. reflexivity.
Qed.

Lemma colon_free_take_drop n s :
  colon_free s -> colon_free (str_take n s) /\ colon_free (str_drop n s).
Proof.
  unfold colon_free. intros H.
  rewrite <- (str_take_drop n s), str_count_app in H. lia.
Qed.

Lemma zfill_enough n s : (n <= String.length s)%nat -> zfill n s = s.
Proof.
  intros H. unfold zfill. apply Nat.leb_le in H. rewrite H. reflexivity.
Qed.

Lemma str_remove_app c a b :
  str_remove c (a ++ b) = (str_remove c a ++ str_remove c b)%string.
Proof.
  induction a as [| x a IH]; simpl; [reflexivity |].
  destruct (Ascii.eqb x c); simpl; rewrite IH; reflexivity.
Qed.

(** What [normalize_time] returns for a text: a colon after the first two
    characters of a text without colon of at least four characters. *)
Lemma normalize_time_shape t :
  exists z,
    normalize_time (Some t) = (str_take 2 z ++ ":" ++ str_drop 2 z)%string
    /\ colon_free z /\ (4 <= String.length z)%nat.
Proof.
  unfold normalize_time.
  match goal with
  | |- context [zfill 4 (str_remove colon ?u)] =>
      exists (zfill 4 (str_remove colon u))
  end.
  split; [reflexivity |]. split; [| apply zfill_length].
  apply zfill_colon_free, str_remove_is_colon_free.
Qed.

End NormalizeTimeMore.

(** X2.  [normalize_time] is idempotent: what it returns, it returns
    unchanged when it is applied again (the service normalises the target
    time before the schema sees it, and the result is what is parsed). *)
Theorem normalize_time_idempotent t :
  normalize_time (Some (normalize_time t)) = normalize_time t.
Proof.
  assert (Hfix : forall z, colon_free z -> (4 <= String.length z)%nat ->
            normalize_time (Some (str_take 2 z ++ ":" ++ str_drop 2 z)%string)
            = (str_take 2 z ++ ":" ++ str_drop 2 z)%string).
  { intros z Hz Hl.
    destruct (colon_free_take_drop 2 z Hz) as [Ha Hb].
    unfold normalize_time.
    assert (H1 : str_count colon (str_take 2 z ++ ":" ++ str_drop 2 z) = 1%nat).
    { rewrite !str_count_app. unfold colon_free in Ha, Hb.
      rewrite Ha, Hb. reflexivity. }
    rewrite H1. cbn [Nat.eqb].
    rewrite !str_remove_app, (str_remove_colon_free _ Ha),
      (str_remove_colon_free _ Hb).
    change (str_remove colon ":") with EmptyString.
    cbn [String.append]. rewrite str_take_drop, (zfill_enough 4 z Hl).
    reflexivity. }
  destruct t as [t |]; [| reflexivity].
  destruct (normalize_time_shape t) as (z & -> & Hz & Hl).
  apply Hfix; assumption.
Qed.


(** X3.  Every time of day from 00:00 to 23:59 is read as itself by
    [normalize_time] followed by the parsing of the service
    ([split(":")], [int], [time(hour, minute)]) in each of its
    spellings: [HH:MM], [HHMM], [HH:MM:00] and, for an hour below ten,
    [H:MM] and [HMM]. *)
Theorem target_time_spellings h m s :
  0 <= h <= 23 -> 0 <= m <= 59 -> In s (spellings h m) ->
  parse_target_time (normalize_time (Some s)) = make_time h m
  /\ make_time h m = Ok ((h * 60 + m) * 60 * second_us).
Proof.
  intros Hh Hm Hs.
  assert (Hall : forallb (fun h => forallb (fun m =>
                   forallb (reads_as h m) (spellings h m)) (upto 60))
                   (upto 24) = true)
    by (vm_compute; reflexivity).
  rewrite forallb_forall in Hall.
  specialize (Hall h (upto_In 24 h ltac:(lia))).
  rewrite forallb_forall in Hall.
  specialize (Hall m (upto_In 60 m ltac:(lia))).
  rewrite forallb_forall in Hall. specialize (Hall s Hs).
  unfold reads_as in Hall.
  destruct (parse_target_time (normalize_time (Some s))) as [t |];
    [| discriminate].
  destruct (make_time h m) as [t' |]; [| discriminate].
  apply andb_true_iff in Hall as [H1 H2].
  apply Z.eqb_eq in H1, H2. subst t'. split; [reflexivity |].
  f_equal. exact H2.
Qed.

Lemma target_time_spellings_witness :
  parse_target_time (normalize_time (Some "9:05")) = make_time 9 5
  /\ make_time 9 5 = Ok ((9 * 60 + 5) * 60 * second_us).
Proof.
  apply (target_time_spellings 9 5 "9:05"); [lia | lia |].
  vm_compute. tauto.
Defined.

(** ** The tolerance window *)

(** X4.  The tolerance window is the interval of [tolerance] around the
    target time cut down to the target date: it starts at the later of
    [target - tolerance] and 00:00:00 and ends at the earlier of
    [target + tolerance] and 23:59:59 of that date.  So it holds the
    target time and both of its ends lie on the target date, whatever
    the tolerance. *)
Theorem time_window_within_target_date d t tol tdt s e :
  0 <= t <= end_of_day -> 0 <= tol ->
  time_window d t tol = Ok (tdt, s, e) ->
  tdt = combine d t
  /\ s = Z.max (tdt - tol) (combine d 0)
  /\ e = Z.min (tdt + tol) (combine d end_of_day)
  /\ s <= tdt <= e
  /\ date_of s = d /\ date_of e = d.
Proof.
  intros Ht Htol H. unfold time_window in H.
  unfold datetime_sub, datetime_add in H.
  destruct ((0 <? date_of (combine d t + - tol))
            && (date_of (combine d t + - tol) <=? MAXORDINAL));
    cbn [rbind] in H; [| discriminate].
  destruct ((0 <? date_of (combine d t + tol))
            && (date_of (combine d t + tol) <=? MAXORDINAL));
    cbn [rbind] in H; [| discriminate].
  inversion H; subst tdt s e; clear H.
  replace (combine d t + - tol) with (combine d t - tol) by lia.
  split; [reflexivity |]. split; [reflexivity |]. split; [reflexivity |].
  assert (Hday : 0 < day_us) by (vm_compute; reflexivity).
  assert (Heod : end_of_day < day_us) by (vm_compute; reflexivity).
  unfold combine, date_of in *.
  split; [lia |].
  split.
  - symmetry.
    apply Z.div_unique
      with (r := Z.max (d * day_us + t - tol) (d * day_us + 0) - d * day_us);
      lia.
  - symmetry.
    apply Z.div_unique
      with (r := Z.min (d * day_us + t + tol) (d * day_us + end_of_day)
                 - d * day_us);
      lia.
Qed.

Lemma time_window_within_target_date_witness :
  time_window friday late_evening (2 * hour_us)
  = Ok (combine friday late_evening,
        combine friday (late_evening - 2 * hour_us),
        combine friday end_of_day)
  /\ date_of (combine friday end_of_day) = friday.
Proof.
  split; [reflexivity |].
  apply (time_window_within_target_date friday late_evening (2 * hour_us)
           (combine friday late_evening)
           (combine friday (late_evening - 2 * hour_us))
           (combine friday end_of_day));
    [vm_compute; split; discriminate | vm_compute; discriminate
    | reflexivity].
Defined.

(** ** From a kept slot to the appointment of the response *)

Section KeptSlot.

(** A text [int] accepts holds no colon. *)
Lemma digits_value_colon_free s acc b v :
  digits_value s acc b = Some v -> colon_free s.
Proof.
  revert acc b. induction s as [| a s IH]; intros acc b H; [reflexivity |].
  unfold colon_free. simpl in *.
  destruct (Ascii.eqb_spec a colon) as [-> | _].
  - vm_compute in H. destruct b; discriminate.
  - destruct (digit_val a).
    + exact (IH _ _ H).
    + destruct (Ascii.eqb a "_" && b); [exact (IH _ _ H) | discriminate].
Qed.

Lemma lstrip_colon s : colon_free (lstrip s) -> colon_free s.
Proof.
  induction s as [| a s IH]; [auto |].
  simpl. destruct (is_space a) eqn:E; [| auto].
  intros H. unfold colon_free. simpl.
  destruct (Ascii.eqb_spec a colon) as [-> | _]; [discriminate E |].
  exact (IH H).
Qed.

Lemma rstrip_colon s : colon_free (rstrip s) -> colon_free s.
Proof.
  induction s as [| a s IH]; [auto |].
  simpl. unfold colon_free in *. simpl.
  destruct (rstrip s) as [| b r] eqn:Er.
  - destruct (is_space a) eqn:E; simpl.
    + intros _. destruct (Ascii.eqb_spec a colon) as [-> | _];
        [discriminate E |]. apply IH. reflexivity.
    + destruct (Ascii.eqb a colon); [discriminate |].
      intros _. apply IH. reflexivity.
  - simpl. destruct (Ascii.eqb a colon); [discriminate |].
    simpl. exact IH.
Qed.

Lemma int_of_str_colon_free s n : int_of_str s = Ok n -> colon_free s.
Proof.
  unfold int_of_str. intros H.
  apply lstrip_colon, rstrip_colon.
  destruct (rstrip (lstrip s)) as [| a t] eqn:Et.
  - reflexivity.
  - destruct (Ascii.eqb_spec a "-") as [-> | Hm].
    + destruct (digits_value t 0 false) eqn:Ed; [| discriminate].
      apply digits_value_colon_free in Ed. exact Ed.
    + destruct (Ascii.eqb_spec a "+") as [-> | Hp].
      * destruct (digits_value t 0 false) eqn:Ed; [| discriminate].
        apply digits_value_colon_free in Ed. exact Ed.
      * destruct (digits_value (String a t) 0 false) eqn:Ed; [| discriminate].
        apply digits_value_colon_free in Ed. exact Ed.
Qed.

Lemma str_split_two a b :
  colon_free a -> colon_free b ->
  str_split colon (a ++ ":" ++ b) = [a; b].
Proof.
  intros Ha Hb.
  change (a ++ ":" ++ b)%string with (a ++ String colon b)%string.
  rewrite (str_split_field a b Ha), (str_split_colon_free b Hb). reflexivity.
Qed.

End KeptSlot.

(** X5.  A slot that the window filter keeps always yields the
    appointment of the response: [best_slot["time"]] is present (a slot
    without [time] is never kept), so building the appointment raises
    nothing.  The appointment carries the session the slot came from and
    the slot's distance to the target, and the time it shows, [HH:MM],
    read back by the parser of target times, is the time the slot was
    ranked with. *)
Theorem kept_slot_becomes_appointment td tdt sdt edt sid sdate slot c p :
  slot_candidate td tdt sdt edt sid sdate slot = Ok (Some c) ->
  exists a,
    appointment_of p c = Ok a
    /\ getitem slot "time" = Ok (ap_session_time a)
    /\ ap_session_id a = sid
    /\ ap_session_date a = sdate
    /\ ap_time_difference a = Z.abs (c_slot_datetime c - tdt)
    /\ exists t,
         parse_target_time (ap_time a) = Ok t
         /\ combine td t = c_slot_datetime c.
Proof.
  unfold slot_candidate, appointment_of.
  destruct (slot_time_str slot) as [s |] eqn:Hs; [| discriminate].
  cbn [rbind].
  destruct (4 <=? String.length s)%nat eqn:Hl; [| discriminate].
  destruct (int_of_str (str_take 2 s)) as [h |] eqn:Hh; cbn [rbind rcatch];
    [| destruct (is_ValueError_or_TypeError e); discriminate].
  destruct (int_of_str (str_drop 2 s)) as [m |] eqn:Hm; cbn [rbind rcatch];
    [| destruct (is_ValueError_or_TypeError e); discriminate].
  destruct (make_time h m) as [t |] eqn:Ht; cbn [rbind rcatch];
    [| destruct (is_ValueError_or_TypeError e); discriminate].
  destruct ((sdt <=? combine td t) && (combine td t <=? edt)); [| discriminate].
  intros H. inversion H; subst c; clear H.
  cbn [c_slot c_session_id c_session_date c_slot_datetime c_time_difference].
  rewrite Hs. cbn [rbind]. rewrite Hl.
  unfold slot_time_str in Hs.
  destruct slot as [| | | | | members]; try discriminate.
  cbn [get rbind] in Hs.
  cbn [get getitem rbind].
  destruct (assoc "time" members) as [tv |] eqn:Ha.
  2:{ cbn in Hs. inversion Hs; subst s. discriminate Hl. }
  eexists. split; [reflexivity |].
  cbn [ap_session_time ap_session_id ap_session_date ap_time_difference
       ap_time].
  repeat split.
  exists t. split; [| reflexivity].
  unfold parse_target_time.
  rewrite (str_split_two _ _ (int_of_str_colon_free _ _ Hh)
             (int_of_str_colon_free _ _ Hm)).
  cbn [item nth_error rbind]. rewrite Hh. cbn [rbind]. rewrite Hm.
  cbn [rbind]. exact Ht.
Qed.

Lemma kept_slot_becomes_appointment_witness :
  exists c a,
    slot_candidate friday (combine friday (12 * hour_us))
      (combine friday (10 * hour_us)) (combine friday (14 * hour_us))
      (JStr "S1") (JStr "2024-03-01T00:00:00") (slot_at "T1220")
    = Ok (Some c)
    /\ appointment_of any_plan c = Ok a
    /\ ap_time a = "12:20"
    /\ parse_target_time (ap_time a) = Ok (12 * hour_us + 20 * 60 * second_us).
Proof.
  eexists. eexists. split; [vm_compute; reflexivity |].
  destruct (kept_slot_becomes_appointment friday
              (combine friday (12 * hour_us))
              (combine friday (10 * hour_us)) (combine friday (14 * hour_us))
              (JStr "S1") (JStr "2024-03-01T00:00:00") (slot_at "T1220")
              _ any_plan eq_refl)
    as (a & Ha & _).
  split; [vm_compute; reflexivity |].
  split; reflexivity.
Defined.

(** ** The responses of the booking helper *)

Section ReturnsFacts.
Context {A B : Type} (P : B -> Prop).

Lemma returns_ret (b : B) : P b -> Returns P (ret b).
Proof. intros H w a w' E. inversion E; subst. exact H. Qed.

Lemma returns_raise e : Returns P (@raise B e).
Proof. intros w a w' E. discriminate. Qed.

Lemma returns_bind (c : M A) (k : A -> M B) :
  (forall x, Returns P (k x)) -> Returns P (bind c k).
Proof.
  intros Hk w b w' E. apply bind_Ret_inv in E as (x & w1 & _ & E).
  exact (Hk x _ _ _ E).
Qed.

Lemma returns_try (c : M B) handles (h : exn -> M B) :
  Returns P c -> (forall e, Returns P (h e)) ->
  Returns P (try_catch c handles h).
Proof.
  intros Hc Hh w b w' E. unfold try_catch in E.
  destruct (c w) as [x w1 | e w1 | w1] eqn:Ec; try discriminate.
  - inversion E; subst. exact (Hc _ _ _ Ec).
  - destruct (handles e); [exact (Hh e _ _ _ E) | discriminate].
Qed.
End ReturnsFacts.

Lemma search_returns_consistent fuel p :
  Returns (fun r => consistent r = true) (search fuel p).
Proof.
  unfold search.
  repeat first
    [ apply returns_try; [| intros ? ]
    | apply returns_bind; intros ?
    | apply returns_ret; reflexivity
    | match goal with
      | |- Returns _ (if ?b then _ else _) => destruct b
      | |- Returns _ (match ?x with _ => _ end) => destruct x
      end ].
Qed.

(** X6.  Whatever the booking helper returns is a well-formed response:
    a success carries an appointment and no error, a failure carries an
    error.  A failure that still carries an appointment is the response
    of a booking that was attempted: the call asked for [auto_book]. *)
Theorem response_fields_agree fuel call w r w' :
  async_booking_helper_service fuel call w = Ret r w' ->
  consistent r = true
  /\ (appointment r <> None -> success r = false -> auto_book call = Some true).
Proof.
  intros H. unfold async_booking_helper_service in H.
  apply bind_Ret_inv in H as (pr & w1 & Hp & H).
  destruct pr as [r0 | p].
  - apply ret_Ret_inv in H as [<- _].
    apply prepare_Stop in Hp as (m & e & ->).
    split; [reflexivity |]. intros Ha. contradiction Ha. reflexivity.
  - split; [exact (search_returns_consistent fuel p _ _ _ H) |].
    intros Ha Hs.
    destruct (search_found _ _ _ _ _ H (or_intror Ha))
      as (a & wa & av & sl & wb & best & _ & _ & _ & _ & Hb).
    destruct (pl_auto_book p) eqn:Hauto.
    + apply prepare_Search in Hp
        as (v & Hv & _ & _ & _ & _ & _ & _ & _ & _ & Hab & _).
      rewrite Hauto in Hab.
      unfold SERVICE_SCHEMA_BOOKING_HELPER in Hv.
      destruct (venue_id call); [| discriminate].
      destruct (validate_day_of_week (target_day_of_week call));
        [| discriminate].
      cbn [rbind] in Hv. inversion Hv; subst v; clear Hv.
      cbn [v_auto_book] in Hab.
      destruct (auto_book call) as [[|] |]; try discriminate. reflexivity.
    + destruct Hb as [_ ->]. discriminate.
Qed.

Lemma response_fields_agree_witness :
  exists r w',
    async_booking_helper_service 3 book_on_friday
      (account (clinic 2 [slot_at "T1220"] "X") (JArr [])) = Ret r w'
    /\ consistent r = true
    /\ success r = false
    /\ appointment r <> None.
Proof.
  eexists. eexists. split; [vm_compute; reflexivity |].
  split.
  - refine (proj1 (response_fields_agree 3 book_on_friday
                     (account (clinic 2 [slot_at "T1220"] "X") (JArr []))
                     _ _ _)).
    vm_compute. reflexivity.
  - split; [reflexivity | discriminate].
Defined.


(** ** The notifications of the booking helper *)

Section UnseenFacts.
(** Events of a kind [p] that no request but a booking request and no
    refresh belongs to. *)
Context (p : event -> bool).
Hypothesis requests_unseen :
  forall q, is_booking (Sent q) = false -> p (Sent q) = false.
Hypothesis refresh_unseen : forall ok, p (Refreshed ok) = false.

Section Combinators.
Context {A B : Type}.

Lemma unseen_ret (a : A) : Unseen p (ret a).
Proof. intros w. reflexivity. Qed.

Lemma unseen_raise e : Unseen p (@raise A e).
Proof. intros w. reflexivity. Qed.

Lemma unseen_running : Unseen p (@running A).
Proof. intros w. reflexivity. Qed.

Lemma unseen_read (f : world -> A) : Unseen p (read f).
Proof. intros w. reflexivity. Qed.

Lemma unseen_lift (r : res A) : Unseen p (lift r).
Proof. intros w. destruct r; reflexivity. Qed.

Lemma unseen_bind (c : M A) (k : A -> M B) :
  Unseen p c -> (forall a, Unseen p (k a)) -> Unseen p (bind c k).
Proof.
  intros Hc Hk w. unfold bind. specialize (Hc w).
  destruct (c w) as [a w1 | e w1 | w1]; simpl in *; try assumption.
  rewrite <- Hc. apply Hk.
Qed.

Lemma unseen_try (c : M A) handles (h : exn -> M A) :
  Unseen p c -> (forall e, Unseen p (h e)) -> Unseen p (try_catch c handles h).
Proof.
  intros Hc Hh w. unfold try_catch. specialize (Hc w).
  destruct (c w) as [a w1 | e w1 | w1]; simpl in *; try assumption.
  destruct (handles e); simpl; [| assumption].
  rewrite <- Hc. apply Hh.
Qed.

Lemma unseen_transport (r : reply) (k : Z -> string -> M json -> M A) :
  (forall status text response_json,
      Unseen p response_json -> Unseen p (k status text response_json)) ->
  Unseen p (transport_failure r k).
Proof.
  intros Hk. destruct r as [status text body | | | status text]; simpl.
  - apply Hk. intros w. destruct body; reflexivity.
  - apply unseen_raise.
  - apply unseen_raise.
  - apply Hk. intros w. reflexivity.
Qed.

End Combinators.

Lemma unseen_send q : p (Sent q) = false -> Unseen p (send q).
Proof.
  intros Hq w. unfold send, count_events. cbn. rewrite Hq. reflexivity.
Qed.

Lemma unseen_json_of body : Unseen p (json_of body).
Proof. destruct body; [apply unseen_ret | apply unseen_raise]. Qed.

Lemma unseen_login : Unseen p login.
Proof.
  intros w.
  destruct (login_effects w) as ((_ & _ & He & _) & _).
  unfold count_events. rewrite He. cbn [filter].
  rewrite (requests_unseen ReqLogin eq_refl). reflexivity.
Qed.

Lemma unseen_get_account_details fuel : Unseen p (_get_account_details fuel).
Proof.
  induction fuel as [| f IH]; [apply unseen_running |].
  cbn [_get_account_details].
  repeat first
    [ exact IH | apply unseen_login
    | apply unseen_send; apply requests_unseen; reflexivity
    | assumption
    | apply unseen_ret | apply unseen_raise | apply unseen_read
    | apply unseen_lift
    | apply unseen_try; [| intros ?]
    | apply unseen_transport; intros ? ? ? ?
    | apply unseen_bind; [| intros ?]
    | match goal with
      | |- Unseen _ (if ?b then _ else _) => destruct b
      end ].
Qed.

Lemma unseen_get_awards fuel : Unseen p (_get_awards fuel).
Proof.
  induction fuel as [| f IH]; [apply unseen_running |].
  cbn [_get_awards].
  repeat first
    [ exact IH | apply unseen_login
    | apply unseen_send; apply requests_unseen; reflexivity
    | assumption
    | apply unseen_ret | apply unseen_raise | apply unseen_read
    | apply unseen_lift
    | apply unseen_try; [| intros ?]
    | apply unseen_transport; intros ? ? ? ?
    | apply unseen_bind; [| intros ?]
    | match goal with
      | |- Unseen _ (if ?b then _ else _) => destruct b
      end ].
Qed.

Lemma unseen_async_refresh fuel : Unseen p (async_refresh fuel).
Proof.
  assert (Hu : Unseen p (_async_update_data fuel)).
  { unfold _async_update_data, get_data.
    repeat first
      [ apply unseen_get_account_details | apply unseen_get_awards
      | apply unseen_login | apply unseen_ret | apply unseen_raise
      | apply unseen_read | apply unseen_lift
      | apply unseen_try; [| intros ?]
      | apply unseen_bind; [| intros ?]
      | match goal with
        | |- Unseen _ (if ?b then _ else _) => destruct b
        end ]. }
  intros w. specialize (Hu w). unfold async_refresh.
  destruct (_async_update_data fuel w); simpl in *;
    unfold count_events in *; cbn [events record_event set_data filter];
    rewrite ?refresh_unseen; exact Hu.
Qed.

Lemma unseen_get_last_donation_date fuel :
  Unseen p (get_last_donation_date fuel).
Proof.
  unfold get_last_donation_date, sixty_days_ago.
  repeat first
    [ apply unseen_async_refresh | apply unseen_ret | apply unseen_raise
    | apply unseen_read | apply unseen_lift
    | apply unseen_try; [| intros ?]
    | apply unseen_bind; [| intros ?]
    | match goal with
      | |- Unseen _ (if ?b then _ else _) => destruct b
      | |- Unseen _ (match ?x with _ => _ end) => destruct x
      end ].
Qed.

Lemma unseen_get_sessions_for_date fuel venue day pc :
  Unseen p (get_sessions_for_date fuel venue day pc).
Proof.
  induction fuel as [| f IH]; [apply unseen_running |].
  cbn [get_sessions_for_date].
  repeat first
    [ exact IH | apply unseen_login
    | apply unseen_send; apply requests_unseen; reflexivity
    | assumption
    | apply unseen_ret | apply unseen_raise | apply unseen_read
    | apply unseen_lift
    | apply unseen_transport; intros ? ? ? ?
    | apply unseen_bind; [| intros ?]
    | match goal with
      | |- Unseen _ (if ?b then _ else _) => destruct b
      end ].
Qed.

Lemma unseen_get_slots_for_session fuel sid sdate pc :
  Unseen p (get_slots_for_session fuel sid sdate pc).
Proof.
  induction fuel as [| f IH]; [apply unseen_running |].
  cbn [get_slots_for_session].
  repeat first
    [ exact IH | apply unseen_login
    | apply unseen_send; apply requests_unseen; reflexivity
    | assumption
    | apply unseen_ret | apply unseen_raise | apply unseen_read
    | apply unseen_lift
    | apply unseen_transport; intros ? ? ? ?
    | apply unseen_bind; [| intros ?]
    | match goal with
      | |- Unseen _ (if ?b then _ else _) => destruct b
      end ].
Qed.

Lemma unseen_collect_slots fuel pl sessions :
  Unseen p (collect_slots fuel pl sessions).
Proof.
  induction sessions as [| [sid sdate] rest IH]; [apply unseen_ret |].
  cbn [collect_slots].
  repeat first
    [ exact IH | apply unseen_get_slots_for_session
    | apply unseen_ret | apply unseen_lift
    | apply unseen_bind; [| intros ?]
    | match goal with
      | |- Unseen _ (if ?b then _ else _) => destruct b
      end ].
Qed.

(** A booking request is the one request [book_appointment] adds. *)
Lemma unseen_book_appointment fuel sid sdate st venue pc :
  (forall q, p (Sent q) = false) ->
  Unseen p (book_appointment fuel sid sdate st venue pc).
Proof.
  intros Hall.
  induction fuel as [| f IH]; [apply unseen_running |].
  cbn [book_appointment].
  repeat first
    [ exact IH | apply unseen_login
    | apply unseen_send; apply Hall
    | assumption
    | apply unseen_ret | apply unseen_raise | apply unseen_read
    | apply unseen_lift
    | apply unseen_try; [| intros ?]
    | apply unseen_transport; intros ? ? ? ?
    | apply unseen_bind; [| intros ?]
    | match goal with
      | |- Unseen _ (if ?b then _ else _) => destruct b
      end ].
Qed.

End UnseenFacts.

(** Notifications: no request and no refresh is one. *)
Section SilentFacts.
Context {A B : Type}.

Lemma silent_ret (a : A) : Silent (ret a).
Proof. apply unseen_ret. Qed.

Lemma silent_raise e : Silent (@raise A e).
Proof. apply unseen_raise. Qed.

Lemma silent_read (f : world -> A) : Silent (read f).
Proof. apply unseen_read. Qed.

Lemma silent_lift (r : res A) : Silent (lift r).
Proof. apply unseen_lift. Qed.

Lemma silent_bind (c : M A) (k : A -> M B) :
  Silent c -> (forall a, Silent (k a)) -> Silent (bind c k).
Proof. apply unseen_bind. Qed.

End SilentFacts.

Lemma silent_send q : Silent (send q).
Proof. apply unseen_send. reflexivity. Qed.

Lemma silent_json_of body : Silent (json_of body).
Proof. apply unseen_json_of. Qed.

Lemma silent_login : Silent login.
Proof. apply unseen_login. reflexivity. Qed.

Lemma silent_async_refresh fuel : Silent (async_refresh fuel).
Proof. apply unseen_async_refresh; reflexivity. Qed.

Lemma silent_get_last_donation_date fuel :
  Silent (get_last_donation_date fuel).
Proof. apply unseen_get_last_donation_date; reflexivity. Qed.

Lemma silent_get_sessions_for_date fuel venue day pc :
  Silent (get_sessions_for_date fuel venue day pc).
Proof. apply unseen_get_sessions_for_date; reflexivity. Qed.

Lemma silent_collect_slots fuel pl sessions :
  Silent (collect_slots fuel pl sessions).
Proof. apply unseen_collect_slots; reflexivity. Qed.

Lemma silent_book_appointment fuel sid sdate st venue pc :
  Silent (book_appointment fuel sid sdate st venue pc).
Proof. apply unseen_book_appointment; reflexivity. Qed.

Section AnnouncesFacts.
Context {A B : Type} (P : bool -> B -> Prop).

Lemma announces_ret (b : B) : P false b -> Announces P (ret b).
Proof. intros H w. right. auto. Qed.

Lemma announces_raise e : Announces P (@raise B e).
Proof. intros w. reflexivity. Qed.

Lemma announces_bind (c : M A) (k : A -> M B) :
  Silent c -> (forall a, Announces P (k a)) -> Announces P (bind c k).
Proof.
  intros Hc Hk w. unfold bind. specialize (Hc w).
  change (notices (world_of (c w)) = notices w) in Hc.
  destruct (c w) as [a w1 | e w1 | w1]; simpl in *; try lia.
  specialize (Hk a w1). destruct (k a w1); rewrite <- Hc; exact Hk.
Qed.

(** A handler may post the one notification, since a block that raises
    has posted none. *)
Lemma announces_try (c : M B) handles (h : exn -> M B) :
  Announces P c -> (forall e, Announces P (h e)) ->
  Announces P (try_catch c handles h).
Proof.
  intros Hc Hh w. unfold try_catch. specialize (Hc w).
  destruct (c w) as [a w1 | e w1 | w1]; simpl in *; try assumption.
  destruct (handles e); simpl; [| assumption].
  specialize (Hh e w1). destruct (h e w1); rewrite <- Hc; exact Hh.
Qed.

(** A notification followed by a block that posts none and does not
    raise. *)
Lemma announces_notify id (k : M B) :
  Silent k -> (forall w e w', k w <> Exc e w') ->
  (forall w b w', k w = Ret b w' -> P true b) ->
  Announces P (bind (notify id) (fun _ => k)).
Proof.
  intros Hk Hne Hp w. unfold bind. rewrite notify_Ret.
  specialize (Hk (record_event (Notified id) w)).
  change (notices (world_of (k (record_event (Notified id) w)))
          = notices (record_event (Notified id) w)) in Hk.
  specialize (Hne (record_event (Notified id) w)).
  specialize (Hp (record_event (Notified id) w)).
  destruct (k (record_event (Notified id) w)) as [a w1 | e w1 | w1];
    simpl in Hk.
  - left. split; [exact Hk | eapply Hp; reflexivity].
  - exfalso. eapply Hne. reflexivity.
  - rewrite Hk. unfold notices, count_events. simpl. lia.
Qed.
End AnnouncesFacts.


Lemma search_announces fuel p :
  Announces (fun posted r => posted = true \/ returned_silently r)
    (search fuel p).
Proof.
  unfold search.
  apply announces_try.
  2:{ intros e. apply announces_notify;
        [apply silent_ret | discriminate | intros; left; reflexivity]. }
  repeat first
    [ apply announces_notify;
        [ repeat first [ apply silent_ret | apply silent_async_refresh
                       | apply silent_bind; [| intros ?] ]
        | intros w0 e0 w1;
          first [ discriminate
                | unfold bind;
                  pose proof (async_refresh_never_raises fuel w0) as Hn;
                  destruct (async_refresh fuel w0);
                  [discriminate | exfalso; eapply Hn; reflexivity
                  | discriminate] ]
        | intros; left; reflexivity ]
    | solve [ apply announces_ret; right; right; reflexivity ]
    | apply announces_bind;
        [ first [ apply silent_read | apply silent_lift | apply silent_login
                | apply silent_get_sessions_for_date
                | apply silent_collect_slots | apply silent_book_appointment
                | apply silent_bind;
                    [apply silent_login | intros ?; apply silent_ret]
                | apply silent_ret
                | match goal with
                  | |- Silent (if ?b then _ else _) =>
                      destruct b;
                      repeat first [ apply silent_ret | apply silent_login
                                   | apply silent_bind; [| intros ?] ]
                  end ]
        | intros ? ]
    | match goal with
      | |- Announces _ (if ?b then _ else _) => destruct b
      | |- Announces _ (match ?x with _ => _ end) => destruct x
      end ].
Qed.

Lemma prepare_announces fuel call :
  Announces (fun posted pr =>
               match pr with
               | Stop r => posted = true \/ returned_silently r
               | Search _ => posted = false
               end) (prepare fuel call).
Proof.
  unfold prepare.
  repeat first
    [ apply announces_notify;
        [ apply silent_ret | discriminate
        | intros w0 b w1 E; inversion E; left; reflexivity ]
    | solve [ apply announces_ret; first [reflexivity | right; left; reflexivity] ]
    | apply announces_raise
    | apply announces_bind;
        [ first [ apply silent_read | apply silent_lift
                | apply silent_get_last_donation_date
                | apply silent_ret | apply silent_raise
                | match goal with
                  | |- Silent (match ?x with _ => _ end) =>
                      destruct x;
                      repeat first [ apply silent_ret | apply silent_raise
                                   | apply silent_lift
                                   | apply silent_bind; [| intros ?]
                                   | match goal with
                                     | |- Silent (match ?y with _ => _ end) =>
                                         destruct y
                                     end ]
                  end ]
        | intros ? ]
    | match goal with
      | |- Announces _ (if ?b then _ else _) => destruct b
      | |- Announces _ (match ?x with _ => _ end) => destruct x
      end ].
Qed.

(** The schema rejects a call with [vol.Invalid] only. *)
Lemma schema_raises call e :
  SERVICE_SCHEMA_BOOKING_HELPER call = Raise e -> e = Invalid.
Proof.
  unfold SERVICE_SCHEMA_BOOKING_HELPER, validate_day_of_week.
  destruct (venue_id call); [| intros H; inversion H; reflexivity].
  destruct (target_day_of_week call) as [name |]; [| discriminate].
  destruct (day_index (str_lower name) DAYS_OF_WEEK); cbn [rbind];
    intros H; inversion H; reflexivity.
Qed.

(** A day that is no day of the week: the call raises and nothing is
    posted. *)
Example invalid_day_raises :
  async_booking_helper_service 3 (on_day "someday")
    (account unreachable (JArr []))
  = Exc TypeError (account unreachable (JArr [])).
Proof. reflexivity. Qed.



(** ** [login], case by case *)

(** X8.  [login] sends one request and never hangs.  It returns
    [False], and stores nothing, exactly when there is no answer, the
    body is no JSON or the status is not 200.  When it returns [True] the
    answer was a 200 with a JSON object, and the tokens are whatever the
    object holds under [accessToken] and [refreshToken], [None] when
    they are absent; the donor id is replaced only when the object has
    [accountDetails].  The only exception it lets out is the
    [AttributeError] of a 200 answer whose body, or whose
    [accountDetails], is not an object. *)
Theorem login_outcome w :
  let r := remote w (clock w) ReqLogin in
  (refused r = true -> login w = Ret false (sent ReqLogin w))
  /\ (forall ok w', login w = Ret ok w' ->
        if ok then
          exists text m,
            r = Response 200 text (Some (JObj m)) /\ w' = stored m w
        else refused r = true /\ w' = sent ReqLogin w)
  /\ (forall e w', login w = Exc e w' ->
        e = AttributeError
        /\ exists text d, r = Response 200 text (Some d)
             /\ match d with
                | JObj m =>
                    exists v, assoc "accountDetails" m = Some v
                              /\ (forall det, v <> JObj det)
                | _ => True
                end)
  /\ (forall w', login w <> Running w').
Proof.
  intros r. subst r.
  unfold login, try_catch, bind, send, transport_failure, refused, lift,
    update, ret, raise.
  change (tick (record_event (Sent ReqLogin) w)) with (sent ReqLogin w).
  destruct (remote w (clock w) ReqLogin) as [status text body | | |]; cbn.
  2,3,4: (split; [reflexivity |]; split; [| split]; intros;
          first [ discriminate
                | match goal with
                  | H : Ret _ _ = Ret _ _ |- _ => inversion H; auto
                  end ]).
  destruct body as [d |]; cbn.
  2:{ split; [reflexivity |]. split; [| split]; intros;
        first [ discriminate
              | match goal with
                | H : Ret _ _ = Ret _ _ |- _ => inversion H; auto
                end ]. }
  destruct (Z.eqb_spec status 200) as [-> | Hs]; cbn.
  2:{ split; [reflexivity |]. split; [| split]; intros;
        first [ discriminate
              | match goal with
                | H : Ret _ _ = Ret _ _ |- _ => inversion H; auto
                end ]. }
  split; [discriminate |].
  destruct d as [| b | n | s | l | m]; cbn;
    try (split; [| split]; intros;
         first [ discriminate
               | match goal with
                 | H : Exc _ _ = Exc _ _ |- _ => inversion H
                 end; split; [reflexivity |]; exists text; eexists;
                 split; [reflexivity | exact I] ]).
  destruct (assoc "accountDetails" m) as [details |] eqn:Hd; cbn.
  2:{ split; [| split]; intros; try discriminate.
      match goal with H : Ret _ _ = Ret _ _ |- _ => inversion H end.
      exists text, m. split; [reflexivity |]. unfold stored. rewrite Hd.
      destruct (assoc "accessToken" m), (assoc "refreshToken" m); reflexivity. }
  destruct details as [| b | n | s | l | det]; cbn;
    try (split; [| split]; intros;
         first [ discriminate
               | match goal with
                 | H : Exc _ _ = Exc _ _ |- _ => inversion H
                 end;
                 split; [reflexivity |]; exists text; eexists;
                 split; [reflexivity |]; cbn; eexists; split; [exact Hd |];
                 intros; discriminate ]).
  split; [| split]; intros; try discriminate.
  match goal with H : Ret _ _ = Ret _ _ |- _ => inversion H end.
  exists text, m. split; [reflexivity |]. unfold stored. rewrite Hd.
  destruct (assoc "accessToken" m), (assoc "refreshToken" m),
    (assoc "donorID" det); reflexivity.
Qed.

(** ** The API client and the coordinator *)

(** What [_get_account_details] returns is [None] or the JSON object of
    the answer. *)
Lemma account_details_result fuel w d w' :
  _get_account_details fuel w = Ret d w' ->
  d = JNull \/ exists members, d = JObj members.
Proof.
  revert w. induction fuel as [| f IH]; intros w H; [discriminate |].
  cbn [_get_account_details] in H. unfold try_catch in H.
  match type of H with
  | context [match ?c w with _ => _ end] =>
      destruct (c w) as [r0 w0 | e w0 | w0] eqn:Hbody
  end; [| | discriminate].
  2:{ destruct (is_network_error e); [| discriminate].
      inversion H; auto. }
  inversion H; subst r0 w0; clear H.
  apply bind_Ret_inv in Hbody as (tok & w1 & _ & Hbody).
  apply bind_Ret_inv in Hbody as (u & w2 & _ & Hbody).
  apply bind_Ret_inv in Hbody as (r & w3 & _ & Hbody).
  destruct r as [status text body | | | status text]; try discriminate.
  2:{ cbn [transport_failure] in Hbody.
      destruct (status =? 401).
      { apply bind_Ret_inv in Hbody as (ok & w4 & _ & Hbody).
        destruct ok; [exact (IH _ Hbody) |].
        inversion Hbody; auto. }
      destruct (negb (status =? 200)); [inversion Hbody; auto |].
      discriminate. }
  cbn [transport_failure] in Hbody.
  destruct (status =? 401).
  { apply bind_Ret_inv in Hbody as (ok & w4 & _ & Hbody).
    destruct ok; [exact (IH _ Hbody) |].
    inversion Hbody; auto. }
  destruct (negb (status =? 200)); [inversion Hbody; auto |].
  unfold try_catch in Hbody.
  match type of Hbody with
  | context [match ?c w3 with _ => _ end] =>
      destruct (c w3) as [r0 w0 | e w0 | w0] eqn:Hin
  end; [| | discriminate].
  2:{ destruct (is_ValueError e); [| discriminate].
      inversion Hbody; auto. }
  inversion Hbody; subst r0 w0; clear Hbody.
  apply bind_Ret_inv in Hin as (data & w4 & _ & Hin).
  apply bind_Ret_inv in Hin as (has & w5 & Hhas & Hin).
  apply lift_Ret_inv in Hhas as [Hhas _].
  apply bind_Ret_inv in Hin as (u2 & w6 & Hkeys & Hin).
  apply ret_Ret_inv in Hin as [-> _].
  destruct has.
  - apply bind_Ret_inv in Hkeys as (apts & w7 & Hget & _).
    apply lift_Ret_inv in Hget as [Hget _].
    destruct data; try discriminate. eauto.
  - apply bind_Ret_inv in Hkeys as (ks & w7 & Hk & _).
    apply lift_Ret_inv in Hk as [Hk _].
    destruct data; try discriminate. eauto.
Qed.

(** X9.  [_get_account_details] and [_get_awards] answer a timeout, a
    connection failure, a status other than 200 and 401, and a 200
    answer whose body is no JSON with [None]: one request is sent,
    nothing is raised and nothing is retried. *)
Theorem api_calls_give_up_quietly f w :
  (token_preview (access_token w) = Ok tt ->
   unusable (remote w (clock w) (ReqAccountDetails (access_token w))) = true ->
   _get_account_details (S f) w
   = Ret JNull (sent (ReqAccountDetails (access_token w)) w))
  /\ (unusable (remote w (clock w) (ReqAwards (access_token w))) = true ->
      _get_awards (S f) w = Ret JNull (sent (ReqAwards (access_token w)) w)).
Proof.
  split.
  - intros Htok Hu. cbn [_get_account_details].
    unfold try_catch, bind, read, send, transport_failure.
    rewrite Htok. cbn [lift ret].
    change (tick (record_event (Sent (ReqAccountDetails (access_token w))) w))
      with (sent (ReqAccountDetails (access_token w)) w).
    destruct (remote w (clock w) (ReqAccountDetails (access_token w)))
      as [status text body | | | status text]; try reflexivity.
    + cbn [unusable] in Hu. apply andb_true_iff in Hu as [H401 Hu].
      apply negb_true_iff in H401. rewrite H401.
      destruct (negb (status =? 200)); [reflexivity |].
      destruct body; [discriminate | reflexivity].
    + cbn [unusable] in Hu. apply negb_true_iff in Hu. rewrite Hu.
      destruct (negb (status =? 200)); reflexivity.
  - intros Hu. cbn [_get_awards].
    unfold try_catch, bind, read, send, transport_failure.
    change (tick (record_event (Sent (ReqAwards (access_token w))) w))
      with (sent (ReqAwards (access_token w)) w).
    destruct (remote w (clock w) (ReqAwards (access_token w)))
      as [status text body | | | status text]; try reflexivity.
    + cbn [unusable] in Hu. apply andb_true_iff in Hu as [H401 Hu].
      apply negb_true_iff in H401. rewrite H401.
      destruct (negb (status =? 200)); [reflexivity |].
      destruct body; [discriminate | reflexivity].
    + cbn [unusable] in Hu. apply negb_true_iff in Hu. rewrite Hu.
      destruct (negb (status =? 200)); reflexivity.
Qed.

Lemma api_calls_give_up_quietly_witness :
  _get_account_details 1 (account too_slow (JArr []))
  = Ret JNull (sent (ReqAccountDetails (JStr "token"))
                 (account too_slow (JArr [])))
  /\ _get_awards 1 (account (fun _ _ => Response 500 "oops" None) (JArr []))
     = Ret JNull (sent (ReqAwards (JStr "token"))
                    (account (fun _ _ => Response 500 "oops" None) (JArr []))).
Proof.
  split.
  - apply (proj1 (api_calls_give_up_quietly 0 (account too_slow (JArr []))));
      reflexivity.
  - apply (proj2 (api_calls_give_up_quietly 0
                    (account (fun _ _ => Response 500 "oops" None) (JArr []))));
      reflexivity.
Defined.

(** X10.  [_async_update_data] returns a JSON object that is not empty
    or raises [UpdateFailed], nothing else: the coordinator never caches
    [None], an empty object or a list.  When [get_data] returns nothing
    the [UpdateFailed] raised for it is caught by the handler of the
    same method and raised again with the longer message. *)
Theorem update_data_outcome fuel w :
  match _async_update_data fuel w with
  | Ret d w' => truthy d = true /\ exists members, d = JObj members
  | Exc e w' => exists cause, e = UpdateFailed cause
  | Running _ => True
  end
  /\ (forall d w',
        get_data fuel w = Ret d w' -> truthy d = false ->
        _async_update_data fuel w
        = Exc (UpdateFailed
                 "Error communicating with API: Failed to fetch data from Blood Donor service")
              w').
Proof.
  split.
  - unfold _async_update_data, try_catch.
    match goal with
    | |- context [match ?c w with _ => _ end] =>
        destruct (c w) as [r0 w0 | e w0 | w0] eqn:Hbody
    end; [| unfold any_Exception, raise, update_failed; eauto | exact I].
    apply bind_Ret_inv in Hbody as (d & w1 & _ & Hbody).
    destruct (truthy d) eqn:Ht; cbn [negb] in Hbody; [| discriminate].
    apply bind_Ret_inv in Hbody as (ks & w2 & Hk & Hbody).
    apply lift_Ret_inv in Hk as [Hk _].
    apply bind_Ret_inv in Hbody as (has & w3 & _ & Hbody).
    apply ret_Ret_inv in Hbody as [-> _].
    split; [exact Ht |]. destruct d; try discriminate. eauto.
  - intros d w' Hget Hf.
    unfold _async_update_data, try_catch, bind. rewrite Hget, Hf.
    reflexivity.
Qed.

Lemma assoc_set_same k v m : assoc k (assoc_set k v m) = Some v.
Proof.
  induction m as [| [k' v'] m IH]; cbn.
  - rewrite String.eqb_refl. reflexivity.
  - destruct (String.eqb k k') eqn:E; cbn; rewrite ?String.eqb_refl, ?E; auto.
Qed.

Lemma assoc_set_other k k' v m :
  k' <> k -> assoc k' (assoc_set k v m) = assoc k' m.
Proof.
  intros Hk. induction m as [| [k0 v0] m IH]; cbn.
  - destruct (String.eqb_spec k' k); [contradiction | reflexivity].
  - destruct (String.eqb_spec k k0) as [-> | Hn]; cbn.
    + destruct (String.eqb_spec k' k0); [contradiction | reflexivity].
    + destruct (String.eqb k' k0); [reflexivity | exact IH].
Qed.

(** X11.  With a token, account details and an answer for the awards,
    [get_data] returns the account details, which are a JSON object;
    awards that are not empty are stored in it under ["awards"], in
    place of a value that was there, and every other key keeps its
    value; awards that failed or are empty leave the account details as
    they were and do not fail the update. *)
Theorem get_data_attaches_awards fuel w account w1 awards w2 :
  truthy (access_token w) = true ->
  _get_account_details fuel w = Ret account w1 ->
  truthy account = true ->
  _get_awards fuel w1 = Ret awards w2 ->
  exists members,
    account = JObj members
    /\ if truthy awards then
         get_data fuel w = Ret (JObj (assoc_set "awards" awards members)) w2
         /\ assoc "awards" (assoc_set "awards" awards members) = Some awards
         /\ (forall k, k <> "awards" ->
               assoc k (assoc_set "awards" awards members) = assoc k members)
       else get_data fuel w = Ret account w2.
Proof.
  intros Htok Hacc Ht Haw.
  destruct (account_details_result _ _ _ _ Hacc) as [-> | [members ->]];
    [discriminate |].
  exists members. split; [reflexivity |].
  unfold get_data, bind, read, try_catch. rewrite Htok. cbn [ret negb].
  rewrite Hacc, Ht. cbn [negb]. rewrite Haw.
  destruct (truthy awards).
  - split; [reflexivity |]. split; [apply assoc_set_same |].
    intros k Hk. apply assoc_set_other. exact Hk.
  - reflexivity.
Qed.

Lemma get_data_attaches_awards_witness :
  exists w2,
    get_data 1 (account (clinic 1 [] "B") (JArr []))
    = Ret (JObj [("appointments", JArr []);
                 ("awards", JObj [("totalCredits", JNum 3)])]) w2.
Proof.
  destruct (get_data_attaches_awards 1 (account (clinic 1 [] "B") (JArr []))
              (JObj [("appointments", JArr [])])
              (sent (ReqAccountDetails (JStr "token"))
                 (account (clinic 1 [] "B") (JArr [])))
              (JObj [("totalCredits", JNum 3)])
              (sent (ReqAwards (JStr "token"))
                 (sent (ReqAccountDetails (JStr "token"))
                    (account (clinic 1 [] "B") (JArr []))))
              eq_refl eq_refl eq_refl eq_refl)
    as (members & Hm & Hrun & _).
  inversion Hm; subst members.
  eexists. exact Hrun.
Defined.

(** ** The update scheduler, once more *)

Section SchedulerMore.
Import Scheduler.

(** The scheduler depends on the coordinator only through the interval
    it compares with: the data and the clock fix the interval it asks for
    and the appointment it remembers. *)
Lemma adjust_update_interval_shape data now :
  exists interval o,
    forall c,
      _adjust_update_interval data now c
      = _set_update_interval interval
          match o with
          | Some at_ => remember_appointment at_ c
          | None => c
          end.
Proof.
  unfold _adjust_update_interval.
  destruct (get data "appointments" (JArr [])) as [appointments | e];
    cbn [rbind]; [| exists STANDARD_SCAN_INTERVAL, None; reflexivity].
  destruct (negb (truthy appointments));
    [exists STANDARD_SCAN_INTERVAL, None; reflexivity |].
  destruct (get_next_appointment appointments) as [[apt |] | e];
    cbn [rbind]; try (exists STANDARD_SCAN_INTERVAL, None; reflexivity).
  destruct (appointment_datetime_of apt) as [[d at_] | e]; cbn [rbind rcatch].
  - exists (interval_for d at_ now), (Some at_). reflexivity.
  - exists STANDARD_SCAN_INTERVAL, None.
    destruct (is_ValueError_TypeError_KeyError e); reflexivity.
Qed.

(** X12.  Adjusting the update interval is idempotent: a second
    adjustment with the same data at the same time changes nothing, and
    in particular does not reschedule the timer again. *)
Theorem adjusting_twice_changes_nothing data now c :
  _adjust_update_interval data now (_adjust_update_interval data now c)
  = _adjust_update_interval data now c.
Proof.
  destruct (adjust_update_interval_shape data now) as (interval & o & H).
  rewrite !H.
  assert (Hfix : forall c0, update_interval c0 = interval ->
                            _set_update_interval interval c0 = c0).
  { intros c0 E. unfold _set_update_interval.
    rewrite E, Z.eqb_refl. reflexivity. }
  destruct o as [at_ |].
  - set (c1 := _set_update_interval interval (remember_appointment at_ c)).
    assert (Hu : update_interval c1 = interval)
      by apply set_update_interval_spec.
    assert (Hn : _next_appointment_datetime c1 = Some at_)
      by (unfold c1; destruct (set_update_interval_spec interval
                                 (remember_appointment at_ c)) as (_ & -> & _);
          reflexivity).
    assert (Hr : remember_appointment at_ c1 = c1).
    { unfold remember_appointment. rewrite <- Hn. destruct c1; reflexivity. }
    rewrite Hr. apply Hfix. exact Hu.
  - apply Hfix. apply set_update_interval_spec.
Qed.

Lemma appointment_datetime_on_its_date apt d at_ :
  appointment_datetime_of apt = Ok (d, at_) ->
  d * day_us <= at_ < (d + 1) * day_us.
Proof.
  unfold appointment_datetime_of.
  destruct (session_date_of apt) as [d0 |]; [| discriminate]. cbn [rbind].
  destruct (get apt "time" (JStr "")) as [t |]; [| discriminate]. cbn [rbind].
  destruct (as_str t) as [s |]; [| discriminate]. cbn [rbind].
  destruct (4 <=? String.length (str_remove "T" s))%nat.
  - destruct (int_of_str _) as [h |]; [| discriminate]. cbn [rbind].
    destruct (int_of_str _) as [m |]; [| discriminate]. cbn [rbind].
    destruct (make_time h m) as [tm |] eqn:Ht; [| discriminate]. cbn [rbind].
    intros H. inversion H; subst d0 at_; clear H.
    apply make_time_Ok in Ht as (Hh & Hm & ->).
    unfold combine, day_us, hour_us, second_us. lia.
  - intros H. inversion H; subst d0 at_; clear H.
    unfold combine, noon, day_us, hour_us, second_us. lia.
Qed.

(** X13.  An appointment on a day before today always gives the hourly
    interval: the comparison [time_until_appointment <= timedelta(hours=4)]
    of the branch for other days holds for every moment in the past. *)
Theorem earlier_day_is_polled_hourly data now c appointments apt d at_ :
  get data "appointments" (JArr []) = Ok appointments ->
  truthy appointments = true ->
  get_next_appointment appointments = Ok (Some apt) ->
  appointment_datetime_of apt = Ok (d, at_) ->
  d < date_of now ->
  update_interval (_adjust_update_interval data now c)
  = APPOINTMENT_SCAN_INTERVAL
  /\ at_ < now.
Proof.
  intros Hget Ht Hnext Hwhen Hd.
  pose proof (appointment_datetime_on_its_date _ _ _ Hwhen) as Hat.
  assert (Hnow : date_of now * day_us <= now).
  { unfold date_of. assert (0 < day_us) by (vm_compute; reflexivity).
    pose proof (Z.mul_div_le now day_us H). lia. }
  assert (Hlt : at_ < now) by nia.
  split; [| exact Hlt].
  unfold _adjust_update_interval.
  rewrite Hget. cbn [rbind]. rewrite Ht. cbn [negb].
  rewrite Hnext. cbn [rbind]. rewrite Hwhen. cbn [rbind rcatch].
  destruct (set_update_interval_spec (interval_for d at_ now)
              (remember_appointment at_ c)) as (-> & _).
  unfold interval_for.
  destruct (Z.eqb_spec d (date_of now)) as [E | _]; [lia |].
  assert (H4 : 0 < hour_us) by (vm_compute; reflexivity).
  destruct (Z.leb_spec (at_ - now) (4 * hour_us)); [reflexivity | lia].
Qed.

Lemma earlier_day_is_polled_hourly_witness :
  update_interval
    (_adjust_update_interval
       (snapshot [appointment_at "2024-01-10T00:00:00" "T0900"]) morning
       routine)
  = APPOINTMENT_SCAN_INTERVAL
  /\ combine (friday - 51) (9 * hour_us) < morning.
Proof.
  apply (earlier_day_is_polled_hourly
           (snapshot [appointment_at "2024-01-10T00:00:00" "T0900"]) morning
           routine
           (JArr [appointment_at "2024-01-10T00:00:00" "T0900"])
           (appointment_at "2024-01-10T00:00:00" "T0900")
           (friday - 51) (combine (friday - 51) (9 * hour_us)));
    reflexivity.
Defined.
End SchedulerMore.

(** ** The sensors *)

Lemma with_keys_all items keyed x :
  Scheduler.with_keys items = Ok keyed -> In x items ->
  exists d, Scheduler.session_date_of x = Ok d.
Proof.
  intros Hk Hin.
  destruct (Scheduler.session_date_of x) as [d | e] eqn:E; [eauto |].
  destruct (with_keys_fails _ _ _ Hin E) as (e' & He). congruence.
Qed.

Lemma date_key_value x d :
  Scheduler.session_date_of x = Ok d -> date_key x = d.
Proof. intros H. unfold date_key. rewrite H. reflexivity. Qed.

(** X14.  When the state of the next-appointment sensor is a date, every
    listed appointment has a date that parses, the state is the least of
    them (past dates included), and it is the date of the appointment
    that [utils.get_next_appointment] returns for the same list: the
    first-listed one with the least date. *)
Theorem next_appointment_state_is_earliest data d :
  Sensor.BloodDonorNextAppointmentSensor.state data = Ok (Some d) ->
  exists appointments items apt,
    get data "appointments" (JArr []) = Ok appointments
    /\ iter appointments = Ok items
    /\ first_minimum date_key items apt
    /\ Scheduler.session_date_of apt = Ok d
    /\ Scheduler.get_next_appointment appointments = Ok (Some apt)
    /\ forall x, In x items ->
         exists dx, Scheduler.session_date_of x = Ok dx /\ d <= dx.
Proof.
  unfold Sensor.BloodDonorNextAppointmentSensor.state.
  destruct (truthy data); cbn [negb]; [| discriminate].
  destruct (keys data) as [ks |]; cbn [rbind]; [| discriminate].
  destruct (get data "appointments" (JArr [])) as [appointments |];
    cbn [rbind]; [| discriminate].
  destruct (len appointments) as [n |]; cbn [rbind]; [| discriminate].
  destruct (truthy appointments) eqn:Ht; cbn [negb]; [| discriminate].
  destruct (iter appointments) as [items | e] eqn:Hi; cbn [rbind rcatch].
  2:{ destruct (Scheduler.is_parse_error e); [| discriminate].
      destruct (Sensor.first_entry appointments); discriminate. }
  destruct (Scheduler.with_keys items) as [keyed | e] eqn:Hk;
    cbn [rbind rcatch].
  2:{ destruct (Scheduler.is_parse_error e); [| discriminate].
      destruct (Sensor.first_entry appointments); discriminate. }
  destruct (sort_by fst keyed) as [| [k apt] rest] eqn:Hs; cbn [rcatch snd].
  { destruct (Sensor.first_entry appointments); discriminate. }
  destruct (Scheduler.session_date_of apt) as [d0 | e] eqn:Hd;
    cbn [rbind rcatch].
  2:{ destruct (Scheduler.is_parse_error e); [| discriminate].
      destruct (Sensor.first_entry appointments); discriminate. }
  intros H. inversion H; subst d0; clear H.
  assert (Hmin : first_minimum date_key items apt).
  { pose proof (with_keys_spec _ _ Hk) as Hmap. subst keyed.
    apply sort_by_head in Hs. eapply first_minimum_keyed. exact Hs. }
  exists appointments, items, apt.
  split; [reflexivity |]. split; [exact Hi |]. split; [exact Hmin |].
  split; [exact Hd |]. split.
  - unfold Scheduler.get_next_appointment.
    rewrite Ht, Hi. cbn [negb rbind]. rewrite Hk. cbn [rbind].
    rewrite Hs. reflexivity.
  - intros x Hx.
    destruct (with_keys_all _ _ _ Hk Hx) as (dx & Hdx).
    exists dx. split; [exact Hdx |].
    pose proof (first_minimum_least _ _ _ _ Hmin Hx) as Hle.
    rewrite (date_key_value _ _ Hd), (date_key_value _ _ Hdx) in Hle.
    exact Hle.
Qed.

Lemma next_appointment_state_is_earliest_witness :
  exists appointments items apt,
    get (snapshot [appointment_on "2024-03-09T00:00:00";
                    appointment_on "2024-01-10T00:00:00"])
      "appointments" (JArr []) = Ok appointments
    /\ iter appointments = Ok items
    /\ first_minimum date_key items apt
    /\ Scheduler.session_date_of apt = Ok (friday - 51)
    /\ Scheduler.get_next_appointment appointments = Ok (Some apt)
    /\ forall x, In x items ->
         exists dx, Scheduler.session_date_of x = Ok dx /\ friday - 51 <= dx.
Proof.
  apply (next_appointment_state_is_earliest
           (snapshot [appointment_on "2024-03-09T00:00:00";
                      appointment_on "2024-01-10T00:00:00"])
           (friday - 51)).
  reflexivity.
Defined.

Section StableFilter.
Context {A : Type} (key : A -> Z) (p : A -> bool).

Lemma filter_insert_by x l :
  ascending key l ->
  filter p (insert_by key x l)
  = if p x then insert_by key x (filter p l) else filter p l.
Proof.
  induction l as [| y l IH]; intros Hl.
  - cbn. destruct (p x); reflexivity.
  - destruct Hl as [Hy Hl]. cbn [insert_by].
    destruct (Z.leb_spec (key x) (key y)) as [Hxy | Hyx].
    + cbn [filter]. destruct (p x) eqn:Px; [| reflexivity].
      destruct (p y) eqn:Py.
      * cbn [insert_by]. apply Z.leb_le in Hxy. rewrite Hxy. reflexivity.
      * (* every later entry has a key at least that of [x] *)
        clear IH. induction l as [| z l IHl]; [reflexivity |].
        cbn [filter]. destruct Hl as [Hz Hl].
        assert (Hxz : key x <= key z)
          by (specialize (Hy z (or_introl eq_refl)); lia).
        destruct (p z).
        -- cbn [insert_by]. apply Z.leb_le in Hxz. rewrite Hxz. reflexivity.
        -- apply IHl; [| exact Hl].
           intros u Hu. apply Hy. right. exact Hu.
    + cbn [filter]. rewrite (IH Hl).
      destruct (p x) eqn:Px, (p y) eqn:Py; try reflexivity.
      cbn [insert_by].
      destruct (Z.leb_spec (key x) (key y)); [lia | reflexivity].
Qed.

(** Filtering commutes with the stable sort. *)
Lemma filter_sort_by l :
  filter p (sort_by key l) = sort_by key (filter p l).
Proof.
  induction l as [| x l IH]; [reflexivity |].
  cbn [sort_by filter].
  rewrite filter_insert_by by apply sort_by_ascending.
  rewrite IH. destruct (p x); reflexivity.
Qed.
End StableFilter.

Lemma sort_by_map {A B : Type} (f : A -> B) (kb : B -> Z) (l : list A) :
  sort_by kb (map f l) = map f (sort_by (fun a => kb (f a)) l).
Proof.
  induction l as [| x l IH]; [reflexivity |].
  cbn [map sort_by]. rewrite IH.
  generalize (sort_by (fun a => kb (f a)) l) as s.
  induction s as [| y s IHs]; [reflexivity |].
  cbn [map insert_by]. destruct (kb (f x) <=? kb (f y)); [reflexivity |].
  cbn [map]. rewrite IHs. reflexivity.
Qed.

(** *** The order of JSON values *)

Lemma str_ltb_irrefl s : str_ltb s s = false.
Proof.
  induction s as [| x s IH]; [reflexivity |].
  cbn [str_ltb]. unfold char_ltb. rewrite Nat.ltb_irrefl. exact IH.
Qed.

Lemma str_ltb_trans a : forall b c,
  str_ltb a b = true -> str_ltb b c = true -> str_ltb a c = true.
Proof.
  induction a as [| x a IH]; intros [| y b] [| z c]; cbn [str_ltb];
    try discriminate; try reflexivity.
  unfold char_ltb.
  destruct (Nat.ltb_spec (nat_of_ascii x) (nat_of_ascii y)),
           (Nat.ltb_spec (nat_of_ascii y) (nat_of_ascii x)),
           (Nat.ltb_spec (nat_of_ascii y) (nat_of_ascii z)),
           (Nat.ltb_spec (nat_of_ascii z) (nat_of_ascii y)),
           (Nat.ltb_spec (nat_of_ascii x) (nat_of_ascii z)),
           (Nat.ltb_spec (nat_of_ascii z) (nat_of_ascii x));
    try lia; try discriminate; try reflexivity.
  apply IH.
Qed.

Lemma str_ltb_negtrans a : forall b c,
  str_ltb a b = false -> str_ltb b c = false -> str_ltb a c = false.
Proof.
  induction a as [| x a IH]; intros [| y b] [| z c]; cbn [str_ltb];
    try discriminate; try reflexivity.
  unfold char_ltb.
  destruct (Nat.ltb_spec (nat_of_ascii x) (nat_of_ascii y)),
           (Nat.ltb_spec (nat_of_ascii y) (nat_of_ascii x)),
           (Nat.ltb_spec (nat_of_ascii y) (nat_of_ascii z)),
           (Nat.ltb_spec (nat_of_ascii z) (nat_of_ascii y)),
           (Nat.ltb_spec (nat_of_ascii x) (nat_of_ascii z)),
           (Nat.ltb_spec (nat_of_ascii z) (nat_of_ascii x));
    try lia; try discriminate; try reflexivity.
  apply IH.
Qed.

(** Two values are ordered exactly when they are of one ordered kind. *)
Lemma lt_kind a b :
  (exists r, lt a b = Ok r)
  <-> exists c, kind_of a = Some c /\ kind_of b = Some c.
Proof.
  split.
  - intros (r & H).
    destruct a, b; cbn in H; try discriminate;
      first [exists Number; split; reflexivity
            | exists Text; split; reflexivity].
  - intros (c & Ha & Hb).
    destruct a, b; cbn in Ha, Hb; try discriminate;
      try (rewrite <- Ha in Hb; discriminate);
      cbn; eauto.
Qed.

Lemma lt_comparable a b c :
  (exists r, lt a b = Ok r) -> (exists r, lt b c = Ok r) ->
  exists r, lt a c = Ok r.
Proof.
  rewrite !lt_kind. intros (k1 & Ha & Hb) (k2 & Hb' & Hc).
  rewrite Hb in Hb'. inversion Hb'; subst k2. eauto.
Qed.

(** The order of two values, by their kind. *)
Lemma lt_of_number v :
  kind_of v = Some Number ->
  exists n, as_number v = Some n
            /\ forall u, lt v u = match as_number u with
                                  | Some m => Ok (n <? m)
                                  | None => Raise TypeError
                                  end.
Proof.
  intros Hv. destruct v as [| bo | n | | |]; try discriminate.
  - exists (if bo then 1 else 0). split; [reflexivity |].
    intros u. destruct u; reflexivity.
  - exists n. split; [reflexivity |]. intros u. destruct u; reflexivity.
Qed.

Lemma lt_of_text v :
  kind_of v = Some Text -> exists s, v = JStr s.
Proof.
  destruct v; try discriminate. eauto.
Qed.

Lemma lt_same_kind a b r :
  lt a b = Ok r ->
  (exists x y, as_number a = Some x /\ as_number b = Some y
               /\ r = (x <? y)
               /\ forall c z, as_number c = Some z ->
                              lt a c = Ok (x <? z) /\ lt b c = Ok (y <? z)
                              /\ lt c a = Ok (z <? x) /\ lt c b = Ok (z <? y))
  \/ (exists s t, a = JStr s /\ b = JStr t /\ r = str_ltb s t).
Proof.
  intros H.
  destruct (proj1 (lt_kind a b) (ex_intro _ _ H)) as ([|] & Ha & Hb).
  - left.
    destruct (lt_of_number a Ha) as (x & Hx & Hax).
    destruct (lt_of_number b Hb) as (y & Hy & Hby).
    exists x, y. rewrite Hax, Hy in H. inversion H.
    repeat split; try assumption.
    + rewrite Hax, H0. reflexivity.
    + rewrite Hby, H0. reflexivity.
    + assert (Hc : kind_of c = Some Number)
        by (destruct c; cbn in H0; try discriminate; reflexivity).
      destruct (lt_of_number c Hc) as (z' & Hz' & Hcz).
      rewrite Hcz, Hx. congruence.
    + assert (Hc : kind_of c = Some Number)
        by (destruct c; cbn in H0; try discriminate; reflexivity).
      destruct (lt_of_number c Hc) as (z' & Hz' & Hcz).
      rewrite Hcz, Hy. congruence.
  - right.
    destruct (lt_of_text a Ha) as (s & ->).
    destruct (lt_of_text b Hb) as (t & ->).
    exists s, t. cbn in H. inversion H. auto.
Qed.

(** On the values of one kind the order is a strict weak order. *)
Lemma lt_asym a b : lt a b = Ok true -> lt b a = Ok false.
Proof.
  intros H.
  destruct (lt_same_kind _ _ _ H)
    as [(x & y & Hx & Hy & E & Hall) | (s & t & -> & -> & E)].
  - destruct (Hall a x Hx) as (_ & -> & _). f_equal.
    symmetry in E. apply Z.ltb_lt in E. apply Z.ltb_ge. lia.
  - cbn. f_equal.
    destruct (str_ltb t s) eqn:E'; [| reflexivity].
    symmetry in E. pose proof (str_ltb_trans _ _ _ E E') as Hc.
    rewrite str_ltb_irrefl in Hc. discriminate.
Qed.

Lemma lt_trans a b c :
  lt a b = Ok true -> lt b c = Ok true -> lt a c = Ok true.
Proof.
  intros H1 H2.
  destruct (lt_same_kind _ _ _ H1)
    as [(x & y & Hx & Hy & E & Hall) | (s & t & -> & -> & E)].
  - destruct (lt_same_kind _ _ _ H2)
      as [(y' & z & Hy' & Hz & E' & _) | (s & t & -> & _)];
      [| discriminate].
    destruct (Hall c z Hz) as (-> & _). f_equal.
    assert (y' = y) by congruence. subst y'.
    symmetry in E, E'. apply Z.ltb_lt in E, E'. apply Z.ltb_lt. lia.
  - destruct (lt_same_kind _ _ _ H2)
      as [(y' & z & Hy' & _) | (t' & u & Et & -> & E')];
      [discriminate |].
    inversion Et; subst t'. cbn. f_equal.
    symmetry in E, E'. exact (str_ltb_trans _ _ _ E E').
Qed.

Lemma lt_negtrans a b c :
  lt a b = Ok false -> lt b c = Ok false -> lt a c = Ok false.
Proof.
  intros H1 H2.
  destruct (lt_same_kind _ _ _ H1)
    as [(x & y & Hx & Hy & E & Hall) | (s & t & -> & -> & E)].
  - destruct (lt_same_kind _ _ _ H2)
      as [(y' & z & Hy' & Hz & E' & _) | (s & t & -> & _)];
      [| discriminate].
    destruct (Hall c z Hz) as (-> & _). f_equal.
    assert (y' = y) by congruence. subst y'.
    symmetry in E, E'. apply Z.ltb_ge in E, E'. apply Z.ltb_ge. lia.
  - destruct (lt_same_kind _ _ _ H2)
      as [(y' & z & Hy' & _) | (t' & u & Et & -> & E')];
      [discriminate |].
    inversion Et; subst t'. cbn. f_equal.
    symmetry in E, E'. exact (str_ltb_negtrans _ _ _ E E').
Qed.

(** On numbers these are the order of the integers. *)
Lemma less_numbers x y : less (JNum x) (JNum y) <-> x < y.
Proof.
  unfold less. cbn. split.
  - intros H. inversion H as [E]. apply Z.ltb_lt. exact E.
  - intros H. f_equal. apply Z.ltb_lt. exact H.
Qed.

Lemma at_most_numbers x y : at_most (JNum x) (JNum y) <-> x <= y.
Proof.
  unfold at_most. cbn. split.
  - intros H. inversion H as [E]. apply Z.ltb_ge. exact E.
  - intros H. f_equal. apply Z.ltb_ge. exact H.
Qed.

(** *** The sort of values that are ordered *)

Section SortedValues.
Context {A : Type} (key : A -> json).

Lemma insert_lt_In x l s :
  insert_lt key x l = Ok s -> forall y, In y s <-> y = x \/ In y l.
Proof.
  revert s. induction l as [| z l IH]; intros s H y.
  - inversion H. cbn. intuition.
  - cbn [insert_lt rbind] in H.
    destruct (lt (key z) (key x)) as [[|] |]; cbn [rbind] in H;
      [| inversion H; cbn; intuition | discriminate].
    destruct (insert_lt key x l) as [rest |]; [| discriminate].
    cbn [rbind] in H. inversion H. cbn. rewrite (IH rest eq_refl y).
    intuition.
Qed.

Lemma sort_lt_In l s :
  sort_lt key l = Ok s -> forall y, In y s <-> In y l.
Proof.
  revert s. induction l as [| x l IH]; intros s H y.
  - inversion H. reflexivity.
  - cbn [sort_lt] in H.
    destruct (sort_lt key l) as [s' |]; [| discriminate]. cbn [rbind] in H.
    rewrite (insert_lt_In _ _ _ H y), (IH s' eq_refl y). cbn. intuition.
Qed.

(** The sort raises exactly when it has two keys or more and they are
    not of one ordered kind. *)
Lemma insert_lt_returns x l c :
  kind_of (key x) = Some c ->
  (forall y, In y l -> kind_of (key y) = Some c) ->
  exists s, insert_lt key x l = Ok s.
Proof.
  intros Hx. induction l as [| y l IH]; intros Hl; [cbn; eauto |].
  cbn [insert_lt].
  destruct (proj2 (lt_kind (key y) (key x))) as (r & ->).
  { exists c. split; [apply Hl; left; reflexivity | exact Hx]. }
  cbn [rbind]. destruct r; [| eauto].
  destruct IH as (rest & ->); [intros z Hz; apply Hl; right; exact Hz |].
  cbn [rbind]. eauto.
Qed.

Lemma sort_lt_returns l c :
  (forall y, In y l -> kind_of (key y) = Some c) ->
  exists s, sort_lt key l = Ok s.
Proof.
  induction l as [| x l IH]; intros Hl; [cbn; eauto |].
  cbn [sort_lt].
  destruct IH as (s' & Hs); [intros z Hz; apply Hl; right; exact Hz |].
  rewrite Hs. cbn [rbind].
  apply (insert_lt_returns x s' c); [apply Hl; left; reflexivity |].
  intros y Hy. apply Hl. right. apply (sort_lt_In _ _ Hs). exact Hy.
Qed.

Lemma sort_lt_one_kind l s :
  sort_lt key l = Ok s ->
  (List.length l <= 1)%nat
  \/ exists c, forall y, In y l -> kind_of (key y) = Some c.
Proof.
  revert s. induction l as [| x l IH]; intros s H; [left; cbn; lia |].
  cbn [sort_lt] in H.
  destruct (sort_lt key l) as [s' |] eqn:Hs; [| discriminate].
  cbn [rbind] in H.
  destruct l as [| y0 l']; [left; cbn; lia |]. right.
  destruct s' as [| y t'].
  { assert (Hin : In y0 [])
      by (apply (sort_lt_In _ _ Hs); left; reflexivity).
    destruct Hin. }
  cbn [insert_lt] in H.
  destruct (lt (key y) (key x)) as [r |] eqn:Hyx; [| discriminate].
  destruct (proj1 (lt_kind _ _) (ex_intro _ r Hyx)) as (c & Hy & Hx).
  assert (Hyl : In y (y0 :: l'))
    by (apply (sort_lt_In _ _ Hs); left; reflexivity).
  exists c. intros z [<- | Hz]; [exact Hx |].
  destruct (IH _ eq_refl) as [Hlen | (c' & Hall)].
  - destruct l' as [| ? ?]; [| cbn in Hlen; lia].
    destruct Hz as [<- | []]. destruct Hyl as [-> | []]. exact Hy.
  - rewrite (Hall y Hyl) in Hy. inversion Hy; subst c'. exact (Hall z Hz).
Qed.

(** In a sorted list no entry is greater than a later one. *)
Lemma insert_lt_sorted x l s :
  ForallOrdPairs (fun y z => at_most (key y) (key z)) l ->
  insert_lt key x l = Ok s ->
  ForallOrdPairs (fun y z => at_most (key y) (key z)) s.
Proof.
  revert s. induction l as [| y l IH]; intros s Hl H.
  - inversion H. constructor; constructor.
  - inversion Hl as [| ? ? Hy Hl']; subst.
    cbn [insert_lt rbind] in H.
    destruct (lt (key y) (key x)) as [[|] |] eqn:Hyx; cbn [rbind] in H;
      [| | discriminate].
    + destruct (insert_lt key x l) as [rest |] eqn:Hi; [| discriminate].
      cbn [rbind] in H. inversion H; subst s.
      constructor; [| exact (IH rest Hl' eq_refl)].
      apply Forall_forall. intros z Hz.
      apply (insert_lt_In _ _ _ Hi) in Hz as [-> | Hz].
      * exact (lt_asym _ _ Hyx).
      * rewrite Forall_forall in Hy. exact (Hy z Hz).
    + inversion H; subst s.
      constructor; [| exact Hl].
      apply Forall_forall. intros z [<- | Hz]; [exact Hyx |].
      rewrite Forall_forall in Hy. unfold at_most in *.
      exact (lt_negtrans _ _ _ (Hy z Hz) Hyx).
Qed.

Lemma sort_lt_sorted l s :
  sort_lt key l = Ok s ->
  ForallOrdPairs (fun y z => at_most (key y) (key z)) s.
Proof.
  revert s. induction l as [| x l IH]; intros s H.
  - inversion H. constructor.
  - cbn [sort_lt] in H.
    destruct (sort_lt key l) as [s' |]; [| discriminate]. cbn [rbind] in H.
    exact (insert_lt_sorted _ _ _ (IH s' eq_refl) H).
Qed.

(** The first entry of the sorted list is the first-listed entry with
    the least key. *)
Lemma sort_lt_head l h t :
  sort_lt key l = Ok (h :: t) -> first_least key l h.
Proof.
  revert h t. induction l as [| x l IH]; intros h t H; [discriminate |].
  cbn [sort_lt] in H.
  destruct (sort_lt key l) as [s' |] eqn:Hs; [| discriminate].
  cbn [rbind] in H.
  destruct s' as [| y t'].
  - inversion H; subst h t.
    assert (l = []) as ->.
    { destruct l as [| z l]; [reflexivity |].
      assert (Hin : In z []) by (apply (sort_lt_In _ _ Hs); left; reflexivity).
      destruct Hin. }
    exists [], []. repeat split; intros ? [].
  - specialize (IH y t' eq_refl).
    cbn [insert_lt rbind] in H.
    destruct (lt (key y) (key x)) as [[|] |] eqn:Hyx; cbn [rbind] in H;
      [| | discriminate].
    + destruct (insert_lt key x t') as [rest |]; [| discriminate].
      cbn [rbind] in H. inversion H; subst h t.
      destruct IH as (pre & post & -> & Hpre & Hpost).
      exists (x :: pre), post. repeat split; [| exact Hpost].
      intros z [<- | Hz]; [exact Hyx | exact (Hpre z Hz)].
    + inversion H; subst h t.
      exists [], l. repeat split; [intros ? [] |].
      intros z Hz. unfold at_most.
      destruct IH as (pre & post & -> & Hpre & Hpost).
      apply in_app_or in Hz as [Hz | [<- | Hz]].
      * specialize (Hpre z Hz). unfold less in Hpre.
        destruct (lt_comparable (key z) (key y) (key x)) as ([|] & Hzx);
          [exists false; exact (lt_asym _ _ Hpre) | eauto | | exact Hzx].
        pose proof (lt_trans _ _ _ Hpre Hzx) as Hc.
        rewrite Hyx in Hc. discriminate.
      * exact Hyx.
      * exact (lt_negtrans _ _ _ (Hpost z Hz) Hyx).
Qed.

(** An entry that nothing of the list precedes is put in front of any
    part of it. *)
Lemma insert_lt_front (f : A -> bool) x l :
  (forall z, In z l -> lt (key z) (key x) = Ok false) ->
  insert_lt key x (filter f l) = Ok (x :: filter f l).
Proof.
  induction l as [| z l IH]; intros Hl; [reflexivity |].
  cbn [filter]. destruct (f z).
  - cbn [insert_lt]. rewrite (Hl z (or_introl eq_refl)). reflexivity.
  - apply IH. intros u Hu. apply Hl. right. exact Hu.
Qed.

(** Filtering commutes with the sort. *)
Lemma filter_insert_lt (f : A -> bool) x l s :
  ForallOrdPairs (fun y z => at_most (key y) (key z)) l ->
  insert_lt key x l = Ok s ->
  (if f x then insert_lt key x (filter f l) else Ok (filter f l))
  = Ok (filter f s).
Proof.
  revert s. induction l as [| y l IH]; intros s Hl H.
  - inversion H. cbn. destruct (f x); reflexivity.
  - inversion Hl as [| ? ? Hy Hl']; subst.
    cbn [insert_lt rbind] in H.
    destruct (lt (key y) (key x)) as [[|] |] eqn:Hyx; cbn [rbind] in H;
      [| | discriminate].
    + destruct (insert_lt key x l) as [rest |] eqn:Hi; [| discriminate].
      cbn [rbind] in H. inversion H; subst s.
      specialize (IH rest Hl' eq_refl).
      cbn [filter].
      destruct (f x), (f y); cbn [insert_lt rbind];
        rewrite ?Hyx; cbn [rbind]; try rewrite IH; try reflexivity;
        try (inversion IH; reflexivity).
    + inversion H; subst s. cbn [filter].
      destruct (f x) eqn:Fx; [| reflexivity].
      destruct (f y) eqn:Fy.
      * cbn [insert_lt]. rewrite Hyx. reflexivity.
      * apply insert_lt_front. rewrite Forall_forall in Hy.
        intros z Hz. exact (lt_negtrans _ _ _ (Hy z Hz) Hyx).
Qed.

Lemma sort_lt_filter (f : A -> bool) l s :
  sort_lt key l = Ok s -> sort_lt key (filter f l) = Ok (filter f s).
Proof.
  revert s. induction l as [| x l IH]; intros s H.
  - inversion H. reflexivity.
  - cbn [sort_lt] in H.
    destruct (sort_lt key l) as [s' |] eqn:Hs; [| discriminate].
    cbn [rbind] in H.
    pose proof (filter_insert_lt f x s' s (sort_lt_sorted _ _ Hs) H) as Hf.
    cbn [filter]. destruct (f x).
    + cbn [sort_lt]. rewrite (IH s' eq_refl). exact Hf.
    + rewrite (IH s' eq_refl). exact Hf.
Qed.

End SortedValues.

Lemma first_least_map {A B : Type} (g : A -> B) (key : B -> json) l b :
  first_least key (map g l) b ->
  exists a, b = g a /\ first_least (fun x => key (g x)) l a.
Proof.
  intros (pre & post & E & Hpre & Hpost).
  apply map_eq_app in E as (l1 & l2 & -> & <- & E2).
  destruct l2 as [| a l2]; [discriminate |].
  cbn [map] in E2. inversion E2; subst.
  exists a. split; [reflexivity |].
  exists l1, l2. split; [reflexivity |]. split.
  - intros y Hy. apply Hpre. apply in_map. exact Hy.
  - intros y Hy. apply Hpost. apply in_map. exact Hy.
Qed.

Section Milestone.
Import Sensor.BloodDonorNextMilestoneSensor.

Lemma credit_keys_spec items keyed :
  credit_keys items = Ok keyed ->
  keyed = map (fun a => (asks a, a)) items
  /\ forall a, In a items -> get a "creditCriteria" (JNum 0) = Ok (asks a).
Proof.
  revert keyed. induction items as [| x rest IH]; intros keyed Hk.
  - inversion Hk. split; [reflexivity | intros ? []].
  - cbn [credit_keys] in Hk. unfold asks at 1. cbn [map].
    destruct (get x "creditCriteria" (JNum 0)) as [k |] eqn:Hg;
      [| discriminate].
    cbn [rbind] in Hk.
    destruct (credit_keys rest) as [others |]; [| discriminate].
    cbn [rbind] in Hk. inversion Hk.
    destruct (IH others eq_refl) as (-> & Hall).
    split; [reflexivity |].
    intros a [<- | Ha]; [| exact (Hall a Ha)].
    unfold asks. rewrite Hg. reflexivity.
Qed.

(** The loop returns the title of the first entry above the total. *)
Lemma first_above_spec total_credits sorted v :
  (forall pr, In pr sorted ->
              get (snd pr) "creditCriteria" (JNum 0) = Ok (fst pr)) ->
  first_above total_credits sorted = Ok v ->
  match filter (fun pr => exceeds total_credits (fst pr)) sorted with
  | [] =>
      v = JStr "All milestones achieved"
      /\ forall pr, In pr sorted -> gt (fst pr) total_credits = Ok false
  | pr :: _ => v = title_of (snd pr)
  end.
Proof.
  induction sorted as [| [k a] rest IH]; intros Hkeys H.
  - inversion H. split; [reflexivity | intros ? []].
  - cbn [first_above] in H.
    pose proof (Hkeys (k, a) (or_introl eq_refl)) as Hka.
    cbn [fst snd] in Hka. rewrite Hka in H. cbn [rbind] in H.
    destruct (get a "title" (JStr "Unknown")) as [t |] eqn:Hti;
      [| discriminate].
    cbn [rbind] in H. cbn [filter fst]. unfold exceeds at 1.
    destruct (gt k total_credits) as [[|] |] eqn:Hgt; cbn [rbind] in H;
      [| | discriminate].
    + inversion H; subst v. unfold title_of. cbn [snd]. rewrite Hti.
      reflexivity.
    + assert (Hrest : forall pr, In pr rest ->
                  get (snd pr) "creditCriteria" (JNum 0) = Ok (fst pr))
        by (intros pr Hpr; apply Hkeys; right; exact Hpr).
      specialize (IH Hrest H).
      destruct (filter (fun pr => exceeds total_credits (fst pr)) rest);
        [| exact IH].
      destruct IH as [-> Hall]. split; [reflexivity |].
      intros pr [<- | Hpr]; [exact Hgt | exact (Hall pr Hpr)].
Qed.



(** Counts sent as texts are ordered as texts: "10" and "25" come
    before "5", so that a donor with "5" credits has achieved
    everything, and "Silver" is the next milestone of a donor with "12"
    credits. *)
Example text_counts_are_ordered_as_texts :
  state (with_text_awards "5" [text_award "Bronze" "10";
                               text_award "Silver" "25"])
  = Ok (JStr "All milestones achieved")
  /\ state (with_text_awards "12" [text_award "Gold" "50";
                                   text_award "Bronze" "10";
                                   text_award "Silver" "25"])
     = Ok (JStr "Silver")
  /\ state (with_awards 5 [text_award "Bronze" "10"]) = Raise TypeError.
Proof.
  repeat split.
Qed.
End Milestone.

(** ** The calendar *)

Lemma str_lower_app a b :
  str_lower (a ++ b) = (str_lower a ++ str_lower b)%string.
Proof.
  induction a as [| x a IH]; [reflexivity |]. cbn. rewrite IH. reflexivity.
Qed.

Lemma str_length_app a b :
  String.length (a ++ b) = (String.length a + String.length b)%nat.
Proof. induction a as [| x a IH]; cbn; [reflexivity | rewrite IH; reflexivity]. Qed.

Lemma str_drop_app a b :
  str_drop (String.length a) (a ++ b) = b.
Proof. induction a as [| x a IH]; [destruct b; reflexivity | exact IH]. Qed.

Lemma endswith_app a b : Calendar.endswith b (a ++ b) = true.
Proof.
  unfold Calendar.endswith. rewrite str_length_app.
  replace (String.length a + String.length b - String.length b)%nat
    with (String.length a) by lia.
  rewrite str_drop_app, String.eqb_refl.
  apply andb_true_iff. split; [apply Nat.leb_le; lia | reflexivity].
Qed.

Lemma str_app_assoc a b c : ((a ++ b) ++ c)%string = (a ++ (b ++ c))%string.
Proof. induction a as [| x a IH]; cbn; [reflexivity | rewrite IH; reflexivity]. Qed.

Lemma event_start_is_appointment_datetime apt ev :
  Calendar._appointment_to_event apt = Ok (Some ev) ->
  exists d, Scheduler.appointment_datetime_of apt = Ok (d, Calendar.start ev).
Proof.
  unfold Calendar._appointment_to_event, Scheduler.appointment_datetime_of,
    Scheduler.session_date_of.
  destruct (getitem apt "session") as [session | e]; cbn [rbind rcatch];
    [| destruct (Calendar.is_KeyError_ValueError_TypeError e); discriminate].
  destruct (getitem session "sessionDate") as [sdate | e]; cbn [rbind rcatch];
    [| destruct (Calendar.is_KeyError_ValueError_TypeError e); discriminate].
  destruct (as_str sdate) as [sd | e]; cbn [rbind rcatch];
    [| destruct (Calendar.is_KeyError_ValueError_TypeError e); discriminate].
  destruct (strptime_ymd (before_T sd)) as [d | e]; cbn [rbind rcatch];
    [| destruct (Calendar.is_KeyError_ValueError_TypeError e); discriminate].
  destruct (get apt "time" (JStr "")) as [t | e]; cbn [rbind rcatch];
    [| destruct (Calendar.is_KeyError_ValueError_TypeError e); discriminate].
  destruct (as_str t) as [ts | e]; cbn [rbind rcatch];
    [| destruct (Calendar.is_KeyError_ValueError_TypeError e); discriminate].
  set (time_str := str_remove "T" ts).
  intros H. exists d.
  destruct (4 <=? String.length time_str)%nat.
  - destruct (int_of_str (str_take 2 time_str)) as [h | e];
      cbn [rbind rcatch] in *;
      [| destruct (Calendar.is_KeyError_ValueError_TypeError e);
         discriminate].
    destruct (int_of_str (str_drop 2 time_str)) as [m | e];
      cbn [rbind rcatch] in *;
      [| destruct (Calendar.is_KeyError_ValueError_TypeError e);
         discriminate].
    destruct (make_time h m) as [tm | e]; cbn [rbind rcatch] in *;
      [| destruct (Calendar.is_KeyError_ValueError_TypeError e);
         discriminate].
    repeat match type of H with
    | rcatch (rbind ?c _) _ _ = _ =>
        destruct c as [? | e']; cbn [rbind rcatch] in H;
        [| destruct (Calendar.is_KeyError_ValueError_TypeError e');
           discriminate]
    end.
    inversion H. reflexivity.
  - cbn [rbind rcatch] in *.
    repeat match type of H with
    | rcatch (rbind ?c _) _ _ = _ =>
        destruct c as [? | e']; cbn [rbind rcatch] in H;
        [| destruct (Calendar.is_KeyError_ValueError_TypeError e');
           discriminate]
    end.
    inversion H. reflexivity.
Qed.

(** X16.  An appointment that becomes a calendar event starts at the
    moment the update scheduler computes for the same appointment (its
    time of day, noon when it has none).  The event lasts 90 minutes
    when the procedure text holds "platelet" or "plt", 60 minutes when it
    holds "plasma" or "pls" and 45 minutes otherwise, so it ends after it
    starts; the procedure text is never empty, and the summary always
    ends in "donation", whatever the case of its letters. *)
Theorem calendar_event_of_appointment apt ev :
  Calendar._appointment_to_event apt = Ok (Some ev) ->
  (exists d, Scheduler.appointment_datetime_of apt
             = Ok (d, Calendar.start ev))
  /\ Calendar.end_ ev
     = Calendar.start ev
       + duration_of (Calendar.d_procedure (Calendar.description ev))
  /\ Calendar.start ev < Calendar.end_ ev
  /\ Calendar.endswith "donation" (str_lower (Calendar.summary ev)) = true
  /\ Calendar.d_procedure (Calendar.description ev) <> EmptyString.
Proof.
  unfold Calendar._appointment_to_event, Scheduler.appointment_datetime_of,
    Scheduler.session_date_of.
  destruct (getitem apt "session") as [session | e]; cbn [rbind rcatch];
    [| destruct (Calendar.is_KeyError_ValueError_TypeError e); discriminate].
  destruct (getitem session "sessionDate") as [sdate | e]; cbn [rbind rcatch];
    [| destruct (Calendar.is_KeyError_ValueError_TypeError e); discriminate].
  destruct (as_str sdate) as [sd | e]; cbn [rbind rcatch];
    [| destruct (Calendar.is_KeyError_ValueError_TypeError e); discriminate].
  destruct (strptime_ymd (before_T sd)) as [d | e]; cbn [rbind rcatch];
    [| destruct (Calendar.is_KeyError_ValueError_TypeError e); discriminate].
  destruct (get apt "time" (JStr "")) as [t | e]; cbn [rbind rcatch];
    [| destruct (Calendar.is_KeyError_ValueError_TypeError e); discriminate].
  destruct (as_str t) as [ts | e]; cbn [rbind rcatch];
    [| destruct (Calendar.is_KeyError_ValueError_TypeError e); discriminate].
  set (time_str := str_remove "T" ts).
  intros H.
  assert (Hstart : exists start_dt,
             (if (4 <=? String.length time_str)%nat
              then
                rbind (int_of_str (str_take 2 time_str)) (fun hour =>
                rbind (int_of_str (str_drop 2 time_str)) (fun minute =>
                rbind (make_time hour minute) (fun tm =>
                Ok (combine d tm))))
              else Ok (combine d Scheduler.noon)) = Ok start_dt).
  { match type of H with
    | rcatch (rbind ?c _) _ _ = _ => destruct c as [s0 | e] eqn:E
    end; [eauto |].
    cbn [rbind rcatch] in H.
    destruct (Calendar.is_KeyError_ValueError_TypeError e); discriminate. }
  destruct Hstart as (start_dt & Hstart).
  rewrite Hstart in H. cbn [rbind] in H.
  destruct (get apt "procedureDescription" (JStr "Blood Donation"))
    as [p | e]; cbn [rbind rcatch] in H;
    [| destruct (Calendar.is_KeyError_ValueError_TypeError e); discriminate].
  set (procedure := match p with
                    | JStr s => if String.eqb s "" then "Blood Donation" else s
                    | _ => "Blood Donation"
                    end) in *.
  assert (Hp : procedure <> EmptyString).
  { subst procedure. destruct p as [| | | s | |]; try discriminate.
    destruct (String.eqb_spec s ""); [discriminate | assumption]. }
  fold (duration_of procedure) in H.
  assert (Hdur : 0 < duration_of procedure).
  { unfold duration_of. repeat match goal with
      | |- context [if ?b then _ else _] => destruct b
      end; reflexivity. }
  unfold datetime_add in H.
  destruct ((0 <? date_of (start_dt + duration_of procedure))
            && (date_of (start_dt + duration_of procedure) <=? MAXORDINAL));
    cbn [rbind rcatch] in H; [| discriminate].
  repeat match type of H with
  | rcatch (rbind ?c _) _ _ = _ =>
      destruct c as [? | e']; cbn [rbind rcatch] in H;
      [| destruct (Calendar.is_KeyError_ValueError_TypeError e');
         discriminate]
  end.
  inversion H; subst ev; clear H.
  cbn [Calendar.start Calendar.end_ Calendar.summary Calendar.description
       Calendar.d_procedure].
  split.
  { exists d. cbn [rbind]. destruct (4 <=? String.length time_str)%nat.
    - destruct (int_of_str (str_take 2 time_str)); [| discriminate].
      cbn [rbind] in *.
      destruct (int_of_str (str_drop 2 time_str)); [| discriminate].
      cbn [rbind] in *.
      destruct (make_time _ _); [| discriminate].
      cbn [rbind] in *. inversion Hstart. reflexivity.
    - inversion Hstart. reflexivity. }
  split; [reflexivity |]. split; [lia |]. split; [| exact Hp].
  destruct (Calendar.endswith "donation" (str_lower procedure)) eqn:E;
    [exact E |].
  rewrite str_lower_app.
  change (str_lower " Donation") with (" " ++ "donation")%string.
  rewrite <- str_app_assoc. apply endswith_app.
Qed.

Lemma calendar_event_of_appointment_witness :
  exists ev,
    Calendar._appointment_to_event platelets = Ok (Some ev)
    /\ Calendar.summary ev = "Platelet Donation"
    /\ Calendar.end_ ev = Calendar.start ev + Calendar.minutes 90
    /\ Calendar.start ev < Calendar.end_ ev.
Proof.
  eexists. split; [vm_compute; reflexivity |].
  split; [reflexivity |]. split; [reflexivity |].
  refine (proj1 (proj2 (proj2
            (calendar_event_of_appointment platelets _ _)))).
  vm_compute. reflexivity.
Defined.

(** X17.  The calendar and the update scheduler agree on the next
    appointment: when the calendar shows a next event for a snapshot,
    the scheduler that adjusts the interval from the same snapshot
    remembers the start of that event as the date and time of the next
    appointment. *)
Theorem calendar_and_scheduler_agree data ev now c :
  Calendar.event data = Ok (Some ev) ->
  Scheduler._next_appointment_datetime
    (Scheduler._adjust_update_interval data now c)
  = Some (Calendar.start ev).
Proof.
  unfold Calendar.event.
  destruct (truthy data); cbn [negb]; [| discriminate].
  destruct (get data "appointments" (JArr [])) as [appointments |] eqn:Hg;
    cbn [rbind]; [| discriminate].
  destruct (truthy appointments) eqn:Ht; cbn [negb]; [| discriminate].
  destruct (Scheduler.get_next_appointment appointments) as [[apt |] | e]
    eqn:Hn; cbn [rbind rcatch];
    [| discriminate | destruct (Scheduler.is_parse_error e); discriminate].
  destruct (truthy apt); cbn [negb]; [| discriminate].
  destruct (Calendar._appointment_to_event apt) as [o | e] eqn:He;
    cbn [rcatch]; [| destruct (Scheduler.is_parse_error e); discriminate].
  intros H. inversion H; subst o; clear H.
  destruct (event_start_is_appointment_datetime _ _ He) as (d & Hd).
  unfold Scheduler._adjust_update_interval.
  rewrite Hg. cbn [rbind]. rewrite Ht. cbn [negb]. rewrite Hn.
  cbn [rbind]. rewrite Hd. cbn [rbind rcatch].
  destruct (set_update_interval_spec
              (Scheduler.interval_for d (Calendar.start ev) now)
              (Scheduler.remember_appointment (Calendar.start ev) c))
    as (_ & -> & _).
  reflexivity.
Qed.

Lemma calendar_and_scheduler_agree_witness :
  Scheduler._next_appointment_datetime
    (Scheduler._adjust_update_interval (snapshot [platelets]) morning routine)
  = Some (combine (friday + 8) (14 * hour_us + 30 * 60 * second_us)).
Proof.
  refine (eq_trans
            (calendar_and_scheduler_agree (snapshot [platelets]) _ morning
               routine _) _).
  - vm_compute. reflexivity.
  - reflexivity.
Defined.

(** ** The configuration flow *)

(** X18.  The configuration flow shows the empty form when it has no
    input.  With input it always returns, whatever the service answers:
    the entry when [login] returned [True], the form with
    ["invalid_auth"] when it returned [False], the form with ["unknown"]
    when it raised.  It sends the one login request, and the client of a
    configured account keeps its tokens and its donor id. *)
Theorem config_flow_outcome u w :
  ConfigFlow.async_step_user None w = Ret (ConfigFlow.ShowForm None) w
  /\ exists r w',
       ConfigFlow.async_step_user (Some u) w = Ret r w'
       /\ r = match login w with
              | Ret true _ => ConfigFlow.CreateEntry (ConfigFlow.username u) u
              | Ret false _ => ConfigFlow.ShowForm (Some "invalid_auth")
              | _ => ConfigFlow.ShowForm (Some "unknown")
              end
       /\ access_token w' = access_token w
       /\ refresh_token w' = refresh_token w
       /\ donor_id w' = donor_id w
       /\ data w' = data w
       /\ events w' = Sent ReqLogin :: events w.
Proof.
  split; [reflexivity |].
  destruct (login_effects w) as ((_ & _ & He & _ & _ & Hd & _) & Hrun).
  unfold ConfigFlow.async_step_user, ConfigFlow.own_client, try_catch, bind.
  destruct (login w) as [[|] w1 | e w1 | w1] eqn:Hl; cbn in He, Hd |- *.
  - eexists. eexists. split; [reflexivity |]. repeat split; assumption.
  - eexists. eexists. split; [reflexivity |]. repeat split; assumption.
  - eexists. eexists. split; [reflexivity |]. repeat split; assumption.
  - exfalso. eapply Hrun. reflexivity.
Qed.

(** ** The [book_appointment] service *)

Lemma booked_after call w w1 w' :
  cache_untouched w w1 -> booked_then_refreshed call w1 w' ->
  booked_then_refreshed call w w'.
Proof.
  intros H (w0 & text & d & f & H0 & Hr & Hs & Ha).
  exists w0, text, d, f.
  split; [eapply cache_untouched_trans; eassumption | auto].
Qed.

Lemma cache_untouched_sent q w : cache_untouched w (sent q w).
Proof. exact (quiet_send q w). Qed.

Lemma cache_untouched_notice id w :
  cache_untouched w (record_event (Notified id) w).
Proof. exact (quiet_notify id w). Qed.

Lemma book_service_refreshes fuel call :
  RefreshesOnlyBooked call (Services.async_book_appointment_service fuel call).
Proof.
  induction fuel as [| f IH]; [intros w; exact I |].
  (* the part of the service from the second reading of the token on *)
  assert (Hrest : forall w1,
    match
      (bind (read access_token) (fun tok' =>
         if negb (truthy tok') then ret tt
         else
           bind (send (Services.booking_request call tok')) (fun r =>
             transport_failure r (fun status response_text response_json =>
               if status =? 401 then
                 bind login (fun ok : bool =>
                   if ok
                   then Services.async_book_appointment_service f call
                   else ret tt)
               else if negb (status =? 200) then
                 notify "blood_donor_booking_failed"
               else
                 try_catch
                   (bind response_json (fun data =>
                    bind (lift (get data "status" (JStr ""))) (fun status_field =>
                    bind (lift (Services.booked_details data)) (fun _ =>
                    if json_eqb_str status_field "B" then
                      bind (notify "blood_donor_booking_success")
                        (fun _ => async_refresh (S f))
                    else notify "blood_donor_booking_status"))))
                   is_JSONDecodeError
                   (fun _ => notify "blood_donor_booking_error"))))) w1
    with
    | Ret _ w' => cache_untouched w1 w' \/ booked_then_refreshed call w1 w'
    | Exc _ w' => cache_untouched w1 w'
    | Running _ => True
    end).
  { intros w1. unfold bind at 1, read at 1.
    destruct (truthy (access_token w1)); cbn [negb];
      [| left; apply cache_untouched_refl].
    set (q := Services.booking_request call (access_token w1)).
    unfold bind at 1, send at 1. fold (sent q w1).
    assert (Hauth :
      match
        bind login (fun ok : bool =>
          if ok then Services.async_book_appointment_service f call
          else ret tt) (sent q w1)
      with
      | Ret _ w' => cache_untouched w1 w' \/ booked_then_refreshed call w1 w'
      | Exc _ w' => cache_untouched w1 w'
      | Running _ => True
      end).
    { unfold bind at 1.
      pose proof (quiet_login (sent q w1)) as Hl.
      destruct (login (sent q w1)) as [[|] w2 | e w2 | w2]; cbn in Hl;
        try exact I.
      - specialize (IH w2).
        assert (H12 : cache_untouched w1 w2)
          by (eapply cache_untouched_trans;
              [apply cache_untouched_sent | exact Hl]).
        destruct (Services.async_book_appointment_service f call w2)
          as [u w3 | e w3 | w3]; try exact I.
        + destruct IH as [IH | IH];
            [left; eapply cache_untouched_trans; eassumption
            | right; eapply booked_after; eassumption].
        + eapply cache_untouched_trans; eassumption.
      - left. eapply cache_untouched_trans;
          [apply cache_untouched_sent | exact Hl].
      - eapply cache_untouched_trans;
          [apply cache_untouched_sent | exact Hl]. }
    destruct (remote w1 (clock w1) q) as [status text body | | | status text]
      eqn:Hreply; cbn [transport_failure];
      [| apply cache_untouched_sent | apply cache_untouched_sent |].
    2:{ destruct (status =? 401); [exact Hauth |].
        destruct (negb (status =? 200)).
        - left. eapply cache_untouched_trans;
            [apply cache_untouched_sent | apply cache_untouched_notice].
        - apply cache_untouched_sent. }
    destruct (status =? 401); [exact Hauth |].
    destruct (Z.eqb_spec status 200) as [-> | Hs]; cbn [negb].
    2:{ left. eapply cache_untouched_trans;
          [apply cache_untouched_sent | apply cache_untouched_notice]. }
    unfold try_catch.
    destruct body as [d |]; cbn [json_of].
    2:{ unfold bind at 1, raise. cbn [is_JSONDecodeError].
        left. eapply cache_untouched_trans;
          [apply cache_untouched_sent | apply cache_untouched_notice]. }
    unfold bind at 1, ret.
    destruct (get d "status" (JStr "")) as [status_field | e] eqn:Hst;
      cbn [lift].
    2:{ unfold bind at 1, raise.
        destruct (is_JSONDecodeError e).
        - left. eapply cache_untouched_trans;
            [apply cache_untouched_sent | apply cache_untouched_notice].
        - apply cache_untouched_sent. }
    unfold bind at 1, ret.
    destruct (Services.booked_details d) as [u | e]; cbn [lift].
    2:{ unfold bind at 1, raise.
        destruct (is_JSONDecodeError e).
        - left. eapply cache_untouched_trans;
            [apply cache_untouched_sent | apply cache_untouched_notice].
        - apply cache_untouched_sent. }
    unfold bind at 1, ret.
    destruct (json_eqb_str status_field "B") eqn:HB.
    2:{ left. eapply cache_untouched_trans;
          [apply cache_untouched_sent | apply cache_untouched_notice]. }
    apply json_eqb_str_true in HB. subst status_field.
    unfold bind at 1. rewrite notify_Ret.
    pose proof (async_refresh_never_raises (S f)
                  (record_event (Notified "blood_donor_booking_success")
                     (sent q w1))) as Hne.
    destruct (async_refresh (S f)
                (record_event (Notified "blood_donor_booking_success")
                   (sent q w1))) as [[] w3 | e w3 | w3] eqn:Hr.
    - right. exists w1, text, d, (S f).
      split; [apply cache_untouched_refl |]. auto.
    - exfalso. eapply Hne. reflexivity.
    - exact I. }
  intros w. cbn [Services.async_book_appointment_service].
  unfold bind at 1, read at 1.
  destruct (coordinators w); cbn [negb]; [| left; apply cache_untouched_refl].
  unfold try_catch.
  match goal with
  | |- match match ?c w with _ => _ end with _ => _ end =>
      assert (Hbody : match c w with
                      | Ret _ w' =>
                          cache_untouched w w' \/ booked_then_refreshed call w w'
                      | Exc _ w' => cache_untouched w w'
                      | Running _ => True
                      end)
  end.
  { unfold bind at 1, read at 1. unfold bind at 1.
    destruct (truthy (access_token w)); cbn [negb].
    - unfold ret at 1. apply Hrest.
    - unfold bind at 1.
      pose proof (quiet_login w) as Hl.
      destruct (login w) as [ok w1 | e w1 | w1]; cbn in Hl; try assumption;
        [| exact I].
      unfold ret at 1.
      specialize (Hrest w1).
      match goal with
      | |- match ?x with _ => _ end =>
          match type of Hrest with
          | match ?y with _ => _ end => change x with y
          end
      end.
      match type of Hrest with
      | match ?y with _ => _ end => destruct y as [u w2 | e w2 | w2]
      end; try exact I.
      + destruct Hrest as [H | H];
          [left; eapply cache_untouched_trans; eassumption
          | right; eapply booked_after; eassumption].
      + eapply cache_untouched_trans; eassumption. }
  match type of Hbody with
  | match ?y with _ => _ end => destruct y as [u w2 | e w2 | w2]
  end; try assumption.
  cbn [any_Exception]. rewrite notify_Ret. left.
  eapply cache_untouched_trans; [exact Hbody | apply cache_untouched_notice].
Qed.

Lemma announces_notice {P : bool -> unit -> Prop} id :
  P true tt -> Announces P (notify id).
Proof. intros H w. rewrite notify_Ret. left. split; [reflexivity | exact H]. Qed.

Lemma book_service_announces fuel call :
  Announces (fun _ _ => True)
    (Services.async_book_appointment_service fuel call).
Proof.
  induction fuel as [| f IH].
  { intros w. cbn. lia. }
  cbn [Services.async_book_appointment_service].
  apply announces_bind; [apply silent_read | intros has].
  destruct (negb has); [apply announces_ret; exact I |].
  apply announces_try; [| intros e; apply announces_notice; exact I].
  apply announces_bind; [apply silent_read | intros tok].
  apply announces_bind.
  { destruct (negb (truthy tok));
      [apply silent_bind; [apply silent_login | intros ?; apply silent_ret]
      | apply silent_ret]. }
  intros _.
  apply announces_bind; [apply silent_read | intros tok'].
  destruct (negb (truthy tok')); [apply announces_ret; exact I |].
  apply announces_bind; [apply silent_send | intros r].
  destruct r as [status text body | | | status text];
    cbn [transport_failure];
    [| apply announces_raise | apply announces_raise |].
  2:{ destruct (status =? 401).
      { apply announces_bind; [apply silent_login | intros ok].
        destruct ok; [exact IH | apply announces_ret; exact I]. }
      destruct (negb (status =? 200)); [apply announces_notice; exact I |].
      apply announces_try; [| intros e; apply announces_notice; exact I].
      apply announces_bind; [apply silent_raise | intros d].
      apply announces_bind; [apply silent_lift | intros status_field].
      apply announces_bind; [apply silent_lift | intros _].
      destruct (json_eqb_str status_field "B");
        [| apply announces_notice; exact I].
      apply announces_notify;
        [apply silent_async_refresh | apply async_refresh_never_raises
        | auto]. }
  destruct (status =? 401).
  { apply announces_bind; [apply silent_login | intros ok].
    destruct ok; [exact IH | apply announces_ret; exact I]. }
  destruct (negb (status =? 200)); [apply announces_notice; exact I |].
  apply announces_try; [| intros e; apply announces_notice; exact I].
  apply announces_bind; [apply silent_json_of | intros d].
  apply announces_bind; [apply silent_lift | intros status_field].
  apply announces_bind; [apply silent_lift | intros _].
  destruct (json_eqb_str status_field "B");
    [| apply announces_notice; exact I].
  apply announces_notify;
    [apply silent_async_refresh | apply async_refresh_never_raises | auto].
Qed.

(** X19.  The [book_appointment] service never raises.  When it returns
    it has posted at most one notification, and it has left the cached
    snapshot alone unless the answer to its booking request was a 200
    with status "B": only then does it refresh the coordinator, after the
    success notification. *)
Theorem book_service_outcome fuel call w :
  match Services.async_book_appointment_service fuel call w with
  | Ret _ w' =>
      (notices w' = notices w \/ notices w' = S (notices w))
      /\ (cache_untouched w w' \/ booked_then_refreshed call w w')
  | Exc _ _ => False
  | Running _ => True
  end.
Proof.
  pose proof (book_service_announces fuel call w) as Hn.
  pose proof (book_service_refreshes fuel call w) as Hr.
  destruct (Services.async_book_appointment_service fuel call w)
    as [u w' | e w' | w'] eqn:Hrun; [| | exact I].
  - split; [| exact Hr]. destruct Hn as [[Hn _] | [Hn _]]; auto.
  - destruct fuel as [| f]; [discriminate |].
    cbn [Services.async_book_appointment_service] in Hrun.
    unfold bind at 1, read at 1 in Hrun.
    destruct (negb (coordinators w)); [discriminate |].
    unfold try_catch in Hrun.
    match type of Hrun with
    | match ?c with _ => _ end = _ => destruct c
    end; discriminate.
Qed.

(** ** Further edges of the booking helper *)

Lemma apt_date_str_raises apt e :
  apt_date_str apt = Raise e ->
  e = KeyError \/ e = TypeError \/ e = AttributeError.
Proof.
  unfold apt_date_str.
  destruct apt as [| | | | | m]; cbn;
    try solve [intros H; inversion H; auto].
  destruct (assoc "session" m) as [session |]; cbn;
    [| intros H; inversion H; auto].
  destruct session as [| | | | | sm]; cbn;
    try solve [intros H; inversion H; auto].
  destruct (assoc "sessionDate" sm) as [sd |]; cbn;
    [| intros H; inversion H; auto].
  destruct sd; cbn; intros H; inversion H; auto.
Qed.

Lemma log_appointments_raises items e :
  log_appointments items = Raise e -> e = TypeError \/ e = AttributeError.
Proof.
  induction items as [| apt rest IH]; [discriminate |].
  cbn [log_appointments].
  destruct (apt_date_str apt) as [s | e0] eqn:Ha; cbn [rbind rcatch].
  - exact IH.
  - destruct (apt_date_str_raises _ _ Ha) as [-> | [-> | ->]];
      cbn [is_KeyError_or_IndexError rbind].
    + exact IH.
    + intros H; inversion H; auto.
    + intros H; inversion H; auto.
Qed.

(** X20.  The loop that logs the appointments tolerates a missing key
    only.  An appointment whose [session] is no object, or whose
    [sessionDate] is no text, raises [TypeError] or [AttributeError]
    there, before the [try] that would fall back to sixty days ago: the
    exception leaves [get_last_donation_date], and the booking helper
    never gets to search. *)
Theorem malformed_appointment_escapes fuel w appointments items e :
  truthy (data w) = true ->
  last_update_success w = true ->
  get (data w) "appointments" (JArr []) = Ok appointments ->
  truthy appointments = true ->
  iter appointments = Ok items ->
  log_appointments items = Raise e ->
  get_last_donation_date fuel w = Exc e w
  /\ (e = TypeError \/ e = AttributeError)
  /\ forall call p w',
       prepare fuel call w <> Ret (Search p) w'.
Proof.
  intros Hd Hok Hget Ht Hi Hlog.
  assert (Hrun : get_last_donation_date fuel w = Exc e w).
  { unfold get_last_donation_date, bind, read.
    rewrite Hd, Hok. cbn [negb orb ret]. rewrite Hd. cbn [negb].
    rewrite Hget. cbn [lift ret]. rewrite Ht. cbn [negb].
    assert (Hlen : exists n, len appointments = Ok n).
    { destruct appointments; try discriminate; cbn; eauto. }
    destruct Hlen as (n & ->). cbn [lift ret].
    rewrite Hi. cbn [lift ret]. rewrite Hlog. reflexivity. }
  split; [exact Hrun |].
  split; [exact (log_appointments_raises _ _ Hlog) |].
  intros call p w' Hp.
  apply prepare_Search in Hp as (_ & _ & _ & _ & Hlast & _).
  rewrite Hrun in Hlast. discriminate.
Qed.

Lemma malformed_appointment_escapes_witness :
  get_last_donation_date 3
    (account unreachable (JArr [numbered_date]))
  = Exc AttributeError (account unreachable (JArr [numbered_date])).
Proof.
  apply (malformed_appointment_escapes 3
           (account unreachable (JArr [numbered_date]))
           (JArr [numbered_date]) [numbered_date] AttributeError);
    reflexivity.
Defined.

(** X21.  The number of days added to reach the requested weekday is
    the remainder of the difference of the two weekday indices modulo 7.
    The remainder is never negative, so the branch that adds 7 to it is
    never taken, and the special case of equal indices gives the same
    number. *)
Theorem days_to_add_is_a_remainder c t :
  days_to_add c t = (t - c) mod 7
  /\ ((t - c) mod 7 <? 0) = false.
Proof.
  pose proof (Z.mod_pos_bound (t - c) 7 ltac:(lia)) as Hb.
  assert (Hn : ((t - c) mod 7 <? 0) = false) by (apply Z.ltb_ge; lia).
  split; [| exact Hn].
  unfold days_to_add. rewrite Hn.
  destruct (Z.eqb_spec c t) as [-> | _]; [| reflexivity].
  rewrite Z.sub_diag. reflexivity.
Qed.

(** X22.  A session is kept as soon as one of its periods has a positive
    count of free slots: the periods are read in order up to the first
    such period and no further, so a malformed period after it is never
    looked at.  The answer is "no" only when every period has a count
    that reads as a number not above zero, and the check raises exactly
    when a period that cannot be read comes before any free one. *)
Theorem first_free_period_decides periods :
  match has_availability periods with
  | Ok true =>
      exists pre p post n,
        periods = pre ++ p :: post
        /\ rbind (get p "availableSlots" (JNum 0)) int_of = Ok n /\ n > 0
        /\ forall q, In q pre ->
             exists k, rbind (get q "availableSlots" (JNum 0)) int_of = Ok k
                       /\ k <= 0
  | Ok false =>
      forall q, In q periods ->
        exists k, rbind (get q "availableSlots" (JNum 0)) int_of = Ok k
                  /\ k <= 0
  | Raise e =>
      exists pre p post,
        periods = pre ++ p :: post
        /\ rbind (get p "availableSlots" (JNum 0)) int_of = Raise e
        /\ forall q, In q pre ->
             exists k, rbind (get q "availableSlots" (JNum 0)) int_of = Ok k
                       /\ k <= 0
  end.
Proof.
  induction periods as [| p rest IH]; [intros q []|].
  cbn [has_availability].
  destruct (get p "availableSlots" (JNum 0)) as [v | e] eqn:Hv; cbn [rbind].
  2:{ exists [], p, rest. rewrite Hv. repeat split. intros q []. }
  destruct (int_of v) as [n | e] eqn:Hn; cbn [rbind].
  2:{ exists [], p, rest. rewrite Hv. cbn [rbind]. repeat split; auto.
      intros q []. }
  destruct (Z.gtb_spec n 0) as [Hpos | Hle].
  { exists [], p, rest, n. rewrite Hv. cbn [rbind].
    repeat split; auto; try lia. intros q []. }
  assert (Hp : exists k, rbind (get p "availableSlots" (JNum 0)) int_of = Ok k
                         /\ k <= 0)
    by (exists n; rewrite Hv; cbn [rbind]; auto).
  destruct (has_availability rest) as [[|] | e].
  - destruct IH as (pre & p0 & post & n0 & -> & H0 & Hn0 & Hpre).
    exists (p :: pre), p0, post, n0. repeat split; auto.
    intros q [<- | Hq]; auto.
  - intros q [<- | Hq]; auto.
  - destruct IH as (pre & p0 & post & -> & H0 & Hpre).
    exists (p :: pre), p0, post. repeat split; auto.
    intros q [<- | Hq]; auto.
Qed.

(** ** What a call without [auto_book] never does *)

Lemma unseen_notify (p : event -> bool) id :
  p (Notified id) = false -> Unseen p (notify id).
Proof.
  intros Hn w. unfold notify, update, count_events. cbn. rewrite Hn.
  reflexivity.
Qed.

Lemma prepare_books_nothing fuel call :
  Unseen is_booking (prepare fuel call).
Proof.
  unfold prepare.
  repeat first
    [ apply unseen_notify; reflexivity
    | apply unseen_get_last_donation_date; [intros ? H; exact H | reflexivity]
    | apply unseen_ret | apply unseen_raise | apply unseen_read
    | apply unseen_lift
    | apply unseen_bind; [| intros ?]
    | match goal with
      | |- Unseen _ (if ?b then _ else _) => destruct b
      | |- Unseen _ (match ?x with _ => _ end) => destruct x
      end ].
Qed.

Lemma search_books_nothing fuel p :
  pl_auto_book p = false -> Unseen is_booking (search fuel p).
Proof.
  intros Hauto. unfold search. rewrite Hauto.
  repeat first
    [ apply unseen_notify; reflexivity
    | apply unseen_login; intros ? H; exact H
    | apply unseen_get_sessions_for_date; intros ? H; exact H
    | apply unseen_collect_slots; intros ? H; exact H
    | apply unseen_ret | apply unseen_raise | apply unseen_read
    | apply unseen_lift
    | apply unseen_try; [| intros ?]
    | apply unseen_bind; [| intros ?]
    | match goal with
      | |- Unseen _ (if ?b then _ else _) => destruct b
      | |- Unseen _ (match ?x with _ => _ end) => destruct x
      end ].
Qed.

(** X23.  Without [auto_book] the booking helper books nothing: a call
    that does not set [auto_book] to true sends no booking request,
    whatever the service answers and however the call ends. *)
Theorem no_booking_without_auto_book fuel call w :
  auto_book call <> Some true ->
  bookings (world_of (async_booking_helper_service fuel call w)) = bookings w.
Proof.
  intros Hcall.
  unfold async_booking_helper_service, bind.
  pose proof (prepare_books_nothing fuel call w) as Hp.
  destruct (prepare fuel call w) as [[r | p] w1 | e w1 | w1] eqn:Hrun;
    try exact Hp.
  assert (Hauto : pl_auto_book p = false).
  { apply prepare_Search in Hrun
      as (v & Hv & _ & _ & _ & _ & _ & _ & _ & _ & Hab & _).
    rewrite Hab.
    unfold SERVICE_SCHEMA_BOOKING_HELPER in Hv.
    destruct (venue_id call); [| discriminate].
    destruct (validate_day_of_week (target_day_of_week call));
      [| discriminate].
    cbn [rbind] in Hv. inversion Hv; subst v; clear Hv.
    cbn [v_auto_book].
    destruct (auto_book call) as [[|] |]; try reflexivity.
    contradiction Hcall. reflexivity. }
  pose proof (search_books_nothing fuel p Hauto w1) as Hs.
  unfold bookings. cbn [world_of] in Hp. rewrite <- Hp. exact Hs.
Qed.

Lemma no_booking_without_auto_book_witness :
  bookings (world_of (async_booking_helper_service 3 (on_day "friday")
                        (account (clinic 2 [slot_at "T1220"] "B") (JArr []))))
  = 0%nat.
Proof.
  apply (no_booking_without_auto_book 3 (on_day "friday")
           (account (clinic 2 [slot_at "T1220"] "B") (JArr []))).
  discriminate.
Defined.
